(** * Verification of the LLDB annotation test driver ([_lldbtest/main.py])

    The development embeds the driver shallowly:

    - [Py] holds the Python string primitives the driver relies on
      ([str.strip], [str.split], [str.join], [int], ...), over byte strings;
    - the data classes of the driver become records;
    - the files of a run are a function from paths to what opening and
      reading them gives, the lines or an exception;
    - what the driver prints is written in a writer monad [W] that can
      raise;
    - the LLDB scripting API is an interface ([Backend]): every theorem is
      proved for an arbitrary implementation of it, and [Fake] provides a
      small scripted implementation used to run the driver on concrete
      sessions;
    - code that raises returns a [result]; code that drives the debugger is
      written in a state-and-exception monad [M] whose state also records the
      sequence of debugger calls that were made. *)

From Stdlib Require Import ZArith Ascii String Lia.
From stdpp Require Import base strings list gmap pretty sorting.
From Equations Require Import Equations.

Local Open Scope Z_scope.

(* ===================================================================== *)
(** * Python string primitives *)
(* ===================================================================== *)

Module Py.

(** [str.isspace] on one character, restricted to the ASCII range
    (tab, line feed, vertical tab, form feed, carriage return, the four
    separators 0x1c-0x1f and the space).  Python also strips and splits at
    the whitespace characters beyond that range (U+0085, U+00A0, U+2003,
    U+3000 and the like), which are several bytes here: the embedding is
    that of the driver on sources, names and console lines without such
    characters.  No proof below looks into this class. *)
Definition isspace (c : ascii) : bool :=
  let n := N_of_ascii c in
  ((9 <=? n) && (n <=? 13) || (28 <=? n) && (n <=? 31) || (n =? 32))%N.

Definition ascii_eqb (a b : ascii) : bool := bool_decide (a = b).

(** Membership of a character in the character set given to
    [strip]/[lstrip]. *)
Fixpoint char_in (c : ascii) (chars : string) : bool :=
  match chars with
  | EmptyString => false
  | String d rest => ascii_eqb c d || char_in c rest
  end.

Fixpoint lstrip_by (p : ascii -> bool) (s : string) : string :=
  match s with
  | EmptyString => EmptyString
  | String c rest => if p c then lstrip_by p rest else s
  end.

Definition rstrip_by (p : ascii -> bool) (s : string) : string :=
  String.rev (lstrip_by p (String.rev s)).

Definition strip_by (p : ascii -> bool) (s : string) : string :=
  rstrip_by p (lstrip_by p s).

(** [s.strip()] *)
Definition strip (s : string) : string := strip_by isspace s.
(** [s.strip(chars)] *)
Definition strip_chars (chars s : string) : string :=
  strip_by (fun c => char_in c chars) s.
(** [s.lstrip(chars)] *)
Definition lstrip_chars (chars s : string) : string :=
  lstrip_by (fun c => char_in c chars) s.

(** [s.startswith(p)] *)
Definition startswith (p s : string) : bool := String.prefix p s.

(** [sub in s] *)
Fixpoint contains (sub s : string) : bool :=
  String.prefix sub s ||
  match s with
  | EmptyString => false
  | String _ rest => contains sub rest
  end.

(** [s.split(sep, maxsplit)] for a non-empty separator.  [budget] is the
    number of cuts still allowed ([None]: unbounded); [skip] counts the
    characters of a separator that was just matched and is being passed
    over; [cur] is the current piece, reversed. *)
Fixpoint split_go (sep : string) (skip : nat) (budget : option nat)
    (cur : string) (s : string) : list string :=
  match s with
  | EmptyString => [String.rev cur]
  | String c rest =>
      match skip with
      | S k => split_go sep k budget cur rest
      | O =>
          let allowed := match budget with Some O => false | _ => true end in
          if allowed && String.prefix sep s then
            String.rev cur ::
              split_go sep (Nat.pred (String.length sep))
                (Nat.pred <$> budget) EmptyString rest
          else split_go sep O budget (String c cur) rest
      end
  end.

Definition split (sep : string) (s : string) : list string :=
  split_go sep O None EmptyString s.
Definition split_max (sep : string) (maxsplit : nat) (s : string) : list string :=
  split_go sep O (Some maxsplit) EmptyString s.

(** [s.split()]: pieces separated by runs of whitespace, no empty piece. *)
Fixpoint split_ws_go (cur : option string) (s : string) : list string :=
  match s with
  | EmptyString => option_list (String.rev <$> cur)
  | String c rest =>
      if isspace c then option_list (String.rev <$> cur) ++ split_ws_go None rest
      else split_ws_go (Some (String c (default EmptyString cur))) rest
  end.
Definition split_ws (s : string) : list string := split_ws_go None s.

(** [sep.join(l)] *)
Fixpoint join (sep : string) (l : list string) : string :=
  match l with
  | [] => EmptyString
  | [x] => x
  | x :: rest => x +:+ sep +:+ join sep rest
  end.

(** [s.lower()] on ASCII letters. *)
Definition lower_char (c : ascii) : ascii :=
  let n := N_of_ascii c in
  if ((65 <=? n) && (n <=? 90))%N then ascii_of_N (n + 32) else c.
Fixpoint lower (s : string) : string :=
  match s with
  | EmptyString => EmptyString
  | String c rest => String (lower_char c) (lower rest)
  end.

(** [l[0]] and [l[-1]] of a list that [split] returned (never empty). *)
Definition first (l : list string) : string := default EmptyString (head l).
Definition last (l : list string) : string := default EmptyString (list.last l).

(** ** [int(s)] and [int(s, 16)] *)

Definition digit_value (c : ascii) : option Z :=
  let n := Z.of_N (N_of_ascii c) in
  if (48 <=? n) && (n <=? 57) then Some (n - 48)
  else if (97 <=? n) && (n <=? 122) then Some (n - 87)
  else if (65 <=? n) && (n <=? 90) then Some (n - 55)
  else None.

(** Digits of the literal, most significant first; a single underscore may
    separate two digits.  [prev] tells whether the previous character was a
    digit, [acc] is the value read so far ([None] before the first digit). *)
Fixpoint int_digits (base : Z) (prev : bool) (acc : option Z) (s : string)
    : option Z :=
  match s with
  | EmptyString => if prev then acc else None
  | String c rest =>
      if ascii_eqb c "_" then
        if prev then int_digits base false acc rest else None
      else
        match digit_value c with
        | Some v =>
            if v <? base
            then int_digits base true (Some (default 0 acc * base + v)) rest
            else None
        | None => None
        end
  end.

Definition strip_sign (s : string) : bool * string :=
  match s with
  | String "-" rest => (true, rest)
  | String "+" rest => (false, rest)
  | _ => (false, s)
  end.

(** After the sign, [int(s, 16)] accepts the prefix [0x] or [0X], which may be
    followed by one underscore. *)
Definition strip_hex_prefix (s : string) : string :=
  match s with
  | String "0" (String x rest) =>
      if ascii_eqb x "x" || ascii_eqb x "X" then
        match rest with
        | String "_" rest' => rest'
        | _ => rest
        end
      else s
  | _ => s
  end.

(** [int(s, base)] for [base] 10 or 16: [None] stands for [ValueError]. *)
Definition int (base : Z) (s : string) : option Z :=
  let '(neg, body) := strip_sign (strip s) in
  let body := if base =? 16 then strip_hex_prefix body else body in
  v ← int_digits base false None body;
  Some (if neg then - v else v).

(** Truthiness of a string: non-empty. *)
Definition truthy (s : string) : bool :=
  match s with EmptyString => false | _ => true end.

End Py.

(* ===================================================================== *)
(** * Data model *)
(* ===================================================================== *)

(** [class Test] *)
Record Test := mkTest {
  source_file : string;
  line_number : Z;
  variable : string;
  expected_value : string
}.

(** A Python object that is either [None] or a [str]. *)
Abbreviation pystr := (option string).

(** The [actual] field of a [TestResult] holds the rendered value of a
    single-variable check, or the set of in-scope names of an
    "all variables" check; the name of a variable is [None] when LLDB has
    none for it. *)
Inductive actual_value :=
| ActualStr (s : string)
| ActualNames (names : gset pystr).

(** [class TestResult]; a field left at its default is [None]. *)
Record TestResult := mkTestResult {
  test : Test;
  status : string;
  actual : option actual_value;
  message : option string;
  missing : option (gset pystr);
  extra : option (gset pystr)
}.

(** [class TestCase]; its [source_file] carries a prefix because [Test] has a
    field of that name. *)
Record TestCase := mkTestCase {
  tc_source_file : string;
  start_line : Z;
  end_line : Z;
  tests : list Test
}.

(** [class CaseResult]; the fields carry a prefix because [test_case] and
    [results] also name local variables of the driver. *)
Record CaseResult := mkCaseResult {
  cr_test_case : TestCase;
  cr_function : option string;
  cr_results : list TestResult
}.

(** [class TestResults] *)
Record TestResults := mkTestResults {
  total : Z;
  passed : Z;
  failed : Z;
  case_results : list CaseResult
}.

(* ===================================================================== *)
(** * Exceptions *)
(* ===================================================================== *)

(** The exceptions the driver can meet. *)
Inductive exn :=
| Exception (msg : string)
| TypeError
| ValueError
| AttributeError
| RecursionError
| FileNotFoundError (path : string)
| IsADirectoryError (path : string)
| PermissionError (path : string)
| UnicodeDecodeError
| KeyboardInterrupt.

(** [isinstance(e, Exception)]: what [except Exception] catches.
    [KeyboardInterrupt] derives from [BaseException] only. *)
Definition is_exception (e : exn) : bool :=
  match e with
  | KeyboardInterrupt => false
  | _ => true
  end.

Inductive result (A : Type) :=
| Ok (a : A)
| Raise (e : exn).
Arguments Ok {A} a.
Arguments Raise {A} e.

Definition rbind {A B} (r : result A) (k : A -> result B) : result B :=
  match r with
  | Ok a => k a
  | Raise e => Raise e
  end.

Declare Scope result_scope.
Delimit Scope result_scope with result.
Notation "x <- r ;; k" := (rbind r (fun x => k))
  (at level 20, r at level 99, k at level 200,
   format "'[v' x  <-  r  ;;  '/' k ']'") : result_scope.

(** [for x in l: s = body(x, s)], stopping at the first exception. *)
Fixpoint py_for {A S} (l : list A) (body : A -> S -> result S) (s : S)
    : result S :=
  match l with
  | [] => Ok s
  | x :: rest =>
      match body x s with
      | Ok s' => py_for rest body s'
      | Raise e => Raise e
      end
  end.

(** [f"{x}"] and [str(x)] for an object that is [None] or a [str]. *)
Definition fstr (x : pystr) : string := default "None"%string x.

(** [int(x)] and [int(x, 16)] on such an object: [int(None)] raises
    [TypeError], a malformed literal raises [ValueError]. *)
Definition py_int (base : Z) (x : pystr) : result Z :=
  match x with
  | None => Raise TypeError
  | Some s =>
      match Py.int base s with
      | Some v => Ok v
      | None => Raise ValueError
      end
  end.

(** [sep.join(elements)] where the elements may be [None]: [str.join] raises
    [TypeError] on an element that is not a [str]. *)
Fixpoint all_str (l : list pystr) : option (list string) :=
  match l with
  | [] => Some []
  | Some s :: rest => cons s <$> all_str rest
  | None :: _ => None
  end.
Definition py_join (sep : string) (elements : list pystr) : result string :=
  match all_str elements with
  | Some l => Ok (Py.join sep l)
  | None => Raise TypeError
  end.

(** [range(n)] *)
Definition range (n : Z) : list nat := seq 0 (Z.to_nat n).

(* ===================================================================== *)
(** * The LLDB scripting interface *)
(* ===================================================================== *)

(** [lldb.StateType] *)
Inductive StateType :=
| eStateInvalid | eStateUnloaded | eStateConnected | eStateAttaching
| eStateLaunching | eStateStopped | eStateRunning | eStateStepping
| eStateCrashed | eStateDetached | eStateExited | eStateSuspended.

(** [lldb.TypeClass] *)
Inductive TypeClass :=
| eTypeClassInvalid | eTypeClassArray | eTypeClassBlockPointer
| eTypeClassBuiltin | eTypeClassClass | eTypeClassComplexFloat
| eTypeClassComplexInteger | eTypeClassEnumeration | eTypeClassFunction
| eTypeClassMemberPointer | eTypeClassObjCObject | eTypeClassObjCInterface
| eTypeClassObjCObjectPointer | eTypeClassPointer | eTypeClassReference
| eTypeClassStruct | eTypeClassTypedef | eTypeClassUnion | eTypeClassVector
| eTypeClassOther.

Global Instance StateType_eq_dec : EqDecision StateType.
Proof. solve_decision. Defined.
Global Instance TypeClass_eq_dec : EqDecision TypeClass.
Proof. solve_decision. Defined.

(** What the driver uses of the LLDB Python API.  [World] is the whole state
    behind the API (debugger, target, debuggee and its memory); an operation
    that changes it returns the new world.  The target and the selected frame
    (frame 0 of the selected thread of a process) are addressed through the
    world, so [self.target] and [frame] do not appear as handles. *)
Class Backend := {
  World : Type;
  SBProcess : Type;
  SBBreakpoint : Type;
  SBValue : Type;
  SBType : Type;
  (** [SBDebugger] *)
  SetAsync : bool -> World -> World;
  HandleCommand : string -> World -> World;
  (** [debugger.CreateTarget(path)]: the new world and the truth value of
      the returned target *)
  CreateTarget : string -> World -> bool * World;
  Destroy : World -> World;
  (** [interpreter.HandleCommand(command, result)] *)
  InterpreterHandleCommand : string -> World -> World;
  (** [SBTarget] *)
  BreakpointCreateByLocation : string -> Z -> World -> SBBreakpoint * World;
  BreakpointDelete : Z -> World -> World;
  LaunchSimple : World -> SBProcess * World;
  CreateValueFromAddress : World -> string -> Z -> SBType -> SBValue;
  (** [SBBreakpoint] *)
  BreakpointIsValid : SBBreakpoint -> bool;
  BreakpointGetID : SBBreakpoint -> Z;
  (** [SBProcess] *)
  ProcessIsValid : World -> SBProcess -> bool;
  GetState : World -> SBProcess -> StateType;
  Continue : SBProcess -> World -> World;
  Stop : SBProcess -> World -> World;
  Kill : SBProcess -> World -> World;
  ReadCStringFromMemory : World -> SBProcess -> Z -> Z -> string;
  (** the selected frame: [frame.FindVariable(name)], [var.GetName()] for
      the variables of [frame.GetVariables(True, True, True, False)] in
      order, and [frame.GetFunctionName()] *)
  FindVariable : World -> SBProcess -> string -> SBValue;
  GetVariableNames : World -> SBProcess -> list pystr;
  GetFunctionName : World -> SBProcess -> option string;
  (** [SBValue] *)
  IsValid : SBValue -> bool;
  GetName : SBValue -> pystr;
  GetTypeName : SBValue -> string;
  GetType : SBValue -> SBType;
  GetValue : SBValue -> pystr;
  GetSummary : SBValue -> pystr;
  GetChildMemberWithName : SBValue -> string -> SBValue;
  GetNumChildren : SBValue -> nat;
  GetChildAtIndex : SBValue -> nat -> SBValue;
  (** [SBType] *)
  GetTypeClass : SBType -> TypeClass;
  IsArrayType : SBType -> bool;
  TypeGetName : SBType -> string;
  GetPointeeType : SBType -> SBType;
  GetArrayElementType : SBType -> SBType;
  GetByteSize : SBType -> Z
}.

(** [self.type_mapping] *)
Definition type_mapping : gmap string string :=
  <["unsigned long" := "uint"]> (<["long" := "int"]> ∅).

(** [self.type_mapping.get(type_name, type_name)] *)
Definition map_type (type_name : string) : string :=
  default type_name (type_mapping !! type_name).

(** The double quote character. *)
Definition dquote : string := String (ascii_of_nat 34) EmptyString.

(* ===================================================================== *)
(** * Value formatter *)
(* ===================================================================== *)

Section Formatter.
Context `{Backend}.
Local Open Scope result_scope.

(** The world at the current stop and [self.process]. *)
Variable w : World.
Variable process : SBProcess.

(** [type_class in [lldb.eTypeClassStruct, lldb.eTypeClassClass]] *)
Definition is_struct_or_class (type_class : TypeClass) : bool :=
  bool_decide (type_class = eTypeClassStruct)
  || bool_decide (type_class = eTypeClassClass).

Section Formatters.
(** The recursive calls [self.format_value(...)] of the formatters. *)
Variable format_value : SBValue -> result pystr.

Definition format_slice (var : SBValue) : result pystr :=
  length <- py_int 10 (GetValue (GetChildMemberWithName var "len")) ;;
  let data_ptr := GetChildMemberWithName var "data" in
  ptr_value <- py_int 16 (GetValue data_ptr) ;;
  let element_type := GetPointeeType (GetType data_ptr) in
  let element_size := GetByteSize element_type in
  elements <-
    py_for (range length)
      (fun i elements =>
         let element_address := ptr_value + Z.of_nat i * element_size in
         let element :=
           CreateValueFromAddress w ("element_" +:+ pretty i)
             element_address element_type in
         value <- format_value element ;;
         Ok (elements ++ [value]))
      [] ;;
  let type_name := Py.last (Py.split "[]" (TypeGetName (GetType var))) in
  let type_name := map_type type_name in
  joined <- py_join ", " elements ;;
  Ok (Some ("[]" +:+ type_name +:+ "[" +:+ joined +:+ "]")).

Definition format_array (var : SBValue) : result pystr :=
  elements <-
    py_for (seq 0 (GetNumChildren var))
      (fun i elements =>
         value <- format_value (GetChildAtIndex var i) ;;
         Ok (elements ++ [value]))
      [] ;;
  let array_size := GetNumChildren var in
  let type_name := TypeGetName (GetArrayElementType (GetType var)) in
  let type_name := map_type type_name in
  joined <- py_join ", " elements ;;
  Ok (Some ("[" +:+ pretty array_size +:+ "]" +:+ type_name
            +:+ "[" +:+ joined +:+ "]")).

Definition format_struct (var : SBValue) (include_type : bool)
    : result pystr :=
  children <-
    py_for (seq 0 (GetNumChildren var))
      (fun i children =>
         let child := GetChildAtIndex var i in
         let child_name := GetName child in
         child_value <- format_value child ;;
         Ok (children ++ [fstr child_name +:+ " = " +:+ fstr child_value]))
      [] ;;
  let struct_content := "(" +:+ Py.join ", " children +:+ ")" in
  if include_type then
    let struct_name := GetTypeName var in
    Ok (Some (struct_name +:+ struct_content))
  else Ok (Some struct_content).

Definition format_custom_array (var : SBValue) : result pystr :=
  elements <-
    py_for (seq 0 (GetNumChildren var))
      (fun i elements =>
         let element := GetChildAtIndex var i in
         formatted <- format_struct element false ;;
         Ok (elements ++ [formatted]))
      [] ;;
  let array_size := GetNumChildren var in
  let type_name := TypeGetName (GetArrayElementType (GetType var)) in
  joined <- py_join ", " elements ;;
  Ok (Some ("[" +:+ pretty array_size +:+ "]" +:+ type_name
            +:+ "[" +:+ joined +:+ "]")).

Definition format_string (var : SBValue) : result pystr :=
  let summary := GetSummary var in
  match summary with
  | Some summary => Ok (Some (Py.strip_chars dquote summary))
  | None =>
      let data := GetValue (GetChildMemberWithName var "data") in
      length <- py_int 10 (GetValue (GetChildMemberWithName var "len")) ;;
      if match data with Some d => Py.truthy d | None => false end
         && negb (length =? 0)
      then
        address <- py_int 16 data ;;
        Ok (Some (ReadCStringFromMemory w process address (length + 1)))
      else Ok (Some "None"%string)
  end.

Definition format_complex (var : SBValue) : result pystr :=
  let real := GetValue (GetChildMemberWithName var "real") in
  let imag := GetValue (GetChildMemberWithName var "imag") in
  Ok (Some (GetTypeName var +:+ "(real = " +:+ fstr real
            +:+ ", imag = " +:+ fstr imag +:+ ")")).

(** The body of [format_value]. *)
Definition format_value_body (var : SBValue) : result pystr :=
  if IsValid var then
    let type_name := GetTypeName var in
    let var_type := GetType var in
    let type_class := GetTypeClass var_type in
    if Py.startswith "[]" type_name then format_slice var
    else if IsArrayType var_type then
      if is_struct_or_class type_class then format_custom_array var
      else format_array var
    else if bool_decide (type_name = "string"%string) then format_string var
    else if bool_decide (type_name = "complex64"%string)
            || bool_decide (type_name = "complex128"%string)
    then format_complex var
    else if is_struct_or_class type_class then format_struct var true
    else
      let value := GetValue var in
      let summary := GetSummary var in
      match value, summary with
      | Some value, _ => Ok (Some value)
      | None, Some summary => Ok (Some summary)
      | None, None => Ok (Some "None"%string)
      end
  else Ok (Some "None"%string).
End Formatters.

(** [format_value]: [depth] is the number of further nested calls of
    [format_value] the interpreter's recursion limit leaves room for; a
    call beyond it raises [RecursionError]. *)
Fixpoint format_value (depth : nat) (var : SBValue) : result pystr :=
  format_value_body
    (match depth with
     | O => fun _ => Raise RecursionError
     | S depth' => format_value depth'
     end)
    var.

(** The name looked up by [get_variable_value(var_name)] for a [str]
    argument. *)
Definition actual_var_name (var_name : string) : string :=
  let actual_var_name := Py.strip (Py.first (Py.split "=" var_name)) in
  if Py.contains "(" actual_var_name
  then Py.strip (Py.last (Py.split "(" actual_var_name))
  else actual_var_name.

Definition get_variable_value (depth : nat) (var_name : string)
    : result pystr :=
  let var := FindVariable w process (actual_var_name var_name) in
  format_value depth var.
End Formatter.

(* ===================================================================== *)
(** * Annotation parser *)
(* ===================================================================== *)

Definition inspect {A} (a : A) : {b : A | a = b} := exist _ a eq_refl.

Section Parser.
(** The file being scanned and the result of [f.readlines()]. *)
Variable source_file : string.
Variable content : list string.

(** The body of the inner loop once [line] is known to be a comment line:
    a line with a colon adds a check, any other line adds nothing. *)
Definition parse_check (i : nat) (line : string) (tests : list Test)
    : list Test :=
  let parts := Py.split_max ":" 1 (Py.strip (Py.lstrip_chars "//" line)) in
  match parts with
  | [var; value] =>
      tests ++ [mkTest source_file (Z.of_nat i + 1)
                  (Py.strip var) (Py.strip value)]
  | _ => tests
  end.

(** The inner [while] loop of [parse_expected_values]: it consumes comment
    lines from index [i] on and returns the index it stops at and the
    checks collected so far. *)
Equations? parse_block (i : nat) (tests : list Test) : nat * list Test
  by wf (length content - i)%nat lt :=
parse_block i tests with inspect (content !! i) := {
  | exist _ None _ => (i, tests)
  | exist _ (Some raw) Hraw =>
      let line := Py.strip raw in
      if negb (Py.startswith "//" line) then (i, tests)
      else parse_block (S i) (parse_check i line tests) }.
Proof. apply lookup_lt_Some in Hraw. lia. Qed.

(** The outer [while] loop, from index [i] on, appending to
    [test_cases]. *)
Equations? parse_file (i : nat) (test_cases : list TestCase)
  : list TestCase by wf (length content - i)%nat lt :=
parse_file i test_cases with inspect (content !! i) := {
  | exist _ None _ => test_cases
  | exist _ (Some raw) Hraw =>
      let line := Py.strip raw in
      if Py.startswith "// Expected:" line then
        let start_line := Z.of_nat i + 1 in
        let tests := snd (parse_block (S i) []) in
        let end_line := Z.of_nat (fst (parse_block (S i) [])) in
        parse_file (fst (parse_block (S i) []))
          (test_cases ++
             [mkTestCase source_file start_line end_line tests])
      else parse_file (S i) test_cases }.
Proof.
  - assert (Hge : forall j t, (j <= fst (parse_block j t))%nat).
    { clear. intros j t.
      funelim (parse_block j t); simpl; [|lia].
      destruct (negb _); simpl; lia. }
    apply lookup_lt_Some in Hraw.
    specialize (Hge (S i) []). lia.
  - apply lookup_lt_Some in Hraw. lia.
Qed.
End Parser.

(** The files of a run: for each path, what [open(path, 'r')] followed by
    [f.readlines()] gives.  It is the list of the lines, each with its line
    terminator, or the exception that is raised: [FileNotFoundError],
    [IsADirectoryError] or [PermissionError] by [open], [UnicodeDecodeError]
    by [readlines]. *)
Definition FileSystem : Type := string -> result (list string).

(** [parse_expected_values(source_files)] *)
Definition parse_expected_values (fs : FileSystem)
    (source_files : list string) : result (list TestCase) :=
  py_for source_files
    (fun source_file test_cases =>
       match fs source_file with
       | Raise e => Raise e
       | Ok content => Ok (parse_file source_file content 0 test_cases)
       end)
    [].

(* ===================================================================== *)
(** * Checks *)
(* ===================================================================== *)

(** [sum(1 for r in results if p(r))] *)
Definition count_if {A} (p : A -> bool) (l : list A) : Z :=
  foldr (fun r n => if p r then 1 + n else n) 0 l.

Definition is_pass (r : TestResult) : bool :=
  bool_decide (status r = "pass"%string).

(** [execute_all_variables_test(test, all_variable_names)]; the expected
    names are [str]s, a name in scope may be [None]. *)
Definition execute_all_variables_test (test : Test)
    (all_variable_names : gset pystr) : TestResult :=
  let expected_vars : gset pystr :=
    list_to_set (Some <$> Py.split_ws (expected_value test)) in
  if decide (expected_vars = all_variable_names) then
    mkTestResult test "pass" (Some (ActualNames all_variable_names))
      None None None
  else
    mkTestResult test "fail" (Some (ActualNames all_variable_names))
      None
      (Some (expected_vars ∖ all_variable_names))
      (Some (all_variable_names ∖ expected_vars)).

Section Checks.
Context `{Backend}.
Local Open Scope result_scope.

(** The world at the current stop, [debugger.process], and the room left
    for nested [format_value] calls. *)
Variable w : World.
Variable process : SBProcess.
Variable depth : nat.

(** [execute_single_variable_test(debugger, test)] *)
Definition execute_single_variable_test (test : Test) : result TestResult :=
  actual_value <- get_variable_value w process depth (variable test) ;;
  match actual_value with
  | None =>
      Ok (mkTestResult test "error" None (Some "Unable to fetch value"%string)
            None None)
  | Some actual_value =>
      let actual_value := Py.strip actual_value in
      let expected_value := Py.strip (expected_value test) in
      if bool_decide (actual_value = expected_value) then
        Ok (mkTestResult test "pass" (Some (ActualStr actual_value))
              None None None)
      else
        Ok (mkTestResult test "fail" (Some (ActualStr actual_value))
              None None None)
  end.

(** One iteration of the loop of [execute_test_case]. *)
Definition execute_check (all_variable_names : gset pystr) (test : Test)
    : result TestResult :=
  if bool_decide (variable test = "all variables"%string) then
    Ok (execute_all_variables_test test all_variable_names)
  else execute_single_variable_test test.

(** [execute_test_case(debugger, test_case, all_variable_names)] *)
Definition execute_test_case (test_case : TestCase)
    (all_variable_names : gset pystr) : result CaseResult :=
  results <-
    py_for (tests test_case)
      (fun test results =>
         result <- execute_check all_variable_names test ;;
         Ok (results ++ [result]))
      [] ;;
  Ok (mkCaseResult test_case (GetFunctionName w process) results).
End Checks.

(* ===================================================================== *)
(** * Result reporter *)
(* ===================================================================== *)

(** What [log] has written, one entry per call, and whether the code went
    on or raised. *)
Definition W (A : Type) : Type := list string -> result A * list string.

Definition wret {A} (a : A) : W A := fun out => (Ok a, out).
Definition wbind {A B} (m : W A) (k : A -> W B) : W B :=
  fun out =>
    match m out with
    | (Ok a, out') => k a out'
    | (Raise e, out') => (Raise e, out')
    end.

(** [log(text)] *)
Definition log (text : string) : W unit := fun out => (Ok tt, out ++ [text]).

(** A value that may raise, inside [W]. *)
Definition wlift {A} (r : result A) : W A := fun out => (r, out).

(** [if c: m] *)
Definition wwhen (c : bool) (m : W unit) : W unit := if c then m else wret tt.

(** [for x in l: body(x)] *)
Fixpoint wfor {A} (l : list A) (body : A -> W unit) : W unit :=
  match l with
  | [] => wret tt
  | x :: rest => wbind (body x) (fun _ => wfor rest body)
  end.

(** The lines [m] writes when nothing was written before, and how it
    ends. *)
Definition lines_of {A} (m : W A) : list string := snd (m []).
Definition outcome_of {A} (m : W A) : result A := fst (m []).

Declare Scope report_scope.
Delimit Scope report_scope with W.
Notation "x <- m ;; k" := (wbind m (fun x => k))
  (at level 20, m at level 99, k at level 200,
   format "'[v' x  <-  m  ;;  '/' k ']'") : report_scope.

(** The line feed that opens some of the logged texts. *)
Definition newline : string := String (ascii_of_nat 10) EmptyString.

(** [sorted(l)] on a list of [str]: the order of [str] is the
    lexicographic order of the characters, which on byte strings is that of
    the bytes. *)
Definition sorted (l : list string) : list string := merge_sort String.le l.

(** [sorted(l)] on a list whose elements are [str] or [None].  Comparing
    [None] with a [str] or with [None] raises [TypeError], and a list of two
    or more elements is not sorted without a comparison of each of them. *)
Definition py_sorted (l : list pystr) : result (list pystr) :=
  match all_str l with
  | Some texts => Ok (Some <$> sorted texts)
  | None => if bool_decide (length l <= 1)%nat then Ok l else Raise TypeError
  end.

(** The characters of a [str], as one-character strings; as everywhere in
    [Py], a character is a byte. *)
Fixpoint characters (s : string) : list string :=
  match s with
  | EmptyString => []
  | String c rest => String c EmptyString :: characters rest
  end.

(** [sorted(result.actual)]: [None] is not iterable, a [str] gives its
    characters, a set its elements. *)
Definition sorted_actual (actual : option actual_value)
    : result (list pystr) :=
  match actual with
  | None => Raise TypeError
  | Some (ActualStr s) => py_sorted (Some <$> characters s)
  | Some (ActualNames names) => py_sorted (elements names)
  end.

(** The truth value of [result.missing] and [result.extra]. *)
Definition set_truthy (x : option (gset pystr)) : bool :=
  match x with
  | Some names => negb (bool_decide (names = ∅))
  | None => false
  end.

(** [sorted(x)] for [result.missing] and [result.extra]. *)
Definition sorted_names (x : option (gset pystr)) : result (list pystr) :=
  match x with
  | Some names => py_sorted (elements names)
  | None => Raise TypeError
  end.

Section Reporter.
Local Open Scope report_scope.

(** [str] of a set: Python fixes no order for it. *)
Variable repr_set : gset pystr -> string.

(** [f"{result.actual}"] *)
Definition actual_text (actual : option actual_value) : string :=
  match actual with
  | None => "None"
  | Some (ActualStr s) => s
  | Some (ActualNames names) => repr_set names
  end.

(** [log(f"{label}{', '.join(names)}")] for names that come out of
    [sorted]. *)
Definition log_names (label : string) (names : result (list pystr))
    : W unit :=
  names <- wlift names ;;
  text <- wlift (py_join ", " names) ;;
  log (label +:+ text).

(** [print_test_result(result, verbose)] *)
Definition print_test_result (result : TestResult) (verbose : bool)
    : W unit :=
  let status_symbol := if is_pass result then "✓" else "✗" in
  let status_text := if is_pass result then "Pass" else "Fail" in
  let headline :=
    status_symbol +:+ " Line " +:+ pretty (line_number (test result))
    +:+ ", " +:+ variable (test result) +:+ ": " +:+ status_text in
  if is_pass result then
    wwhen verbose
      (_ <- log headline ;;
       if bool_decide (variable (test result) = "all variables"%string) then
         log_names "    Variables: " (sorted_actual (actual result))
       else wret tt)
  else
    _ <- log headline ;;
    if bool_decide (variable (test result) = "all variables"%string) then
      _ <- wwhen (set_truthy (missing result))
             (log_names "    Missing variables: "
                (sorted_names (missing result))) ;;
      _ <- wwhen (set_truthy (extra result))
             (log_names "    Extra variables: "
                (sorted_names (extra result))) ;;
      _ <- log ("    Expected: "
                +:+ Py.join ", "
                      (sorted (Py.split_ws (expected_value (test result))))) ;;
      log_names "    Actual: " (sorted_actual (actual result))
    else if bool_decide (status result = "error"%string) then
      log ("    Error: " +:+ fstr (message result))
    else
      _ <- log ("    Expected: " +:+ expected_value (test result)) ;;
      log ("    Actual: " +:+ actual_text (actual result)).

(** The header line of a case. *)
Definition case_header (case_result : CaseResult) : string :=
  newline +:+ "Test case: "
  +:+ tc_source_file (cr_test_case case_result) +:+ ":"
  +:+ pretty (start_line (cr_test_case case_result)) +:+ "-"
  +:+ pretty (end_line (cr_test_case case_result))
  +:+ " in function '" +:+ fstr (cr_function case_result) +:+ "'".

(** What [execute_tests] prints after a case: the header and, verbosely,
    each result. *)
Definition print_case_result (case_result : CaseResult) : W unit :=
  _ <- log (case_header case_result) ;;
  wfor (cr_results case_result)
    (fun result => print_test_result result true).

(** [print_test_results(results, verbose)] *)
Definition print_test_results (results : TestResults) (verbose : bool)
    : W unit :=
  _ <- wfor (case_results results)
         (fun case_result =>
            _ <- log (case_header case_result) ;;
            wfor (cr_results case_result)
              (fun result => print_test_result result verbose)) ;;
  _ <- log (newline +:+ "Test results:") ;;
  _ <- log ("  Total tests: " +:+ pretty (total results)) ;;
  _ <- log ("  Passed tests: " +:+ pretty (passed results)) ;;
  _ <- log ("  Failed tests: " +:+ pretty (failed results)) ;;
  if bool_decide (total results = passed results) then
    log "All tests passed!"
  else log "Some tests failed".
End Reporter.

(* ===================================================================== *)
(** * Debug session *)
(* ===================================================================== *)

(** What one iteration of the loop of the interactive console meets.
    [input()] gets a line (given without its terminator), the end of the
    input, or an interrupt signal delivered while it waits.  The signal can
    also arrive elsewhere in the iteration, where the handler that
    [run_console] installs raises [KeyboardInterrupt] outside the [try] that
    surrounds [input()]: while the prompt is written, or after [input()] has
    returned.  In the latter case the line had been read or the end of the
    input met, and [sent] tells whether the command had already been passed
    to the interpreter when the signal arrived.  Signals that arrive while
    the driver is not in the console, where Python's own handler is in
    place, are not part of the sessions considered. *)
Inductive console_input :=
| Line (s : string)
| Eof
| Interrupt
| InterruptAtPrompt
| LineThenInterrupt (s : string) (sent : bool)
| EofThenInterrupt.

(** The calls made on the LLDB API that change the session, in order. *)
Inductive event :=
| EvSetAsync (b : bool)
| EvHandleCommand (command : string)
| EvCreateTarget (path : string)
| EvBreakpointCreate (file : string) (line : Z) (id : Z)
| EvBreakpointDelete (id : Z)
| EvLaunch
| EvContinue
| EvStop
| EvKill
| EvDestroy
| EvInterpreterCommand (command : string).

Global Instance event_eq_dec : EqDecision event.
Proof. solve_decision. Defined.

(** How the loop of [execute_tests] leaves an iteration. *)
Inductive loop_exit := LoopNext | LoopBreak.

(** How [run_tests] ends: it returns (the interpreter then exits with status
    0), it calls [os._exit(code)], or an exception leaves it uncaught. *)
Inductive termination :=
| Returned
| OsExit (code : Z)
| Uncaught (e : exn).

(** The exit status of the interpreter.  On an uncaught [Exception] it
    prints the traceback and exits with status 1; on an uncaught
    [KeyboardInterrupt] it ends itself with the signal SIGINT, and the
    process has no exit status. *)
Definition exit_status (t : termination) : option Z :=
  match t with
  | Returned => Some 0
  | OsExit code => Some code
  | Uncaught e => if is_exception e then Some 1 else None
  end.

Section Driver.
Context `{Backend}.

(** The mutable state of a run: the world behind the API, the field
    [debugger.process], what the terminal will feed to [input()], and the
    log of API calls. *)
Record Session := mkSession {
  world : World;
  process : option SBProcess;
  stdin : list console_input;
  calls : list event
}.

(** Computations that read and change the session and may raise. *)
Definition M (A : Type) : Type := Session -> result A * Session.

Definition ret {A} (a : A) : M A := fun s => (Ok a, s).
Definition raise {A} (e : exn) : M A := fun s => (Raise e, s).
Definition bind {A B} (m : M A) (k : A -> M B) : M B :=
  fun s =>
    match m s with
    | (Ok a, s') => k a s'
    | (Raise e, s') => (Raise e, s')
    end.

Declare Scope session_scope.
Delimit Scope session_scope with M.
Notation "x <- m ;; k" := (bind m (fun x => k))
  (at level 20, m at level 99, k at level 200,
   format "'[v' x  <-  m  ;;  '/' k ']'") : session_scope.
Local Open Scope session_scope.

(** A call that changes the world, logged as [e]. *)
Definition call (e : event) (f : World -> World) : M unit :=
  fun s =>
    (Ok tt, mkSession (f (world s)) (process s) (stdin s) (calls s ++ [e])).

(** A read-only computation on the selected frame of [debugger.process];
    [None.GetSelectedThread()] raises [AttributeError]. *)
Definition on_frame {A} (f : World -> SBProcess -> result A) : M A :=
  fun s =>
    match process s with
    | Some p => (f (world s) p, s)
    | None => (Raise AttributeError, s)
    end.

(** A value that may raise, inside [M]. *)
Definition lift {A} (r : result A) : M A := fun s => (r, s).

(** The arguments of [run_tests] that the debugger object keeps, the room
    the recursion limit leaves to [format_value], and how Python prints a
    set. *)
Variable executable_path : string.
Variable plugin_path : pystr.
Variable depth : nat.
Variable repr_set : gset pystr -> string.

(** [LLDBDebugger.setup] *)
Definition setup : M unit :=
  _ <- (match plugin_path with
        | Some path =>
            if Py.truthy path then
              let command :=
                "command script import " +:+ dquote +:+ path +:+ dquote in
              call (EvHandleCommand command) (HandleCommand command)
            else ret tt
        | None => ret tt
        end) ;;
  target <- (fun s =>
               let '(target, w') := CreateTarget executable_path (world s) in
               (Ok target,
                mkSession w' (process s) (stdin s)
                  (calls s ++ [EvCreateTarget executable_path]))) ;;
  if negb target then
    raise (Exception ("Failed to create target for " +:+ executable_path))
  else ret tt.

(** [LLDBDebugger.set_breakpoint] *)
Definition set_breakpoint (file_spec : string) (line_number : Z)
    : M SBBreakpoint :=
  breakpoint <-
    (fun s =>
       let '(breakpoint, w') :=
         BreakpointCreateByLocation file_spec line_number (world s) in
       (Ok breakpoint,
        mkSession w' (process s) (stdin s)
          (calls s ++ [EvBreakpointCreate file_spec line_number
                         (BreakpointGetID breakpoint)]))) ;;
  if negb (BreakpointIsValid breakpoint) then
    raise (Exception ("Failed to set breakpoint at " +:+ file_spec +:+ ":"
                      +:+ pretty line_number))
  else ret breakpoint.

(** [self.process = self.target.LaunchSimple(None, None, os.getcwd())] *)
Definition launch : M unit :=
  fun s =>
    let '(p, w') := LaunchSimple (world s) in
    (Ok tt, mkSession w' (Some p) (stdin s) (calls s ++ [EvLaunch])).

(** The truth value of [self.process]: an [SBProcess] is true when it is
    valid, [None] is false. *)
Definition process_truthy (s : Session) : bool :=
  match process s with
  | Some p => ProcessIsValid (world s) p
  | None => false
  end.

(** [LLDBDebugger.run_to_breakpoint] *)
Definition run_to_breakpoint : M unit :=
  _ <- (fun s =>
          match process s with
          | Some p =>
              if process_truthy s then call EvContinue (Continue p) s
              else launch s
          | None => launch s
          end) ;;
  state <- on_frame (fun w p => Ok (GetState w p)) ;;
  if bool_decide (state <> eStateStopped) then
    raise (Exception "Process didn't stop at breakpoint")
  else ret tt.

(** [LLDBDebugger.get_all_variable_names] *)
Definition get_all_variable_names : M (gset pystr) :=
  on_frame (fun w p => Ok (list_to_set (GetVariableNames w p))).

(** [LLDBDebugger.get_current_function_name] *)
Definition get_current_function_name : M (option string) :=
  on_frame (fun w p => Ok (GetFunctionName w p)).

(** [LLDBDebugger.cleanup] *)
Definition cleanup : M unit :=
  _ <- (fun s =>
          match process s with
          | Some p =>
              if ProcessIsValid (world s) p then call EvKill (Kill p) s
              else ret tt s
          | None => ret tt s
          end) ;;
  call EvDestroy Destroy.

(** The [while continue_tests] loop of [run_console], on what the terminal
    feeds to it; reading past the end of the input is an [EOFError].  The
    result is the final [continue_tests] or the [KeyboardInterrupt] that
    leaves the loop, with the input left, the world and the log. *)
Fixpoint console_loop (inputs : list console_input) (w : World)
    (log : list event)
    : result bool * list console_input * World * list event :=
  match inputs with
  | [] => (Ok true, [], w, log)
  | Eof :: rest => (Ok true, rest, w, log)
  | Interrupt :: rest => (Ok false, rest, w, log)
  | InterruptAtPrompt :: rest => (Raise KeyboardInterrupt, rest, w, log)
  | EofThenInterrupt :: rest => (Raise KeyboardInterrupt, rest, w, log)
  | LineThenInterrupt text sent :: rest =>
      let command := Py.strip text in
      if bool_decide (Py.lower command = "quit"%string) || negb sent
      then (Raise KeyboardInterrupt, rest, w, log)
      else
        (Raise KeyboardInterrupt, rest, InterpreterHandleCommand command w,
         log ++ [EvInterpreterCommand command])
  | Line text :: rest =>
      let command := Py.strip text in
      if bool_decide (Py.lower command = "quit"%string)
      then (Ok true, rest, w, log)
      else
        console_loop rest (InterpreterHandleCommand command w)
          (log ++ [EvInterpreterCommand command])
  end.

(** [LLDBDebugger.run_console]; the redirection of the standard streams and
    the signal handler are restored by its [finally] clause, also when the
    loop is left by [KeyboardInterrupt], and leave no trace in the
    session. *)
Definition run_console : M bool :=
  _ <- call (EvSetAsync true) (SetAsync true) ;;
  _ <- call (EvHandleCommand "settings set auto-confirm true")
         (HandleCommand "settings set auto-confirm true") ;;
  _ <- call (EvHandleCommand "command script import lldb")
         (HandleCommand "command script import lldb") ;;
  fun s =>
    let '(continue_tests, rest, w', log) :=
      console_loop (stdin s) (world s) (calls s) in
    (continue_tests, mkSession w' (process s) rest log).

(** The statements of [execute_tests] that follow a console that was left
    without abort. *)
Definition restore_process : M unit :=
  state <- on_frame (fun w p => Ok (GetState w p)) ;;
  if bool_decide (state = eStateRunning) then
    fun s =>
      match process s with
      | Some p => call EvStop (Stop p) s
      | None => (Raise AttributeError, s)
      end
  else if bool_decide (state = eStateExited) then launch
  else ret tt.

(** [results] after the four updates of one iteration. *)
Definition add_case_result (results : TestResults)
    (case_result : CaseResult) : TestResults :=
  mkTestResults
    (total results + Z.of_nat (length (cr_results case_result)))
    (passed results + count_if is_pass (cr_results case_result))
    (failed results
     + count_if (fun r => negb (is_pass r)) (cr_results case_result))
    (case_results results ++ [case_result]).

(** The body of the loop of [execute_tests] for one test case.  What the
    loop prints after a case is not kept in the session, but printing can
    raise, which ends the loop: the iteration goes on with the outcome of
    [print_case_result].  The other calls of [log] write a constant text. *)
Definition execute_tests_body (interactive : bool) (test_case : TestCase)
    (results : TestResults) : M (loop_exit * TestResults) :=
  breakpoint <-
    set_breakpoint (tc_source_file test_case) (end_line test_case) ;;
  _ <- run_to_breakpoint ;;
  function_name <- get_current_function_name ;;
  all_variable_names <- get_all_variable_names ;;
  case_result <-
    on_frame (fun w p =>
                execute_test_case w p depth test_case all_variable_names) ;;
  let results := add_case_result results case_result in
  _ <- lift (outcome_of (print_case_result repr_set case_result)) ;;
  if interactive
     && existsb (fun r => negb (is_pass r)) (cr_results case_result)
  then
    continue_tests <- run_console ;;
    if negb continue_tests then ret (LoopBreak, results)
    else
      _ <- restore_process ;;
      _ <- call (EvBreakpointDelete (BreakpointGetID breakpoint))
             (BreakpointDelete (BreakpointGetID breakpoint)) ;;
      ret (LoopNext, results)
  else
    _ <- call (EvBreakpointDelete (BreakpointGetID breakpoint))
           (BreakpointDelete (BreakpointGetID breakpoint)) ;;
    ret (LoopNext, results).

(** The [for test_case in test_cases] loop of [execute_tests]. *)
Fixpoint execute_tests_loop (interactive : bool) (test_cases : list TestCase)
    (results : TestResults) : M TestResults :=
  match test_cases with
  | [] => ret results
  | test_case :: rest =>
      r <- execute_tests_body interactive test_case results ;;
      match r with
      | (LoopBreak, results) => ret results
      | (LoopNext, results) => execute_tests_loop interactive rest results
      end
  end.

(** [execute_tests(debugger, test_cases, interactive)] *)
Definition execute_tests (test_cases : list TestCase) (interactive : bool)
    : M TestResults :=
  execute_tests_loop interactive test_cases (mkTestResults 0 0 0 []).

(** The [try] block of [run_tests] up to the test of the totals.  The
    report that [print_test_results] writes is not kept in the session; it
    is written from a summary that [execute_tests] returned, on which it
    does not raise. *)
Definition run_tests_try (test_cases : list TestCase) (interactive : bool)
    : M TestResults :=
  _ <- setup ;;
  results <- execute_tests test_cases interactive ;;
  ret results.

(** [run_tests], from the session the constructor of [LLDBDebugger] leaves;
    its argument [verbose] only selects what is printed.
    [os._exit(1)] ends the process at once: the [finally] clause does not
    run.  An exception of the [try] block that is an [Exception] is caught
    and logged, then the [finally] clause runs and [run_tests] returns; a
    [KeyboardInterrupt] is not caught: the [finally] clause runs and the
    exception leaves [run_tests].  An exception raised by
    [parse_expected_values] is raised before the [try] statement. *)
Definition run_tests (fs : FileSystem)
    (source_files : list string) (interactive : bool) (s : Session)
    : termination * Session :=
  match parse_expected_values fs source_files with
  | Raise e => (Uncaught e, s)
  | Ok test_cases =>
      match run_tests_try test_cases interactive s with
      | (Ok results, s') =>
          if bool_decide (total results <> passed results)
          then (OsExit 1, s')
          else (Returned, snd (cleanup s'))
      | (Raise e, s') =>
          if is_exception e then (Returned, snd (cleanup s'))
          else (Uncaught e, snd (cleanup s'))
      end
  end.
End Driver.


(* ===================================================================== *)
(** * Notions used in the statements *)
(* ===================================================================== *)

(** No occurrence of [sep] in [rev cur ++ s] starts within [rev cur]. *)
Fixpoint no_start (sep cur s : string) : bool :=
  match cur with
  | EmptyString => true
  | String c cur' =>
      negb (String.prefix sep (String c s)) && no_start sep cur' (String c s)
  end.

(** [mapM] on [result]: the values of [f] on [l], up to the first
    exception. *)
Fixpoint map_result {A B} (f : A -> result B) (l : list A)
    : result (list B) :=
  match l with
  | [] => Ok []
  | x :: rest =>
      match f x with
      | Ok v =>
          match map_result f rest with
          | Ok vs => Ok (v :: vs)
          | Raise e => Raise e
          end
      | Raise e => Raise e
      end
  end.

(** The exceptions the formatter can raise. *)
Definition formatter_exn (e : exn) : Prop :=
  e = TypeError \/ e = ValueError \/ e = RecursionError.

(** [r] returns, or raises an exception that satisfies [P]. *)
Definition raises_only {A} (P : exn -> Prop) (r : result A) : Prop :=
  match r with
  | Ok _ => True
  | Raise e => P e
  end.

Section FormatterNotions.
Context `{Backend}.

(** The value reaches the last branch of the dispatch of
    [format_value]. *)
Definition is_scalar (var : SBValue) : bool :=
  negb (Py.startswith "[]" (GetTypeName var))
  && negb (IsArrayType (GetType var))
  && negb (bool_decide (GetTypeName var = "string"%string))
  && negb (bool_decide (GetTypeName var = "complex64"%string)
           || bool_decide (GetTypeName var = "complex128"%string))
  && negb (is_struct_or_class (GetTypeClass (GetType var))).
End FormatterNotions.

(** The line of index [j] (from 0) is a comment line. *)
Definition is_comment (content : list string) (j : nat) : bool :=
  match content !! j with
  | Some raw => Py.startswith "//" (Py.strip raw)
  | None => false
  end.

(** The line of index [j] (from 0) opens a block. *)
Definition is_marker (content : list string) (j : nat) : bool :=
  match content !! j with
  | Some raw => Py.startswith "// Expected:" (Py.strip raw)
  | None => false
  end.

(** [test_case] spans a marker line and the run of comment lines after
    it. *)
Definition block_of (content : list string) (test_case : TestCase) : Prop :=
  exists i e : nat,
    start_line test_case = Z.of_nat i + 1
    /\ end_line test_case = Z.of_nat e
    /\ (i < e)%nat
    /\ is_marker content i = true
    /\ (forall j, (i < j < e)%nat -> is_comment content j = true)
    /\ is_comment content e = false
    /\ (length (tests test_case) <= e - S i)%nat.

(** [Σ len(case.results)] over the recorded cases. *)
Definition checks_recorded (l : list CaseResult) : Z :=
  foldr (fun case_result n => Z.of_nat (length (cr_results case_result)) + n)
    0 l.

(** The invariant of the summary. *)
Definition summary_consistent (results : TestResults) : Prop :=
  total results = passed results + failed results
  /\ total results = checks_recorded (case_results results).

(** Calls that create or delete a breakpoint. *)
Definition is_breakpoint_event (e : event) : bool :=
  match e with
  | EvBreakpointCreate _ _ _ | EvBreakpointDelete _ => true
  | _ => false
  end.

(** Calls made by [LLDBDebugger.cleanup]. *)
Definition is_cleanup_event (e : event) : bool :=
  match e with
  | EvKill | EvDestroy => true
  | _ => false
  end.

(** The breakpoint calls of a loop that deletes each breakpoint before it
    sets the next one; only the breakpoint set last may be left. *)
Inductive bracketed : list event -> Prop :=
| bracketed_nil : bracketed []
| bracketed_open file line id :
    bracketed [EvBreakpointCreate file line id]
| bracketed_pair file line id rest :
    bracketed rest ->
    bracketed (EvBreakpointCreate file line id :: EvBreakpointDelete id :: rest).

(** The same, with no breakpoint left. *)
Inductive paired : list event -> Prop :=
| paired_nil : paired []
| paired_cons file line id rest :
    paired rest ->
    paired (EvBreakpointCreate file line id :: EvBreakpointDelete id :: rest).

(** The breakpoint calls of a log. *)
Definition breakpoint_calls (log : list event) : list event :=
  List.filter is_breakpoint_event log.

Section LogNotions.
Context `{Backend}.

(** [m] only appends calls that satisfy [P]. *)
Definition emits {A} (P : event -> Prop) (m : M A) : Prop :=
  forall s r s',
    m s = (r, s') ->
    exists new, calls s' = calls s ++ new /\ Forall P new.

(** The calls of the console and of the process control. *)
Definition session_event (e : event) : Prop :=
  is_breakpoint_event e = false /\ is_cleanup_event e = false
  /\ (forall path, e <> EvCreateTarget path).

(** The calls that are not made by [cleanup]. *)
Definition not_cleanup (e : event) : Prop := is_cleanup_event e = false.

(** [m] appends calls that satisfy [P], and then [last r] when it ends
    with [r]. *)
Definition emits_then {A} (P : event -> Prop) (last : result A -> list event)
    (m : M A) : Prop :=
  forall s r s',
    m s = (r, s') ->
    exists mid, Forall P mid /\ calls s' = calls s ++ mid ++ last r.

(** The last call of an iteration of the loop of [execute_tests] that has
    set the breakpoint [id]: its deletion when the loop goes on, nothing
    when the loop is left by [break] or by an exception. *)
Definition deletion_after (id : Z) (r : result (loop_exit * TestResults))
    : list event :=
  match r with
  | Ok (LoopNext, _) => [EvBreakpointDelete id]
  | Ok (LoopBreak, _) | Raise _ => []
  end.

(** [m] raises only exceptions that satisfy [P]. *)
Definition raises {A} (P : exn -> Prop) (m : M A) : Prop :=
  forall s e s', m s = (Raise e, s') -> P e.

(** The exceptions of a run that does not enter the console: the three
    [Exception]s the debugger object raises itself, [AttributeError] on a
    process that is [None], and what rendering or printing a value
    raises. *)
Definition run_exn (e : exn) : Prop :=
  (exists msg, e = Exception msg) \/ e = AttributeError \/ formatter_exn e.

(** The world in which [setup] creates the target: the plugin has been
    imported when a path was given for it. *)
Definition world_at_target (plugin_path : pystr) (w : World) : World :=
  match plugin_path with
  | Some path =>
      if Py.truthy path
      then HandleCommand
             ("command script import " +:+ dquote +:+ path +:+ dquote) w
      else w
  | None => w
  end.
End LogNotions.

(** The breakpoint calls of a loop that was left with its last breakpoint
    set: each breakpoint but the last was deleted before the next one was
    set. *)
Definition last_left (l : list event) : Prop :=
  exists pre file line id,
    l = pre ++ [EvBreakpointCreate file line id] /\ paired pre.

(* ===================================================================== *)
(** * A scripted implementation of the interface *)
(* ===================================================================== *)

(** A debuggee is given by the stops it will make: at each stop a function
    name, the variables of the frame and the memory that can be read.
    Values are trees; a breakpoint can be set on every line that is not
    listed as unresolvable. *)
Module Fake.

#[local] Set Warnings "-register-all".

Inductive ftype :=
| FType (name : string) (class : TypeClass) (is_array : bool) (byte_size : Z)
    (inner : option ftype).

Inductive fvalue :=
| FInvalid
| FValue (name : pystr) (type : ftype) (value summary : pystr)
    (children : list fvalue).

Definition no_type : ftype :=
  FType EmptyString eTypeClassInvalid false 0 None.

Record stop := mkStop {
  stop_function : option string;
  stop_variables : list fvalue;
  stop_memory : list (Z * fvalue);
  stop_cstrings : list (Z * string)
}.

Record fworld := mkWorld {
  target_ok : bool;
  unresolvable_lines : list Z;
  future : list stop;
  current : option stop;
  state : StateType;
  next_id : Z
}.

Definition ftype_name (t : ftype) : string :=
  match t with FType name _ _ _ _ => name end.
Definition ftype_class (t : ftype) : TypeClass :=
  match t with FType _ class _ _ _ => class end.
Definition ftype_is_array (t : ftype) : bool :=
  match t with FType _ _ is_array _ _ => is_array end.
Definition ftype_size (t : ftype) : Z :=
  match t with FType _ _ _ byte_size _ => byte_size end.
Definition ftype_inner (t : ftype) : ftype :=
  match t with FType _ _ _ _ inner => default no_type inner end.

Definition fvalue_valid (v : fvalue) : bool :=
  match v with FInvalid => false | FValue _ _ _ _ _ => true end.
Definition fvalue_name (v : fvalue) : pystr :=
  match v with FInvalid => None | FValue name _ _ _ _ => name end.
Definition fvalue_type (v : fvalue) : ftype :=
  match v with FInvalid => no_type | FValue _ type _ _ _ => type end.
Definition fvalue_value (v : fvalue) : pystr :=
  match v with FInvalid => None | FValue _ _ value _ _ => value end.
Definition fvalue_summary (v : fvalue) : pystr :=
  match v with FInvalid => None | FValue _ _ _ summary _ => summary end.
Definition fvalue_children (v : fvalue) : list fvalue :=
  match v with FInvalid => [] | FValue _ _ _ _ children => children end.

Definition find_named (name : string) (l : list fvalue) : fvalue :=
  default FInvalid
    (find (fun v => bool_decide (fvalue_name v = Some name)) l).

Definition assoc {A} (k : Z) (l : list (Z * A)) : option A :=
  snd <$> find (fun kv => bool_decide (fst kv = k)) l.

(** The process moves to its next stop, or exits when none is left. *)
Definition advance (w : fworld) : fworld :=
  match future w with
  | s :: rest =>
      mkWorld (target_ok w) (unresolvable_lines w) rest (Some s) eStateStopped
        (next_id w)
  | [] =>
      mkWorld (target_ok w) (unresolvable_lines w) [] None eStateExited
        (next_id w)
  end.

Definition set_state (st : StateType) (w : fworld) : fworld :=
  mkWorld (target_ok w) (unresolvable_lines w) (future w) (current w) st
    (next_id w).

(** A breakpoint handle: its validity and its id. *)
Definition create_breakpoint (line : Z) (w : fworld)
    : (bool * Z) * fworld :=
  ((negb (bool_decide (line ∈ unresolvable_lines w)), next_id w),
   mkWorld (target_ok w) (unresolvable_lines w) (future w) (current w)
     (state w) (next_id w + 1)).

(** The console understands [continue] (the process runs on) and
    [process kill] (the process exits); other commands leave the process
    as it is. *)
Definition interpret (command : string) (w : fworld) : fworld :=
  if bool_decide (command = "continue"%string) then set_state eStateRunning w
  else if bool_decide (command = "process kill"%string)
       then set_state eStateExited w
  else w.

Definition frame_variables (w : fworld) : list fvalue :=
  match current w with Some s => stop_variables s | None => [] end.

#[export] Instance backend : Backend := {|
  World := fworld;
  SBProcess := unit;
  SBBreakpoint := bool * Z;
  SBValue := fvalue;
  SBType := ftype;
  SetAsync := fun _ w => w;
  HandleCommand := fun _ w => w;
  CreateTarget := fun _ w => (target_ok w, w);
  Destroy := fun w => w;
  InterpreterHandleCommand := interpret;
  BreakpointCreateByLocation := fun _ line w => create_breakpoint line w;
  BreakpointDelete := fun _ w => w;
  LaunchSimple := fun w => (tt, advance w);
  CreateValueFromAddress := fun w _ address _ =>
    match current w with
    | Some s => default FInvalid (assoc address (stop_memory s))
    | None => FInvalid
    end;
  BreakpointIsValid := fst;
  BreakpointGetID := snd;
  ProcessIsValid := fun _ _ => true;
  GetState := fun w _ => state w;
  Continue := fun _ w => advance w;
  Stop := fun _ w => set_state eStateStopped w;
  Kill := fun _ w => set_state eStateExited w;
  ReadCStringFromMemory := fun w _ address _ =>
    match current w with
    | Some s => default EmptyString (assoc address (stop_cstrings s))
    | None => EmptyString
    end;
  FindVariable := fun w _ name => find_named name (frame_variables w);
  GetVariableNames := fun w _ => fvalue_name <$> frame_variables w;
  GetFunctionName := fun w _ =>
    match current w with Some s => stop_function s | None => None end;
  IsValid := fvalue_valid;
  GetName := fvalue_name;
  GetTypeName := fun v => ftype_name (fvalue_type v);
  GetType := fvalue_type;
  GetValue := fvalue_value;
  GetSummary := fvalue_summary;
  GetChildMemberWithName := fun v name => find_named name (fvalue_children v);
  GetNumChildren := fun v => length (fvalue_children v);
  GetChildAtIndex := fun v i => default FInvalid (fvalue_children v !! i);
  GetTypeClass := ftype_class;
  IsArrayType := ftype_is_array;
  TypeGetName := ftype_name;
  GetPointeeType := ftype_inner;
  GetArrayElementType := ftype_inner;
  GetByteSize := ftype_size
|}.

(** ** Sample values *)

Definition t_long : ftype := FType "long" eTypeClassBuiltin false 8 None.
Definition t_long_ptr : ftype :=
  FType "*long" eTypeClassPointer false 8 (Some t_long).
Definition t_long_slice : ftype :=
  FType "[]long" eTypeClassStruct false 24 None.

Definition long_value (name : pystr) (v : string) : fvalue :=
  FValue name t_long (Some v) None [].

(** A slice [name] of [long]s that holds [len] elements from [base] on. *)
Definition long_slice (name : pystr) (base len : string) : fvalue :=
  FValue name t_long_slice None None
    [FValue (Some "data"%string) t_long_ptr (Some base) None [];
     long_value (Some "len"%string) len;
     long_value (Some "cap"%string) len].

Definition t_slice_ptr : ftype :=
  FType "*[]long" eTypeClassPointer false 8 (Some t_long_slice).
Definition t_slice_slice : ftype :=
  FType "[][]long" eTypeClassStruct false 24 None.

(** The slice [m] of the two slices 1, 2 and 3, whose headers are stored
    from address 0x2000 on. *)
Definition nested_slice : fvalue :=
  FValue (Some "m"%string) t_slice_slice None None
    [FValue (Some "data"%string) t_slice_ptr (Some "0x2000"%string) None [];
     long_value (Some "len"%string) "2";
     long_value (Some "cap"%string) "2"].

(** A slice [u] of [long]s whose members cannot be read. *)
Definition unreadable_slice : fvalue :=
  FValue (Some "u"%string) t_long_slice None None
    [FValue (Some "data"%string) t_long_ptr None None [];
     FValue (Some "len"%string) t_long None None []].

(** A stop in [main.main] with the locals [a = 5], [b = 6] and the slice
    [s] of 10, 20, 30 stored from address 0x1000 on. *)
Definition sample_stop : stop :=
  mkStop (Some "main.main"%string)
    [long_value (Some "a"%string) "5"; long_value (Some "b"%string) "6";
     long_slice (Some "s"%string) "0x1000" "3"]
    [(4096, long_value None "10"); (4104, long_value None "20");
     (4112, long_value None "30")]
    [].

(** A stop with the locals [m] and [u]. *)
Definition nested_stop : stop :=
  mkStop (Some "main.main"%string)
    [nested_slice; unreadable_slice]
    [(8192, long_slice None "0x3000" "2");
     (8216, long_slice None "0x3010" "1");
     (12288, long_value None "1"); (12296, long_value None "2");
     (12304, long_value None "3")]
    [].

(** A world in which the target loads and the process will stop at
    [stops]. *)
Definition world_of (stops : list stop) : fworld :=
  mkWorld true [] stops None eStateInvalid 1.

(** The session the constructor of [LLDBDebugger] leaves. *)
Definition session_of (w : fworld) (inputs : list console_input) : Session :=
  mkSession w None inputs [].

End Fake.

(** ** Sample sources and sessions *)

Module Samples.
Import Fake.

(** A line of a file, as [readlines] returns it. *)
Definition line (text : string) : string :=
  text +:+ String (ascii_of_nat 10) EmptyString.

(** Three checks that hold at [sample_stop]. *)
Definition passing_source : list string :=
  [line "package main";
   line "func main() {";
   line "  // Expected:";
   line "  //   a: 5";
   line "  //   s: []int[10, 20, 30]";
   line "  //   all variables: a b s";
   line "  println(a)";
   line "}"].

(** One check that fails at [sample_stop], where [a] is 5. *)
Definition failing_source : list string :=
  [line "// Expected:"; line "//   a: 6"; line "println(a)"].

(** One check on a name that is not in scope at [sample_stop]. *)
Definition missing_source : list string :=
  [line "// Expected:"; line "//   missing: 5"; line "println(a)"].

(** One check on the slice [u] of [nested_stop]. *)
Definition unreadable_source : list string :=
  [line "// Expected:"; line "//   u: []int[]"; line "println(u)"].

(** A block whose only comment line declares no check. *)
Definition remark_source : list string :=
  [line "// Expected:"; line "// only a remark"; line "x := 1"].

(** The file system that holds the files of [m] and nothing else. *)
Definition files_of (m : gmap string (list string)) : FileSystem :=
  fun path =>
    match m !! path with
    | Some content => Ok content
    | None => Raise (FileNotFoundError path)
    end.

Definition files : FileSystem :=
  files_of
    (<["pass.go" := passing_source]>
       (<["fail.go" := failing_source]>
          (<["missing.go" := missing_source]>
             (<["unreadable.go" := unreadable_source]>
                (<["remark.go" := remark_source]> ∅))))).

(** A rendering of sets that does not look at them. *)
Definition no_repr (names : gset pystr) : string := "{...}".

(** The session of a debuggee that stops once, at [sample_stop]. *)
Definition session (inputs : list console_input) : Session :=
  session_of (world_of [sample_stop]) inputs.

(** The same with an executable for which no target can be created. *)
Definition session_without_target : Session :=
  session_of (mkWorld false [] [sample_stop] None eStateInvalid 1) [].

(** The world once the process has stopped at [sample_stop]. *)
Definition stopped : fworld := advance (world_of [sample_stop]).

(** The world once the process has stopped at [nested_stop]. *)
Definition stopped_nested : fworld := advance (world_of [nested_stop]).

(** A string variable with no summary, a null data pointer and length 0. *)
Definition empty_string_value : fvalue :=
  FValue (Some "e"%string) (FType "string" eTypeClassStruct false 16 None)
    None None
    [FValue (Some "data"%string)
       (FType "*uint8" eTypeClassPointer false 8 None)
       (Some "0x0000000000000000"%string) None [];
     long_value (Some "len"%string) "0"].

(** The parsed form of [failing_source]. *)
Definition failing_case : TestCase :=
  mkTestCase "fail.go" 1 2 [mkTest "fail.go" 2 "a" "6"].

End Samples.

(* ===================================================================== *)
(** * Notions on strings used in the statements *)
(* ===================================================================== *)

(** The characters of a string. *)
Definition chars (s : string) : list ascii := list_ascii_of_string s.

(** The first and the last character of [s] satisfy [p]. *)
Definition starts_with (p : ascii -> bool) (s : string) : bool :=
  match chars s with
  | c :: _ => p c
  | [] => false
  end.
Definition ends_with (p : ascii -> bool) (s : string) : bool :=
  match list.last (chars s) with
  | Some c => p c
  | None => false
  end.

(** The longest suffix of [l] whose head does not satisfy [p]. *)
Fixpoint drop_while {A} (p : A -> bool) (l : list A) : list A :=
  match l with
  | [] => []
  | x :: rest => if p x then drop_while p rest else l
  end.

(* ===================================================================== *)
(** * Notions on the formatter used in the statements *)
(* ===================================================================== *)

(** The characters [format_string] strips from a summary: the double
    quote. *)
Definition is_quote (c : ascii) : bool := Py.char_in c dquote.

(** [r'] is [r], unless [r] is the exhaustion of the recursion limit. *)
Definition stable {A} (r r' : result A) : Prop :=
  r = Raise RecursionError \/ r' = r.

Section DispatchNotions.
Context `{Backend}.

(** The branch of [format_value] a valid value whose type name does not
    start with [[]] is sent to. *)
Definition reaches_array (var : SBValue) : bool :=
  IsValid var
  && negb (Py.startswith "[]" (GetTypeName var))
  && IsArrayType (GetType var)
  && negb (is_struct_or_class (GetTypeClass (GetType var))).

Definition reaches_custom_array (var : SBValue) : bool :=
  IsValid var
  && negb (Py.startswith "[]" (GetTypeName var))
  && IsArrayType (GetType var)
  && is_struct_or_class (GetTypeClass (GetType var)).

Definition reaches_struct (var : SBValue) : bool :=
  IsValid var
  && negb (Py.startswith "[]" (GetTypeName var))
  && negb (IsArrayType (GetType var))
  && negb (bool_decide (GetTypeName var = "string"%string))
  && negb (bool_decide (GetTypeName var = "complex64"%string)
           || bool_decide (GetTypeName var = "complex128"%string))
  && is_struct_or_class (GetTypeClass (GetType var)).

(** [name = value] for each member, as [format_struct] joins them. *)
Definition member_texts (var : SBValue) (rendered : list pystr)
    : list string :=
  imap (fun i value =>
          fstr (GetName (GetChildAtIndex var i)) +:+ " = " +:+ fstr value)
    rendered.
End DispatchNotions.

(* ===================================================================== *)
(** * Notions on the parser used in the statements *)
(* ===================================================================== *)

(** [c1] ends before [c2] starts. *)
Definition case_before (c1 c2 : TestCase) : Prop :=
  end_line c1 < start_line c2.

(** The test cases of one file: what the scan of [parse_expected_values]
    adds for it; a file that cannot be read adds nothing. *)
Definition cases_of_file (fs : FileSystem)
    (source_file : string) : list TestCase :=
  match fs source_file with
  | Ok content => parse_file source_file content 0 []
  | Raise _ => []
  end.

(** What the parser guarantees of a check of [test_case]. *)
Definition check_in_block (test_case : TestCase) (check : Test) : Prop :=
  source_file check = tc_source_file test_case
  /\ start_line test_case < line_number check <= end_line test_case
  /\ Py.contains ":" (variable check) = false
  /\ Py.strip (variable check) = variable check
  /\ Py.strip (expected_value check) = expected_value check.

(** [a] is declared on an earlier line than [b]. *)
Definition check_before (a b : Test) : Prop :=
  line_number a < line_number b.

(** What reading the files in order raises: the exception of the first
    file that cannot be read, if there is one. *)
Fixpoint read_error (fs : FileSystem) (source_files : list string)
    : option exn :=
  match source_files with
  | [] => None
  | f :: rest =>
      match fs f with
      | Raise e => Some e
      | Ok _ => read_error fs rest
      end
  end.

(* ===================================================================== *)
(** * Notions on checks used in the statements *)
(* ===================================================================== *)

(** [check] with another expected value. *)
Definition with_expected (check : Test) (text : string) : Test :=
  mkTest (source_file check) (line_number check) (variable check) text.

(** A string of whitespace only. *)
Definition blank (s : string) : bool := forallb Py.isspace (chars s).

(** What a check concluded: the status and the value recorded. *)
Definition verdict (r : result TestResult)
    : result (string * option actual_value) :=
  match r with
  | Ok x => Ok (status x, actual x)
  | Raise e => Raise e
  end.

(** The statuses a check ends with. *)
Definition pass_or_fail (r : TestResult) : Prop :=
  status r = "pass"%string \/ status r = "fail"%string.

(** What a check on all variables has recorded, given the names in scope:
    these names as [actual], and, unless it passed, the missing names, which
    are [str]s, and the extra names, which are names in scope.  A check that
    passed has only [str]s in scope. *)
Definition names_recorded (in_scope : gset pystr) (r : TestResult) : Prop :=
  variable (test r) = "all variables"%string ->
  actual r = Some (ActualNames in_scope)
  /\ (is_pass r = true ->
      (None ∉ in_scope) /\ missing r = None /\ extra r = None)
  /\ (is_pass r = false ->
      exists missing_names extra_names,
        missing r = Some missing_names /\ extra r = Some extra_names
        /\ (None ∉ missing_names)
        /\ (None ∈ extra_names <-> None ∈ in_scope)).

(* ===================================================================== *)
(** * Notions on sessions used in the statements *)
(* ===================================================================== *)

(** The calls a run makes when the console is never entered. *)
Definition is_batch_event (e : event) : bool :=
  match e with
  | EvBreakpointCreate _ _ _ | EvBreakpointDelete _ | EvLaunch | EvContinue =>
      true
  | _ => false
  end.

(** A line that leaves the console: [quit] in any case, with any whitespace
    around it. *)
Definition is_quit (text : string) : bool :=
  bool_decide (Py.lower (Py.strip text) = "quit"%string).

(** What ends the loop of the console: everything but a line that is a
    command. *)
Definition ends_console (input : console_input) : bool :=
  match input with
  | Line text => is_quit text
  | _ => true
  end.

(** How [run_console] ends after [stop] has ended its loop: it answers
    [True], it answers [False], which aborts the run, or it is left by
    [KeyboardInterrupt]. *)
Definition console_answer (stop : console_input) : result bool :=
  match stop with
  | Line _ | Eof => Ok true
  | Interrupt => Ok false
  | InterruptAtPrompt | LineThenInterrupt _ _ | EofThenInterrupt =>
      Raise KeyboardInterrupt
  end.

(** The command that the iteration ended by [stop] has passed to the
    interpreter, if any. *)
Definition last_command (stop : console_input) : list string :=
  match stop with
  | LineThenInterrupt text true => if is_quit text then [] else [text]
  | _ => []
  end.

(** A case with a check that did not pass. *)
Definition has_failure (case_result : CaseResult) : bool :=
  existsb (fun r => negb (is_pass r)) (cr_results case_result).

Definition is_fail (r : TestResult) : bool :=
  bool_decide (status r = "fail"%string).

(** The number of checks declared in [l]. *)
Definition checks_declared (l : list TestCase) : Z :=
  foldr (fun test_case n => Z.of_nat (length (tests test_case)) + n) 0 l.

(** The results of all the cases of a summary, in order. *)
Definition all_results (results : TestResults) : list TestResult :=
  concat (cr_results <$> case_results results).

Section SessionNotions.
Context `{Backend}.

(** [m] reads nothing from the terminal and only makes calls of a run
    without console. *)
Definition batch {A} (m : M A) : Prop :=
  forall s r s',
    m s = (r, s') ->
    stdin s' = stdin s
    /\ exists new,
         calls s' = calls s ++ new
         /\ Forall (fun e => is_batch_event e = true) new.

(** The world after the console has passed [texts] to the interpreter. *)
Definition after_commands (texts : list string) (w : World) : World :=
  foldl (fun w text => InterpreterHandleCommand (Py.strip text) w) w texts.

(** The calls by which [run_console] prepares the debugger. *)
Definition console_setup : list event :=
  [EvSetAsync true; EvHandleCommand "settings set auto-confirm true";
   EvHandleCommand "command script import lldb"].
End SessionNotions.

(* ===================================================================== *)
(** * Notions on reports used in the statements *)
(* ===================================================================== *)

(** [m] only appends, and writes the same lines whatever was written
    before. *)
Definition framed {A} (m : W A) : Prop :=
  forall out, m out = (outcome_of m, out ++ lines_of m).

(** The five lines that close a report. *)
Definition closing_lines (results : TestResults) : list string :=
  [newline +:+ "Test results:";
   "  Total tests: " +:+ pretty (total results);
   "  Passed tests: " +:+ pretty (passed results);
   "  Failed tests: " +:+ pretty (failed results);
   if bool_decide (total results = passed results) then "All tests passed!"
   else "Some tests failed"]%string.

(** ** More sample values and cases *)

Module MoreSamples.
Import Fake Samples.

Definition t_point : ftype :=
  FType "main.Point" eTypeClassStruct false 16 None.

(** The struct [main.Point] with the fields [x] and [y]. *)
Definition point (name : pystr) (x y : string) : fvalue :=
  FValue name t_point None None
    [long_value (Some "x"%string) x; long_value (Some "y"%string) y].

(** An array of two [long]s. *)
Definition long_array : fvalue :=
  FValue (Some "arr"%string)
    (FType "[2]long" eTypeClassArray true 16 (Some t_long)) None None
    [long_value None "1"; long_value None "2"].

(** An array of two points, which LLDB classes as a struct. *)
Definition point_array : fvalue :=
  FValue (Some "pts"%string)
    (FType "[2]main.Point" eTypeClassStruct true 32 (Some t_point)) None None
    [point None "1" "2"; point None "3" "4"].

(** A string whose summary is the text hi between double quotes. *)
Definition greeting : fvalue :=
  FValue (Some "g"%string) (FType "string" eTypeClassStruct false 16 None)
    None (Some (dquote +:+ "hi" +:+ dquote)) [].

(** The parsed form of [passing_source]. *)
Definition passing_case : TestCase :=
  mkTestCase "pass.go" 3 6
    [mkTest "pass.go" 4 "a" "5";
     mkTest "pass.go" 5 "s" "[]int[10, 20, 30]";
     mkTest "pass.go" 6 "all variables" "a b s"].

(** Two blocks in one file, the second right after a statement. *)
Definition two_blocks_source : list string :=
  [line "// Expected:";
   line "//   a: 5";
   line "println(a)";
   line "// Expected:";
   line "//   b: 6";
   line "//   all variables: a b s";
   line "println(b)"].

(** The parsed form of [two_blocks_source]. *)
Definition two_blocks_cases : list TestCase :=
  [mkTestCase "two.go" 1 2 [mkTest "two.go" 2 "a" "5"];
   mkTestCase "two.go" 4 6
     [mkTest "two.go" 5 "b" "6";
      mkTest "two.go" 6 "all variables" "a b s"]].

(** The files of [files], the file [two.go], a directory [pkg] and a file
    [latin1.go] that is not valid UTF-8. *)
Definition more_files : FileSystem :=
  fun path =>
    if bool_decide (path = "two.go"%string) then Ok two_blocks_source
    else if bool_decide (path = "pkg"%string)
         then Raise (IsADirectoryError path)
    else if bool_decide (path = "latin1.go"%string)
         then Raise UnicodeDecodeError
    else files path.

(** A stop at which LLDB reports a variable without a name beside [a]. *)
Definition unnamed_stop : stop :=
  mkStop (Some "main.main"%string)
    [long_value (Some "a"%string) "5"; long_value None "7"] [] [].

(** The world once the process has stopped at [unnamed_stop]. *)
Definition stopped_unnamed : fworld := advance (world_of [unnamed_stop]).

(** A case that expects [a] to be the only variable in scope. *)
Definition only_a_case : TestCase :=
  mkTestCase "only.go" 1 2 [mkTest "only.go" 2 "all variables" "a"].

(** A summary with one passing and one failing check. *)
Definition mixed_summary : TestResults :=
  mkTestResults 2 1 1
    [mkCaseResult failing_case (Some "main.main"%string)
       [mkTestResult (mkTest "fail.go" 2 "a" "5") "pass"
          (Some (ActualStr "5")) None None None;
        mkTestResult (mkTest "fail.go" 2 "a" "6") "fail"
          (Some (ActualStr "5")) None None None]].

End MoreSamples.

(* ===================================================================== *)
(** * Properties of the Python primitives *)
(* ===================================================================== *)

Example split_once_example :
  Py.split_max ":" 1 "a: b: c" = ["a"; " b: c"]%string.
Proof. reflexivity. Qed.
Example split_slice_marker_example :
  Py.split "[]" "[][]long" = [EmptyString; EmptyString; "long"]%string.
Proof. reflexivity. Qed.
Example split_ws_example : Py.split_ws "  a b   c " = ["a"; "b"; "c"]%string.
Proof. reflexivity. Qed.
Example int_hex_example : Py.int 16 "0x0000000100003f80" = Some 4294983552.
Proof. reflexivity. Qed.
Example int_underscore_example : Py.int 10 " -1_0 " = Some (-10).
Proof. reflexivity. Qed.
Example int_double_underscore_example : Py.int 10 "1__0" = None.
Proof. reflexivity. Qed.
Example int_prefix_needs_base16_example : Py.int 10 "0x10" = None.
Proof. reflexivity. Qed.
Example join_example :
  Py.join ", " ["10"; "20"; "30"]%string = "10, 20, 30"%string.
Proof. reflexivity. Qed.

(** Equations between logs, up to the grouping of the appends. *)
Ltac log_eq :=
  repeat (rewrite <- app_assoc || rewrite <- app_comm_cons);
  simpl; try done.


(* ===================================================================== *)
(** * Properties of the value formatter *)
(* ===================================================================== *)
Lemma py_for_append {A B} (f : A -> result B) (l : list A) (acc : list B) :
  py_for l (fun x acc => rbind (f x) (fun v => Ok (acc ++ [v]))) acc
  = rbind (map_result f l) (fun vs => Ok (acc ++ vs)).
Proof.
  revert acc. induction l as [|x l IH]; intros acc; simpl.
  - by rewrite app_nil_r.
  - destruct (f x) as [v|e]; simpl; [|done].
    rewrite IH. destruct (map_result f l); simpl; [|done].
    by rewrite <- app_assoc.
Qed.

Lemma map_result_seq {B} (f : nat -> result B) (a : nat) (vs : list B) :
  (forall i v, vs !! i = Some v -> f (a + i)%nat = Ok v) ->
  map_result f (seq a (length vs)) = Ok vs.
Proof.
  revert a. induction vs as [|v vs IH]; intros a Hf; simpl; [done|].
  rewrite <- (Nat.add_0_r a) at 1. rewrite (Hf 0%nat v eq_refl).
  rewrite IH; [done|].
  intros i v' Hi. replace (S a + i)%nat with (a + S i)%nat by lia.
  by apply Hf.
Qed.

Lemma all_str_Some (es : list string) : all_str (Some <$> es) = Some es.
Proof.
  induction es as [|e es IH]; [done|].
  rewrite fmap_cons. cbn [all_str]. by rewrite IH.
Qed.

Lemma py_join_Some (sep : string) (es : list string) :
  py_join sep (Some <$> es) = Ok (Py.join sep es).
Proof. unfold py_join. by rewrite all_str_Some. Qed.

(** A string without the separator is a single piece. *)
Lemma split_go_absent (sep : string) (cur s : string) :
  Py.contains sep s = false ->
  Py.split_go sep 0 None cur s = [String.rev_app cur s].
Proof.
  revert cur. induction s as [|c s IH]; intros cur Hc; simpl in *.
  - done.
  - apply orb_false_iff in Hc as [Hp Hc]. rewrite Hp. simpl.
    by rewrite IH.
Qed.

Lemma split_slice_type_name (element_name : string) :
  Py.contains "[]" element_name = false ->
  Py.last (Py.split "[]" ("[]" +:+ element_name)) = element_name.
Proof.
  intros Hc. unfold Py.split. simpl.
  destruct element_name as [|c rest]; [done|].
  change (Py.split_go "[]" 1 None EmptyString (String "]" (String c rest)))
    with (Py.split_go "[]" 0 None EmptyString (String c rest)).
  by rewrite split_go_absent.
Qed.

(** The last piece of a split contains no separator. *)
Lemma contains_rev_app (sep cur s : string) :
  no_start sep cur s = true ->
  Py.contains sep s = false ->
  Py.contains sep (String.rev_app cur s) = false.
Proof.
  revert s. induction cur as [|c cur IH]; intros s Hns Hc; simpl in *.
  - done.
  - apply andb_true_iff in Hns as [Hp Hns]. apply negb_true_iff in Hp.
    apply IH; [done|]. simpl. cbn [Py.contains]. by rewrite Hp, Hc. 
Qed.

Lemma split_go_nonempty sep skip budget cur s :
  Py.split_go sep skip budget cur s <> [].
Proof.
  revert skip budget cur. induction s as [|c s IH]; intros skip budget cur; simpl.
  - done.
  - destruct skip; [|apply IH]. destruct (_ && _); [done|apply IH].
Qed.

Lemma split_go_cons sep skip budget cur c rest :
  Py.split_go sep skip budget cur (String c rest)
  = match skip with
    | S k => Py.split_go sep k budget cur rest
    | O =>
        if match budget with Some O => false | _ => true end
           && String.prefix sep (String c rest)
        then String.rev cur
               :: Py.split_go sep (Nat.pred (String.length sep))
                    (Nat.pred <$> budget) EmptyString rest
        else Py.split_go sep O budget (String c cur) rest
    end.
Proof. reflexivity. Qed.

Lemma last_split_go (sep : string) (s : string) (skip : nat) (cur : string) :
  sep <> EmptyString ->
  (skip = 0%nat \/ cur = EmptyString) ->
  no_start sep cur s = true ->
  Py.contains sep (Py.last (Py.split_go sep skip None cur s)) = false.
Proof.
  intros Hsep. revert skip cur.
  induction s as [|c s IH]; intros skip cur Hskip Hns.
  - simpl. unfold Py.last. simpl. apply contains_rev_app; [done|].
    destruct sep; done.
  - rewrite split_go_cons. destruct skip as [|k].
    + cbn [andb]. destruct (String.prefix sep (String c s)) eqn:Hp.
      * unfold Py.last.
        destruct (Py.split_go sep (Nat.pred (String.length sep))
                    (Nat.pred <$> None) EmptyString s) as [|x l] eqn:Hsplit.
        { by apply split_go_nonempty in Hsplit. }
        rewrite last_cons_cons. rewrite <- Hsplit.
        apply (IH _ EmptyString); [by right|done].
      * apply IH; [by left|]. cbn [no_start]. by rewrite Hp.
    + destruct Hskip as [Hk | ->]; [done|]. apply IH; [by right|done].
Qed.

Lemma last_split_has_no_separator (sep s : string) :
  sep <> EmptyString ->
  Py.contains sep (Py.last (Py.split sep s)) = false.
Proof. intros Hsep. apply last_split_go; [done|by left|done]. Qed.

Section FormatterFacts.
Context `{Backend}.
Variable w : World.
Variable process : SBProcess.

(** The statements of [format_slice], with the loop read as a map. *)
Lemma format_slice_unfold (fmt : SBValue -> result pystr) (var : SBValue)
    (n base : Z) :
  py_int 10 (GetValue (GetChildMemberWithName var "len")) = Ok n ->
  py_int 16 (GetValue (GetChildMemberWithName var "data")) = Ok base ->
  let element_type :=
    GetPointeeType (GetType (GetChildMemberWithName var "data")) in
  format_slice w fmt var
  = rbind
      (map_result
         (fun i =>
            fmt (CreateValueFromAddress w ("element_" +:+ pretty i)
                   (base + Z.of_nat i * GetByteSize element_type)
                   element_type))
         (range n))
      (fun elements =>
         rbind (py_join ", " elements)
           (fun joined =>
              Ok (Some ("[]"
                        +:+ map_type
                              (Py.last
                                 (Py.split "[]" (TypeGetName (GetType var))))
                        +:+ "[" +:+ joined +:+ "]")))).
Proof.
  intros Hlen Hdata element_type. unfold format_slice.
  rewrite Hlen, Hdata. simpl.
  rewrite (py_for_append
             (fun i =>
                fmt (CreateValueFromAddress w ("element_" +:+ pretty i)
                       (base + Z.of_nat i * GetByteSize element_type)
                       element_type))).
  by destruct (map_result _ _).
Qed.

(** No formatter returns [None], whatever the recursive calls return. *)
Lemma format_value_body_not_None (fmt : SBValue -> result pystr)
    (var : SBValue) :
  format_value_body w process fmt var <> Ok None.
Proof.
  unfold format_value_body, format_slice, format_array, format_custom_array,
    format_struct, format_string, format_complex, rbind.
  repeat (match goal with
          | |- context [match ?x with _ => _ end] => destruct x
          end; try done).
Qed.
End FormatterFacts.

Lemma raises_only_rbind {A B} (P : exn -> Prop) (r : result A)
    (k : A -> result B) :
  raises_only P r -> (forall a, raises_only P (k a)) ->
  raises_only P (rbind r k).
Proof. destruct r; simpl; auto. Qed.

Lemma raises_only_py_for {A S} (P : exn -> Prop) (l : list A)
    (body : A -> S -> result S) (s : S) :
  (forall x s, raises_only P (body x s)) -> raises_only P (py_for l body s).
Proof.
  intros Hbody. revert s. induction l as [|x l IH]; intros s; simpl; [done|].
  specialize (Hbody x s). destruct (body x s); simpl in *; auto.
Qed.

Lemma raises_only_py_int (base : Z) (x : pystr) :
  raises_only formatter_exn (py_int base x).
Proof.
  unfold py_int, formatter_exn.
  destruct x as [s|]; simpl; [destruct (Py.int base s); simpl|]; auto.
Qed.

Lemma raises_only_py_join (sep : string) (l : list pystr) :
  raises_only formatter_exn (py_join sep l).
Proof.
  unfold py_join, formatter_exn. destruct (all_str l); simpl; auto.
Qed.

Section FormatterTheorems.
Context `{Backend}.
Variable w : World.
Variable process : SBProcess.

Lemma format_value_body_raises (fmt : SBValue -> result pystr)
    (var : SBValue) :
  (forall v, raises_only formatter_exn (fmt v)) ->
  raises_only formatter_exn (format_value_body w process fmt var).
Proof.
  intros Hfmt.
  assert (Hstruct : forall v b,
             raises_only formatter_exn (format_struct fmt v b)).
  { intros v b. unfold format_struct.
    apply raises_only_rbind.
    - apply raises_only_py_for. intros i acc.
      apply raises_only_rbind; [apply Hfmt|done].
    - intros children. by destruct b. }
  unfold format_value_body.
  destruct (IsValid var); [|done].
  destruct (Py.startswith _ _).
  { unfold format_slice.
    repeat (apply raises_only_rbind;
            [first [apply raises_only_py_int | apply raises_only_py_join
                   | apply raises_only_py_for; intros ] | intros]);
      try done.
    apply raises_only_rbind; [apply Hfmt|done]. }
  destruct (IsArrayType _).
  { destruct (is_struct_or_class _).
    - unfold format_custom_array.
      repeat (apply raises_only_rbind;
              [first [apply raises_only_py_join
                     | apply raises_only_py_for; intros ] | intros]);
        try done.
      apply raises_only_rbind; [apply Hstruct|done].
    - unfold format_array.
      repeat (apply raises_only_rbind;
              [first [apply raises_only_py_join
                     | apply raises_only_py_for; intros ] | intros]);
        try done.
      apply raises_only_rbind; [apply Hfmt|done]. }
  destruct (bool_decide (GetTypeName var = "string"%string)).
  { unfold format_string. destruct (GetSummary var); [done|].
    apply raises_only_rbind; [apply raises_only_py_int|intros n].
    destruct (_ && _); [|done].
    apply raises_only_rbind; [apply raises_only_py_int|done]. }
  destruct (_ || _); [done|].
  destruct (is_struct_or_class _); [apply Hstruct|].
  by destruct (GetValue var), (GetSummary var).
Qed.

Lemma format_value_raises (depth : nat) (var : SBValue) :
  raises_only formatter_exn (format_value w process depth var).
Proof.
  revert var. induction depth as [|depth IH]; intros var; simpl;
    apply format_value_body_raises; [|done].
  intros _. unfold formatter_exn. simpl. auto.
Qed.

Lemma format_value_not_None (depth : nat) (var : SBValue) :
  format_value w process depth var <> Ok None.
Proof. destruct depth; apply format_value_body_not_None. Qed.

Lemma format_value_str_or_raise (depth : nat) (var : SBValue) :
  (exists s, format_value w process depth var = Ok (Some s))
  \/ (exists e, format_value w process depth var = Raise e
                /\ formatter_exn e).
Proof.
  pose proof (format_value_not_None depth var) as Hn.
  pose proof (format_value_raises depth var) as Hr.
  destruct (format_value w process depth var) as [[s|]|e]; simpl in *.
  - left. by exists s.
  - done.
  - right. by exists e.
Qed.

Lemma format_value_invalid (depth : nat) (var : SBValue) :
  IsValid var = false ->
  format_value w process depth var = Ok (Some "None"%string).
Proof.
  intros Hv. destruct depth; simpl; unfold format_value_body;
    by rewrite Hv.
Qed.

(** C9, as the code has it.  [format_value], and with it
    [get_variable_value] on any name, never returns Python's [None], but it
    does not always return: each call returns a [str] or raises
    ([TypeError] or [ValueError] from an [int] conversion of a member of a
    slice or of a string, [RecursionError] beyond the recursion limit).  An
    invalid value handle (in particular the one of a name that cannot be
    resolved) and a scalar with neither a value nor a summary both give the
    string "None". *)
Theorem format_value_never_returns_None (depth : nat) :
  (forall var,
      (exists s, format_value w process depth var = Ok (Some s))
      \/ (exists e, format_value w process depth var = Raise e
                    /\ formatter_exn e))
  /\ (forall var,
         IsValid var = false ->
         format_value w process depth var = Ok (Some "None"%string))
  /\ (forall var,
         IsValid var = true -> is_scalar var = true ->
         GetValue var = None -> GetSummary var = None ->
         format_value w process depth var = Ok (Some "None"%string))
  /\ (forall var_name,
         (exists s,
             get_variable_value w process depth var_name = Ok (Some s))
         \/ (exists e,
                get_variable_value w process depth var_name = Raise e
                /\ formatter_exn e))
  /\ (forall var_name,
         IsValid (FindVariable w process (actual_var_name var_name))
         = false ->
         get_variable_value w process depth var_name
         = Ok (Some "None"%string)).
Proof.
  repeat split.
  - apply format_value_str_or_raise.
  - apply format_value_invalid.
  - intros var Hv Hs Hval Hsum.
    unfold is_scalar in Hs.
    repeat (apply andb_true_iff in Hs as [Hs ?]).
    destruct depth; simpl; unfold format_value_body;
      rewrite Hv;
      repeat match goal with
             | Hn : negb ?b = true |- _ =>
                 apply negb_true_iff in Hn; rewrite Hn
             end;
      by rewrite Hval, Hsum.
  - intros var_name. apply format_value_str_or_raise.
  - intros var_name Hv. by apply format_value_invalid.
Qed.

(** The fallback of [format_string] reads memory when the data pointer and
    the length are both truthy. *)
Lemma format_string_reads_memory (var : SBValue) (data : string)
    (length address : Z) :
  GetSummary var = None ->
  GetValue (GetChildMemberWithName var "data") = Some data ->
  Py.truthy data = true ->
  py_int 10 (GetValue (GetChildMemberWithName var "len")) = Ok length ->
  length <> 0 ->
  py_int 16 (Some data) = Ok address ->
  format_string w process var
  = Ok (Some (ReadCStringFromMemory w process address (length + 1))).
Proof.
  intros Hsum Hdata Htruthy Hlen Hnz Haddr. unfold format_string.
  rewrite Hsum, Hlen, Hdata, Htruthy. cbn [rbind].
  destruct (Z.eqb_spec length 0) as [|_]; [done|]. cbn [andb negb].
  by rewrite Haddr.
Qed.

(** C10. A string value without a summary whose [len] member reads as 0 is
    rendered as the token "None", not as the empty string: the memory is
    read only when the data pointer and the length are both truthy.  This
    holds of [format_string] and of [format_value] on a value the dispatch
    sends to it. *)
Theorem format_string_empty_is_None (var : SBValue) :
  GetSummary var = None ->
  py_int 10 (GetValue (GetChildMemberWithName var "len")) = Ok 0 ->
  format_string w process var = Ok (Some "None"%string)
  /\ (IsValid var = true ->
      GetTypeName var = "string"%string ->
      IsArrayType (GetType var) = false ->
      forall depth,
        format_value w process depth var = Ok (Some "None"%string)).
Proof.
  intros Hsum Hlen.
  assert (Hfs : format_string w process var = Ok (Some "None"%string)).
  { unfold format_string. rewrite Hsum, Hlen. simpl.
    by rewrite andb_false_r. }
  split; [done|].
  intros Hv Hname Harr depth.
  destruct depth; simpl; unfold format_value_body;
    by rewrite Hv, Hname, Harr.
Qed.

(** C8, on the code.  A slice whose [len] member reads as [n] and whose
    [data] member reads as the address [base] is rendered from the [n]
    elements at [base + i * element_size], [i] from 0 to [n - 1], each
    formatted by [format_value]: when these render as [rendered], the slice
    renders as [[]T[e0, e1, ...]], where [T] is the alias of the text that
    follows the last [[]] of the slice type name.  For a slice type named
    [[]E] that text is the element type name [E] exactly when [E] itself
    contains no [[]]. *)
Theorem format_slice_renders_elements (depth : nat) (var : SBValue)
    (n base : Z) (rendered : list string) :
  IsValid var = true ->
  Py.startswith "[]" (GetTypeName var) = true ->
  py_int 10 (GetValue (GetChildMemberWithName var "len")) = Ok n ->
  py_int 16 (GetValue (GetChildMemberWithName var "data")) = Ok base ->
  length rendered = Z.to_nat n ->
  (forall (i : nat) e,
      rendered !! i = Some e ->
      format_value w process depth
        (CreateValueFromAddress w ("element_" +:+ pretty i)
           (base
            + Z.of_nat i
              * GetByteSize
                  (GetPointeeType
                     (GetType (GetChildMemberWithName var "data"))))
           (GetPointeeType (GetType (GetChildMemberWithName var "data"))))
      = Ok (Some e)) ->
  format_value w process (S depth) var
  = Ok (Some ("[]"
              +:+ map_type
                    (Py.last (Py.split "[]" (TypeGetName (GetType var))))
              +:+ "[" +:+ Py.join ", " rendered +:+ "]"))
  /\ (forall element_name,
         TypeGetName (GetType var) = "[]" +:+ element_name ->
         Py.last (Py.split "[]" (TypeGetName (GetType var))) = element_name
         <-> Py.contains "[]" element_name = false).
Proof.
  intros Hv Hslice Hlen Hdata Hn Helems. split.
  - simpl. unfold format_value_body. rewrite Hv, Hslice.
    rewrite (format_slice_unfold w (format_value w process depth) var
               n base Hlen Hdata).
    unfold range. rewrite <- Hn, <- (length_fmap Some rendered).
    rewrite map_result_seq.
    + simpl. by rewrite py_join_Some.
    + intros i v Hi. rewrite list_lookup_fmap in Hi.
      destruct (rendered !! i) as [e|] eqn:He; [|done].
      simpl in Hi. injection Hi as <-. by apply Helems.
  - intros element_name ->. split.
    + intros Heq. rewrite <- Heq.
      by apply last_split_has_no_separator.
    + apply split_slice_type_name.
Qed.
End FormatterTheorems.

(* ===================================================================== *)
(** * Properties of the annotation parser *)
(* ===================================================================== *)

Lemma py_for_invariant {A S} (I : S -> Prop) (l : list A)
    (body : A -> S -> result S) (s0 s : S) :
  (forall x s1 s2, I s1 -> body x s1 = Ok s2 -> I s2) ->
  I s0 -> py_for l body s0 = Ok s -> I s.
Proof.
  intros Hbody. revert s0. induction l as [|x l IH]; intros s0 H0; simpl.
  - by intros [= <-].
  - destruct (body x s0) as [s1|] eqn:Hx; [|done].
    apply IH. by eapply Hbody.
Qed.

Section ParserFacts.
Variable source_file : string.
Variable content : list string.

Lemma parse_check_extends (i : nat) (line : string) (tests : list Test) :
  exists new,
    parse_check source_file i line tests = tests ++ new
    /\ (length new <= 1)%nat.
Proof.
  unfold parse_check.
  destruct (Py.split_max _ _ _) as [|var [|value [|]]];
    first [ by exists []; rewrite app_nil_r; simpl; split; [|lia]
          | by eexists; split; [reflexivity|simpl; lia] ].
Qed.

Lemma parse_block_spec (i : nat) (tests : list Test) :
  (i <= fst (parse_block source_file content i tests))%nat
  /\ (forall j,
         (i <= j < fst (parse_block source_file content i tests))%nat ->
         is_comment content j = true)
  /\ is_comment content (fst (parse_block source_file content i tests))
     = false
  /\ exists new,
       snd (parse_block source_file content i tests) = tests ++ new
       /\ (length new
           <= fst (parse_block source_file content i tests) - i)%nat.
Proof.
  funelim (parse_block source_file content i tests).
  - destruct (Py.startswith "//" (Py.strip raw)) eqn:Hc; cbn [negb fst snd].
    + destruct H as (Hge & Hrun & Hstop & new & Hnew & Hlen).
      repeat split; [lia| |done|].
      * intros j Hj. destruct (decide (j = i)) as [->|Hne].
        -- unfold is_comment. by rewrite Hraw.
        -- apply Hrun. lia.
      * destruct (parse_check_extends i (Py.strip raw) tests0)
          as (one & Hone & Hone_len).
        exists (one ++ new). rewrite Hnew, Hone, <- app_assoc.
        split; [done|]. rewrite length_app. rewrite Hone in Hge, Hlen. lia.
    + split; [lia|]. split; [intros j Hj; lia|]. split.
      * unfold is_comment. by rewrite Hraw.
      * exists []. rewrite app_nil_r. simpl. split; [done|lia].
  - cbn [fst snd]. repeat split; [lia| | |].
    + intros j Hj. lia.
    + unfold is_comment.
      match goal with Hn : content !! _ = None |- _ => by rewrite Hn end.
    + exists []. rewrite app_nil_r. simpl. split; [done|lia].
Qed.

(** What [parse_file] appends are blocks of [content] in
    [source_file]. *)
Lemma parse_file_spec (P : TestCase -> Prop) (i : nat)
    (test_cases : list TestCase) :
  (forall tc,
      tc_source_file tc = source_file -> block_of content tc -> P tc) ->
  Forall P test_cases ->
  Forall P (parse_file source_file content i test_cases).
Proof.
  funelim (parse_file source_file content i test_cases);
    intros HP Hacc; [|done].
  destruct (Py.startswith "// Expected:" (Py.strip raw)) eqn:Hm;
    [|by eauto].
  match goal with
  | IH : forall Q, _ -> Forall Q (_ ++ _) -> _ |- _ => apply IH; [done|]
  end.
  apply Forall_app. split; [done|]. apply Forall_singleton.
  apply HP; [done|].
  destruct (parse_block_spec (S i) [])
    as (Hge & Hrun & Hstop & new & Hnew & Hlen).
  exists i, (fst (parse_block source_file content (S i) [])).
  cbn [start_line end_line tests].
  repeat split; [lia| | |done|].
  - unfold is_marker. by rewrite Hraw.
  - intros j Hj. apply Hrun. lia.
  - rewrite Hnew. simpl. lia.
Qed.
End ParserFacts.

(** C5, as the parser has it.  Every parsed [TestCase] spans a marker line
    and the comment lines that follow it: [end_line >= start_line];
    [end_line > start_line] whenever at least one check was parsed;
    [end_line = start_line] exactly when the line after the marker is not a
    comment line (or the file ends there), and the [TestCase] then has no
    check. *)
Theorem parsed_block_line_range (fs : FileSystem)
    (source_files : list string) (test_cases : list TestCase) :
  parse_expected_values fs source_files = Ok test_cases ->
  Forall
    (fun tc =>
       start_line tc <= end_line tc
       /\ (tests tc <> [] -> end_line tc > start_line tc)
       /\ (end_line tc = start_line tc -> tests tc = [])
       /\ exists content,
            fs (tc_source_file tc) = Ok content
            /\ is_marker content (Z.to_nat (start_line tc - 1)) = true
            /\ (end_line tc = start_line tc
                <-> is_comment content (Z.to_nat (start_line tc)) = false))
    test_cases.
Proof.
  unfold parse_expected_values. apply py_for_invariant; [|done].
  intros source_file acc acc' Hacc.
  destruct (fs source_file) as [content|e] eqn:Hfile; [|done].
  intros [= <-]. apply parse_file_spec; [|done].
  intros tc Hsf (i & e & Hstart & Hend & Hlt & Hmark & Hrun & Hstop & Hlen).
  assert (Hempty : end_line tc = start_line tc -> tests tc = []).
  { intros Heq. apply length_zero_iff_nil. lia. }
  repeat split; [lia| |done|].
  - intros Hne. destruct (tests tc); [done|]. simpl in Hlen. lia.
  - exists content. rewrite Hsf. split; [done|].
    replace (Z.to_nat (start_line tc - 1)) with i by lia.
    replace (Z.to_nat (start_line tc)) with (S i) by lia.
    split; [done|]. split.
    + intros Heq. replace (S i) with e by lia. done.
    + intros Hnc. destruct (decide (e = S i)) as [->|Hne]; [lia|].
      rewrite Hrun in Hnc; [done|lia].
Qed.

(* ===================================================================== *)
(** * Properties of the driver *)
(* ===================================================================== *)

Lemma count_if_split {A} (p : A -> bool) (l : list A) :
  count_if p l + count_if (fun x => negb (p x)) l = Z.of_nat (length l).
Proof.
  induction l as [|x l IH]; simpl; [done|].
  destruct (p x); simpl; lia.
Qed.

Lemma checks_recorded_app (l1 l2 : list CaseResult) :
  checks_recorded (l1 ++ l2) = checks_recorded l1 + checks_recorded l2.
Proof.
  induction l1 as [|c l1 IH]; simpl; [done|].
  unfold checks_recorded in *. simpl. rewrite IH. lia.
Qed.

Section DriverFacts.
Context `{Backend}.

(** ** Inversion of the monad *)

Lemma bind_inv {A B} (m : M A) (k : A -> M B) (s s' : Session)
    (r : result B) :
  bind m k s = (r, s') ->
  (exists a s1, m s = (Ok a, s1) /\ k a s1 = (r, s'))
  \/ (exists e, m s = (Raise e, s') /\ r = Raise e).
Proof.
  unfold bind. destruct (m s) as [[a|e] s1]; intros Hk.
  - left. by exists a, s1.
  - right. exists e. by injection Hk as <- <-.
Qed.

Lemma bind_Ok_inv {A B} (m : M A) (k : A -> M B) (s s' : Session) (b : B) :
  bind m k s = (Ok b, s') ->
  exists a s1, m s = (Ok a, s1) /\ k a s1 = (Ok b, s').
Proof.
  intros Hb. apply bind_inv in Hb as [Hok|(e & _ & He)]; [done|done].
Qed.

Lemma emits_ret {A} P (a : A) : emits P (ret a).
Proof.
  intros s r s' [= <- <-]. exists []. by rewrite app_nil_r.
Qed.

Lemma emits_raise {A} P (e : exn) : emits P (raise (A := A) e).
Proof.
  intros s r s' [= <- <-]. exists []. by rewrite app_nil_r.
Qed.

Lemma emits_bind {A B} P (m : M A) (k : A -> M B) :
  emits P m -> (forall a, emits P (k a)) -> emits P (bind m k).
Proof.
  intros Hm Hk s r s' Hb.
  apply bind_inv in Hb as [(a & s1 & H1 & H2)|(e & H1 & _)].
  - apply Hm in H1 as (new1 & H1 & HP1).
    apply Hk in H2 as (new2 & H2 & HP2).
    rewrite H1, <- app_assoc in H2.
    exists (new1 ++ new2). split; [done|]. by apply Forall_app.
  - by apply Hm in H1.
Qed.

Lemma emits_call P (e : event) (f : World -> World) :
  P e -> emits P (call e f).
Proof.
  intros HP s r s' [= <- <-]. exists [e]. simpl. split; [done|].
  by apply Forall_singleton.
Qed.

Lemma emits_on_frame {A} P (f : World -> SBProcess -> result A) :
  emits P (on_frame f).
Proof.
  intros s r s'. unfold on_frame.
  destruct (process s); intros [= <- <-]; exists [];
    by rewrite app_nil_r.
Qed.

Lemma emits_lift {A} P (r : result A) : emits P (lift r).
Proof.
  intros s r' s' [= <- <-]. exists []. by rewrite app_nil_r.
Qed.

Lemma emits_launch P : P EvLaunch -> emits P launch.
Proof.
  intros HP s r s'. unfold launch.
  destruct (LaunchSimple (world s)) as [p w'].
  intros [= <- <-]. exists [EvLaunch]. simpl. split; [done|].
  by apply Forall_singleton.
Qed.

Lemma emits_weaken {A} (P Q : event -> Prop) (m : M A) :
  (forall e, P e -> Q e) -> emits P m -> emits Q m.
Proof.
  intros HPQ Hm s r s' Hrun. apply Hm in Hrun as (new & Hnew & HP).
  exists new. split; [done|]. eapply Forall_impl; eauto.
Qed.

Lemma console_loop_emits (inputs : list console_input) (w : World)
    (log : list event) :
  exists new,
    snd (console_loop inputs w log) = log ++ new
    /\ Forall session_event new.
Proof.
  revert w log. induction inputs as [|input rest IH]; intros w log.
  - exists []. by rewrite app_nil_r.
  - destruct input as [text| | | |text sent|]; simpl;
      try (exists []; by rewrite app_nil_r).
    + destruct (bool_decide _); [exists []; by rewrite app_nil_r|].
      destruct (IH (InterpreterHandleCommand (Py.strip text) w)
                  (log ++ [EvInterpreterCommand (Py.strip text)]))
        as (new & Hnew & HP).
      exists (EvInterpreterCommand (Py.strip text) :: new).
      rewrite Hnew, <- app_assoc. split; [done|].
      apply Forall_cons. by split.
    + destruct (_ || _); [exists []; by rewrite app_nil_r|].
      exists [EvInterpreterCommand (Py.strip text)]. simpl.
      split; [done|]. by apply Forall_singleton.
Qed.

Lemma run_console_emits : emits session_event run_console.
Proof.
  unfold run_console.
  repeat (apply emits_bind; [by apply emits_call|intros _]).
  intros s r s'.
  pose proof (console_loop_emits (stdin s) (world s) (calls s))
    as (new & Hnew & HP).
  destruct (console_loop (stdin s) (world s) (calls s))
    as [[[c rest] w'] log].
  intros [= <- <-]. by exists new.
Qed.

Lemma run_to_breakpoint_emits : emits session_event run_to_breakpoint.
Proof.
  unfold run_to_breakpoint. apply emits_bind.
  - intros s r s'. destruct (process s) as [p|].
    + destruct (process_truthy s).
      * by apply emits_call.
      * by apply emits_launch.
    + by apply emits_launch.
  - intros _. apply emits_bind; [apply emits_on_frame|intros st].
    destruct (bool_decide _); [apply emits_raise|apply emits_ret].
Qed.

Lemma restore_process_emits : emits session_event restore_process.
Proof.
  unfold restore_process.
  apply emits_bind; [apply emits_on_frame|intros st].
  destruct (bool_decide (st = eStateRunning)).
  - intros s r s'. destruct (process s) as [p|].
    + by apply emits_call.
    + intros [= <- <-]. exists []. by rewrite app_nil_r.
  - destruct (bool_decide _); [by apply emits_launch|apply emits_ret].
Qed.

Variable executable_path : string.
Variable plugin_path : pystr.
Variable depth : nat.
Variable repr_set : gset pystr -> string.

Lemma set_breakpoint_log (file : string) (line : Z) (s s' : Session)
    (r : result SBBreakpoint) :
  set_breakpoint file line s = (r, s') ->
  exists id,
    calls s' = calls s ++ [EvBreakpointCreate file line id]
    /\ (forall b, r = Ok b -> BreakpointGetID b = id).
Proof.
  unfold set_breakpoint. intros Hb.
  apply bind_inv in Hb as [(b & s1 & H1 & H2)|(e & H1 & _)].
  - destruct (BreakpointCreateByLocation file line (world s)) as [b' w'].
    injection H1 as <- <-. exists (BreakpointGetID b').
    destruct (negb _); injection H2 as <- <-; simpl;
      (split; [done|]); [done|by intros ? [= <-]].
  - by destruct (BreakpointCreateByLocation file line (world s)).
Qed.

(** One iteration: the breakpoint is created first; the iteration goes on
    to the next case only through the deletion of that breakpoint, and an
    abort in the console leaves the loop without deleting it.  The summary
    gains exactly one case. *)
Lemma execute_tests_body_spec (interactive : bool) (test_case : TestCase)
    (results results' : TestResults) (x : loop_exit) (s s' : Session) :
  execute_tests_body depth repr_set interactive test_case results s
  = (Ok (x, results'), s') ->
  (exists case_result, results' = add_case_result results case_result)
  /\ (x = LoopBreak -> interactive = true)
  /\ exists id mid,
       Forall session_event mid
       /\ calls s'
          = calls s
            ++ EvBreakpointCreate (tc_source_file test_case)
                 (end_line test_case) id
               :: mid
            ++ match x with
               | LoopNext => [EvBreakpointDelete id]
               | LoopBreak => []
               end.
Proof.
  unfold execute_tests_body. intros Hrun.
  apply bind_Ok_inv in Hrun as (bp & s1 & Hbp & Hrun).
  apply set_breakpoint_log in Hbp as (id & Hlog1 & Hid).
  specialize (Hid bp eq_refl). subst id.
  apply bind_Ok_inv in Hrun as ([] & s2 & Hrtb & Hrun).
  apply run_to_breakpoint_emits in Hrtb as (new2 & Hlog2 & HP2).
  apply bind_Ok_inv in Hrun as (fn & s3 & Hfn & Hrun).
  apply (emits_on_frame session_event) in Hfn as (new3 & Hlog3 & HP3).
  apply bind_Ok_inv in Hrun as (names & s4 & Hnames & Hrun).
  apply (emits_on_frame session_event) in Hnames as (new4 & Hlog4 & HP4).
  apply bind_Ok_inv in Hrun as (cr & s5 & Hcr & Hrun).
  apply (emits_on_frame session_event) in Hcr as (new5 & Hlog5 & HP5).
  assert (Hpre : exists pre,
             Forall session_event pre
             /\ calls s5
                = calls s
                  ++ EvBreakpointCreate (tc_source_file test_case)
                       (end_line test_case) (BreakpointGetID bp) :: pre).
  { exists (new2 ++ new3 ++ new4 ++ new5).
    split; [by repeat (apply Forall_app; split)|].
    rewrite Hlog5, Hlog4, Hlog3, Hlog2, Hlog1.
    by rewrite <- !app_assoc. }
  clear Hlog1 Hlog2 Hlog3 Hlog4 Hlog5 HP2 HP3 HP4 HP5.
  destruct Hpre as (pre & HPpre & Hpre).
  apply bind_Ok_inv in Hrun as ([] & s5' & Hprint & Hrun).
  injection Hprint as _ <-.
  destruct (interactive && _) eqn:Hi.
  - apply bind_Ok_inv in Hrun as (cont & s6 & Hcon & Hrun).
    apply run_console_emits in Hcon as (new6 & Hlog6 & HP6).
    destruct cont; simpl in Hrun.
    + apply bind_Ok_inv in Hrun as ([] & s7 & Hres & Hrun).
      apply restore_process_emits in Hres as (new7 & Hlog7 & HP7).
      apply bind_Ok_inv in Hrun as ([] & s8 & Hdel & Hrun).
      injection Hdel as <-. injection Hrun as <- <- <-.
      split; [by exists cr|]. split; [done|].
      exists (BreakpointGetID bp), (pre ++ new6 ++ new7).
      split; [by repeat (apply Forall_app; split)|].
      simpl. rewrite Hlog7, Hlog6, Hpre.
      by rewrite <- !app_assoc.
    + injection Hrun as <- <- <-.
      split; [by exists cr|].
      split; [intros _; by apply andb_true_iff in Hi as [-> _]|].
      exists (BreakpointGetID bp), (pre ++ new6).
      split; [by apply Forall_app|].
      rewrite Hlog6, Hpre, app_nil_r. by rewrite <- !app_assoc.
  - apply bind_Ok_inv in Hrun as ([] & s8 & Hdel & Hrun).
    injection Hdel as <-. injection Hrun as <- <- <-.
    split; [by exists cr|]. split; [done|].
    exists (BreakpointGetID bp), pre. split; [done|].
    simpl. rewrite Hpre. by rewrite <- !app_assoc.
Qed.
(** ** The calls of an iteration, however it ends *)

Lemma emits_then_ret {A} P (last : result A -> list event) (a : A) :
  last (Ok a) = [] -> emits_then P last (ret a).
Proof.
  intros Hlast s r s' [= <- <-]. exists []. by rewrite Hlast, !app_nil_r.
Qed.

Lemma emits_then_bind {A B} P (last : result B -> list event) (m : M A)
    (k : A -> M B) :
  (forall e, last (Raise e) = []) ->
  emits P m -> (forall a, emits_then P last (k a)) ->
  emits_then P last (bind m k).
Proof.
  intros Hlast Hm Hk s r s' Hb.
  apply bind_inv in Hb as [(a & s1 & H1 & H2)|(e & H1 & ->)].
  - apply Hm in H1 as (new1 & H1 & HP1).
    apply Hk in H2 as (mid & HP2 & H2).
    exists (new1 ++ mid). split; [by apply Forall_app|].
    rewrite H2, H1. by rewrite <- !app_assoc.
  - apply Hm in H1 as (new1 & H1 & HP1).
    exists new1. by rewrite Hlast, app_nil_r.
Qed.

Lemma emits_then_call {A} P (last : result A -> list event) (e : event)
    (f : World -> World) (a : A) :
  last (Ok a) = [e] -> emits_then P last (bind (call e f) (fun _ => ret a)).
Proof.
  intros Hlast s r s' [= <- <-]. exists []. by rewrite Hlast.
Qed.

Lemma execute_tests_body_log (interactive : bool) (test_case : TestCase)
    (results : TestResults) (r : result (loop_exit * TestResults))
    (s s' : Session) :
  execute_tests_body depth repr_set interactive test_case results s
  = (r, s') ->
  exists id mid,
    Forall session_event mid
    /\ calls s'
       = calls s
         ++ EvBreakpointCreate (tc_source_file test_case)
              (end_line test_case) id
            :: mid ++ deletion_after id r.
Proof.
  unfold execute_tests_body. intros Hrun.
  apply bind_inv in Hrun as [(bp & s1 & Hbp & Hrun)|(e & Hbp & ->)].
  2:{ apply set_breakpoint_log in Hbp as (id & Hlog & _).
      exists id, []. split; [constructor|]. by rewrite Hlog. }
  apply set_breakpoint_log in Hbp as (id & Hlog1 & Hid).
  specialize (Hid bp eq_refl). subst id.
  match type of Hrun with
  | ?rest s1 = _ =>
      assert (Hrest : emits_then session_event
                (deletion_after (BreakpointGetID bp)) rest)
  end.
  { apply emits_then_bind; [done|apply run_to_breakpoint_emits|intros _].
    apply emits_then_bind; [done|apply emits_on_frame|intros fn].
    apply emits_then_bind; [done|apply emits_on_frame|intros names].
    apply emits_then_bind; [done|apply emits_on_frame|intros cr].
    apply emits_then_bind; [done|apply emits_lift|intros _].
    destruct (_ && _).
    - apply emits_then_bind; [done|apply run_console_emits|intros cont].
      destruct cont; simpl; [|by apply emits_then_ret].
      apply emits_then_bind; [done|apply restore_process_emits|intros _].
      by apply emits_then_call.
    - by apply emits_then_call. }
  apply Hrest in Hrun as (mid & HP & Hlog).
  exists (BreakpointGetID bp), mid. split; [done|].
  rewrite Hlog, Hlog1. by rewrite <- !app_assoc.
Qed.
End DriverFacts.

Lemma breakpoint_calls_session (log : list event) :
  Forall session_event log -> breakpoint_calls log = [].
Proof.
  induction 1 as [|e log [He _] _ IH]; [done|].
  unfold breakpoint_calls in *. simpl. by rewrite He.
Qed.

Lemma add_case_result_consistent (results : TestResults)
    (case_result : CaseResult) :
  summary_consistent results ->
  summary_consistent (add_case_result results case_result).
Proof.
  intros [Hsum Hrec]. unfold summary_consistent, add_case_result. simpl.
  pose proof (count_if_split is_pass (cr_results case_result)).
  rewrite checks_recorded_app. unfold checks_recorded at 2. simpl.
  split; lia.
Qed.

(** ** What a run can raise *)

Lemma run_exn_is_exception (e : exn) : run_exn e -> is_exception e = true.
Proof. intros [[msg ->]|[->|[->|[->| ->]]]]; done. Qed.

Lemma not_exception (e : exn) : is_exception e = false -> e = KeyboardInterrupt.
Proof. by destruct e. Qed.

Section RaiseFacts.
Context `{Backend}.

Lemma raises_ret {A} P (a : A) : raises P (ret a).
Proof. by intros s e s' [=]. Qed.

Lemma raises_raise {A} (P : exn -> Prop) (e : exn) :
  P e -> raises P (raise (A := A) e).
Proof. by intros HP s e' s' [= <- _]. Qed.

Lemma raises_bind {A B} P (m : M A) (k : A -> M B) :
  raises P m -> (forall a, raises P (k a)) -> raises P (bind m k).
Proof.
  intros Hm Hk s e s' Hb.
  apply bind_inv in Hb as [(a & s1 & _ & H2)|(e' & H1 & [= ->])].
  - by eapply Hk.
  - by eapply Hm.
Qed.

Lemma raises_call P (e : event) (f : World -> World) : raises P (call e f).
Proof. by intros s e' s' [=]. Qed.

Lemma raises_lift {A} P (r : result A) : raises_only P r -> raises P (lift r).
Proof. intros Hr s e s' [= -> _]. exact Hr. Qed.

Lemma raises_on_frame {A} (P : exn -> Prop)
    (f : World -> SBProcess -> result A) :
  P AttributeError -> (forall w p, raises_only P (f w p)) ->
  raises P (on_frame f).
Proof.
  intros HP Hf s e s'. unfold on_frame. destruct (process s) as [p|].
  - intros [= Hr _]. specialize (Hf (world s) p). by rewrite Hr in Hf.
  - by intros [= <- _].
Qed.

Lemma raises_launch P : raises P launch.
Proof.
  intros s e s'. unfold launch. by destruct (LaunchSimple (world s)).
Qed.

Lemma raises_weaken {A} (P Q : exn -> Prop) (m : M A) :
  (forall e, P e -> Q e) -> raises P m -> raises Q m.
Proof. intros HPQ Hm s e s' Hrun. apply HPQ. by eapply Hm. Qed.

Lemma set_breakpoint_raises (file : string) (line : Z) :
  raises run_exn (set_breakpoint file line).
Proof.
  unfold set_breakpoint. apply raises_bind.
  - intros s e s'.
    by destruct (BreakpointCreateByLocation file line (world s)).
  - intros b. destruct (negb _); [|apply raises_ret].
    apply raises_raise. left. by eexists.
Qed.

Lemma run_to_breakpoint_raises : raises run_exn run_to_breakpoint.
Proof.
  unfold run_to_breakpoint. apply raises_bind.
  - intros s e s'. destruct (process s) as [p|].
    + destruct (process_truthy s); [apply raises_call|apply raises_launch].
    + apply raises_launch.
  - intros _. apply raises_bind.
    + apply raises_on_frame; [right; by left|done].
    + intros st. destruct (bool_decide _); [|apply raises_ret].
      apply raises_raise. left. by eexists.
Qed.

Lemma restore_process_raises : raises run_exn restore_process.
Proof.
  unfold restore_process. apply raises_bind.
  - apply raises_on_frame; [right; by left|done].
  - intros st. destruct (bool_decide (st = eStateRunning)).
    + intros s e s'. destruct (process s) as [p|].
      * apply raises_call.
      * intros [= <- _]. right. by left.
    + destruct (bool_decide _); [apply raises_launch|apply raises_ret].
Qed.

Lemma console_loop_raises (inputs : list console_input) (w : World)
    (log : list event) :
  raises_only (fun e => e = KeyboardInterrupt)
    (console_loop inputs w log).1.1.1.
Proof.
  revert w log. induction inputs as [|input rest IH]; intros w log; [done|].
  destruct input as [text| | | |text sent|]; simpl; try done.
  - destruct (bool_decide _); [done|apply IH].
  - by destruct (_ || _).
Qed.

Lemma run_console_raises :
  raises (fun e => e = KeyboardInterrupt) run_console.
Proof.
  unfold run_console.
  do 3 (apply raises_bind; [apply raises_call|intros _]).
  intros s e s'.
  pose proof (console_loop_raises (stdin s) (world s) (calls s)) as Hr.
  destruct (console_loop (stdin s) (world s) (calls s))
    as [[[c rest] w'] log].
  intros [= -> _]. exact Hr.
Qed.

Lemma setup_raises (executable_path : string) (plugin_path : pystr) :
  raises run_exn (setup executable_path plugin_path).
Proof.
  unfold setup. apply raises_bind.
  - destruct plugin_path as [path|]; [|apply raises_ret].
    destruct (Py.truthy path); [apply raises_call|apply raises_ret].
  - intros _. apply raises_bind.
    + intros s e s'. by destruct (CreateTarget executable_path (world s)).
    + intros t. destruct (negb t); [|apply raises_ret].
      apply raises_raise. left. by eexists.
Qed.

Lemma execute_test_case_raises (w : World) (p : SBProcess) (depth : nat)
    (test_case : TestCase) (names : gset pystr) :
  raises_only formatter_exn (execute_test_case w p depth test_case names).
Proof.
  unfold execute_test_case.
  apply raises_only_rbind; [|done].
  apply raises_only_py_for. intros check results.
  apply raises_only_rbind; [|done].
  unfold execute_check. destruct (bool_decide _); [done|].
  unfold execute_single_variable_test.
  apply raises_only_rbind.
  - apply format_value_raises.
  - intros [v|]; [|done]. by destruct (bool_decide _).
Qed.
End RaiseFacts.

(** Printing raises nothing but [TypeError]. *)
Lemma raises_only_py_sorted (l : list pystr) :
  raises_only (fun e => e = TypeError) (py_sorted l).
Proof.
  unfold py_sorted. destruct (all_str l); [done|].
  by destruct (bool_decide _).
Qed.

Lemma raises_only_wbind {A B} (P : exn -> Prop) (m : W A) (k : A -> W B) :
  (forall out, raises_only P (m out).1) ->
  (forall a out, raises_only P (k a out).1) ->
  forall out, raises_only P (wbind m k out).1.
Proof.
  intros Hm Hk out. unfold wbind. specialize (Hm out).
  destruct (m out) as [[a|e] out']; [apply Hk|done].
Qed.

Lemma raises_only_wfor {A} (P : exn -> Prop) (l : list A)
    (body : A -> W unit) :
  (forall x out, raises_only P (body x out).1) ->
  forall out, raises_only P (wfor l body out).1.
Proof.
  intros Hbody. induction l as [|x l IH]; [done|].
  cbn [wfor]. apply raises_only_wbind; [apply Hbody|intros _; apply IH].
Qed.

Section PrintFacts.
Variable repr_set : gset pystr -> string.

Lemma log_names_raises (label : string) (names : result (list pystr)) :
  raises_only (fun e => e = TypeError) names ->
  forall out,
    raises_only (fun e => e = TypeError) (log_names label names out).1.
Proof.
  intros Hnames. unfold log_names.
  apply raises_only_wbind; [done|intros l].
  apply raises_only_wbind; [|done].
  intros out. unfold wlift, py_join. simpl. by destruct (all_str l).
Qed.

Lemma sorted_actual_raises (actual : option actual_value) :
  raises_only (fun e => e = TypeError) (sorted_actual actual).
Proof.
  destruct actual as [[text|names]|]; simpl; [| |done];
    apply raises_only_py_sorted.
Qed.

Lemma sorted_names_raises (x : option (gset pystr)) :
  raises_only (fun e => e = TypeError) (sorted_names x).
Proof. destruct x; simpl; [apply raises_only_py_sorted|done]. Qed.

Lemma print_test_result_raises (r : TestResult) (verbose : bool)
    (out : list string) :
  raises_only (fun e => e = TypeError)
    (print_test_result repr_set r verbose out).1.
Proof.
  revert out. unfold print_test_result.
  destruct (is_pass r).
  - destruct verbose; [|done]. cbn [wwhen].
    apply raises_only_wbind; [done|intros _].
    destruct (bool_decide _); [|done].
    apply log_names_raises, sorted_actual_raises.
  - apply raises_only_wbind; [done|intros _].
    destruct (bool_decide _).
    + apply raises_only_wbind.
      { destruct (set_truthy _); [|done].
        apply log_names_raises, sorted_names_raises. }
      intros _. apply raises_only_wbind.
      { destruct (set_truthy _); [|done].
        apply log_names_raises, sorted_names_raises. }
      intros _. apply raises_only_wbind; [done|intros _].
      apply log_names_raises, sorted_actual_raises.
    + destruct (bool_decide _); [done|].
      by apply raises_only_wbind.
Qed.

Lemma print_case_result_raises (case_result : CaseResult) :
  raises_only formatter_exn
    (outcome_of (print_case_result repr_set case_result)).
Proof.
  unfold outcome_of, print_case_result.
  apply (raises_only_wbind formatter_exn); [done|intros _].
  apply raises_only_wfor. intros r out.
  pose proof (print_test_result_raises r true out) as Hr.
  destruct (print_test_result repr_set r true out).1; [done|].
  simpl in *. subst. by left.
Qed.
End PrintFacts.

Section DriverTheorems.
Context `{Backend}.
Variable executable_path : string.
Variable plugin_path : pystr.
Variable depth : nat.
Variable repr_set : gset pystr -> string.

Lemma execute_tests_loop_spec (interactive : bool)
    (test_cases : list TestCase) (results results' : TestResults)
    (s s' : Session) :
  execute_tests_loop depth repr_set interactive test_cases results s
  = (Ok results', s') ->
  (summary_consistent results -> summary_consistent results')
  /\ exists new,
       calls s' = calls s ++ new
       /\ bracketed (breakpoint_calls new)
       /\ (interactive = false -> paired (breakpoint_calls new)).
Proof.
  revert results s. induction test_cases as [|tc rest IH];
    intros results s Hrun; simpl in Hrun.
  - injection Hrun as <- <-. split; [done|].
    exists []. rewrite app_nil_r. repeat split; constructor.
  - apply bind_Ok_inv in Hrun as ([x results1] & s1 & Hbody & Hrun).
    apply execute_tests_body_spec in Hbody
      as ((cr & ->) & Hbreak & id & mid & Hmid & Hlog).
    apply breakpoint_calls_session in Hmid.
    destruct x.
    + apply IH in Hrun as (Hcons & new & Hnew & Hbr & Hpair).
      split; [by auto using add_case_result_consistent|].
      exists (EvBreakpointCreate (tc_source_file tc) (end_line tc) id
                :: mid ++ [EvBreakpointDelete id] ++ new).
      split.
      { rewrite Hnew, Hlog. log_eq. }
      unfold breakpoint_calls in *. simpl.
      rewrite List.filter_app, Hmid. simpl.
      split; [by constructor|]. intros Hi. constructor. by apply Hpair.
    + injection Hrun as <- <-.
      split; [by auto using add_case_result_consistent|].
      exists (EvBreakpointCreate (tc_source_file tc) (end_line tc) id
                :: mid).
      rewrite app_nil_r in Hlog. split; [done|].
      unfold breakpoint_calls in *. simpl. rewrite Hmid.
      split; [constructor|]. intros Hi.
      specialize (Hbreak eq_refl). congruence.
Qed.

(** C6. Whenever [execute_tests] returns a summary (after all cases, after
    no case at all, or after an abort in the console), [total] is
    [passed + failed] and is the number of check outcomes in the recorded
    cases; with no test case the summary is all zeros and the session is
    untouched. *)
Theorem execute_tests_summary_consistent (test_cases : list TestCase)
    (interactive : bool) (results : TestResults) (s s' : Session) :
  execute_tests depth repr_set test_cases interactive s = (Ok results, s') ->
  total results = passed results + failed results
  /\ total results = checks_recorded (case_results results)
  /\ (test_cases = [] -> results = mkTestResults 0 0 0 [] /\ s' = s).
Proof.
  unfold execute_tests. intros Hrun.
  pose proof Hrun as Hspec.
  apply execute_tests_loop_spec in Hspec as [Hcons _].
  destruct Hcons as [Hsum Hrec]; [by split|].
  split; [done|]. split; [done|].
  intros ->. simpl in Hrun. by injection Hrun as <- <-.
Qed.

Lemma paired_bracketed (l : list event) : paired l -> bracketed l.
Proof. induction 1; by constructor. Qed.

Lemma last_left_cons (file : string) (line id : Z) (l : list event) :
  last_left l ->
  last_left (EvBreakpointCreate file line id :: EvBreakpointDelete id :: l).
Proof.
  intros (pre & f & n & i & -> & Hpre).
  exists (EvBreakpointCreate file line id :: EvBreakpointDelete id :: pre),
    f, n, i.
  split; [done|by constructor].
Qed.

(** The breakpoint calls of the loop, however it ends. *)
Lemma execute_tests_loop_log (interactive : bool)
    (test_cases : list TestCase) (results : TestResults)
    (r : result TestResults) (s s' : Session) :
  execute_tests_loop depth repr_set interactive test_cases results s
  = (r, s') ->
  exists new,
    calls s' = calls s ++ new
    /\ bracketed (breakpoint_calls new)
    /\ (interactive = false ->
        (exists results', r = Ok results') ->
        paired (breakpoint_calls new))
    /\ (forall e, r = Raise e -> last_left (breakpoint_calls new)).
Proof.
  revert results s. induction test_cases as [|tc rest IH];
    intros results s Hrun; simpl in Hrun.
  - injection Hrun as <- <-. exists []. rewrite app_nil_r.
    split_and!; [done|constructor|intros; constructor|done].
  - apply bind_inv in Hrun as [([x results1] & s1 & Hbody & Hrun)
                               |(e & Hbody & ->)].
    + pose proof Hbody as Hlog.
      apply execute_tests_body_log in Hlog as (id & mid & Hmid & Hlog).
      apply breakpoint_calls_session in Hmid.
      apply execute_tests_body_spec in Hbody as (_ & Hbreak & _).
      destruct x; simpl in Hlog.
      * apply IH in Hrun as (new & Hnew & Hbr & Hpair & Hleft).
        exists (EvBreakpointCreate (tc_source_file tc) (end_line tc) id
                  :: mid ++ [EvBreakpointDelete id] ++ new).
        split.
        { rewrite Hnew, Hlog. log_eq. }
        unfold breakpoint_calls in *. simpl.
        rewrite List.filter_app, Hmid. simpl.
        split_and!.
        -- by constructor.
        -- intros Hi Hok. constructor. by apply Hpair.
        -- intros e He. apply last_left_cons. by apply (Hleft e).
      * injection Hrun as <- <-.
        exists (EvBreakpointCreate (tc_source_file tc) (end_line tc) id
                  :: mid).
        rewrite app_nil_r in Hlog. split; [done|].
        unfold breakpoint_calls in *. simpl. rewrite Hmid.
        split_and!; [constructor| |done].
        intros Hi. specialize (Hbreak eq_refl). congruence.
    + apply execute_tests_body_log in Hbody as (id & mid & Hmid & Hlog).
      apply breakpoint_calls_session in Hmid.
      simpl in Hlog. rewrite app_nil_r in Hlog.
      exists (EvBreakpointCreate (tc_source_file tc) (end_line tc) id
                :: mid).
      split; [done|].
      unfold breakpoint_calls in *. simpl. rewrite Hmid.
      split_and!; [constructor|by intros _ [? [=]]|].
      intros _ _. exists [], (tc_source_file tc), (end_line tc), id.
      split; [done|constructor].
Qed.

(** C4, as the orchestrator has it.  An iteration of the loop of
    [execute_tests] first sets the breakpoint of its case.  It goes on to
    the next case (or to the end of the loop) only after deleting that
    breakpoint, which is its last call, whether or not the console ran;
    when the user aborts in the console, and when the iteration raises, the
    loop is left at once and the breakpoint is not deleted.  So over a
    whole run each breakpoint is deleted before the next one is set; a run
    that returns without interactive mode leaves none, and a run that
    raises leaves the breakpoint of the case at which it raised. *)
Theorem breakpoint_deleted_unless_aborted (interactive : bool) :
  (forall test_case results r s s',
      execute_tests_body depth repr_set interactive test_case results s
      = (r, s') ->
      exists id mid,
        breakpoint_calls mid = []
        /\ calls s'
           = calls s
             ++ EvBreakpointCreate (tc_source_file test_case)
                  (end_line test_case) id
                :: mid
             ++ match r with
                | Ok (LoopNext, _) => [EvBreakpointDelete id]
                | Ok (LoopBreak, _) | Raise _ => []
                end)
  /\ (forall test_cases r s s',
         execute_tests depth repr_set test_cases interactive s = (r, s') ->
         exists new,
           calls s' = calls s ++ new
           /\ bracketed (breakpoint_calls new)
           /\ (interactive = false ->
               (exists results, r = Ok results) ->
               paired (breakpoint_calls new))
           /\ (forall e, r = Raise e -> last_left (breakpoint_calls new))).
Proof.
  split.
  - intros test_case results r s s' Hrun.
    apply execute_tests_body_log in Hrun as (id & mid & Hmid & Hlog).
    exists id, mid. split; [by apply breakpoint_calls_session|done].
  - intros test_cases r s s' Hrun.
    by apply execute_tests_loop_log in Hrun.
Qed.

(** ** The log of a whole run *)

Lemma session_event_not_cleanup (e : event) :
  session_event e -> not_cleanup e.
Proof. by intros (_ & Hc & _). Qed.

Lemma set_breakpoint_emits (file : string) (line : Z) :
  emits not_cleanup (set_breakpoint file line).
Proof.
  unfold set_breakpoint. apply emits_bind.
  - intros s r s'.
    destruct (BreakpointCreateByLocation file line (world s)) as [b w'].
    intros [= <- <-]. eexists. split; [done|].
    by apply Forall_singleton.
  - intros b. destruct (negb _); [apply emits_raise|apply emits_ret].
Qed.

Lemma execute_tests_body_emits (interactive : bool) (test_case : TestCase)
    (results : TestResults) :
  emits not_cleanup
    (execute_tests_body depth repr_set interactive test_case results).
Proof.
  unfold execute_tests_body.
  apply emits_bind; [apply set_breakpoint_emits|intros bp].
  apply emits_bind;
    [eapply emits_weaken;
     [apply session_event_not_cleanup|apply run_to_breakpoint_emits]
    |intros _].
  do 3 (apply emits_bind; [apply emits_on_frame|intros ?]).
  apply emits_bind; [apply emits_lift|intros _].
  destruct (_ && _).
  - apply emits_bind;
      [eapply emits_weaken;
       [apply session_event_not_cleanup|apply run_console_emits]
      |intros cont].
    destruct cont; simpl; [|apply emits_ret].
    apply emits_bind;
      [eapply emits_weaken;
       [apply session_event_not_cleanup|apply restore_process_emits]
      |intros _].
    apply emits_bind; [by apply emits_call|intros _]. apply emits_ret.
  - apply emits_bind; [by apply emits_call|intros _]. apply emits_ret.
Qed.

Lemma execute_tests_emits (test_cases : list TestCase) (interactive : bool) :
  emits not_cleanup (execute_tests depth repr_set test_cases interactive).
Proof.
  unfold execute_tests. generalize (mkTestResults 0 0 0 []).
  induction test_cases as [|tc rest IH]; intros results; simpl.
  - apply emits_ret.
  - apply emits_bind; [apply execute_tests_body_emits|].
    intros [[] results1]; [apply IH|apply emits_ret].
Qed.

Lemma setup_emits : emits not_cleanup (setup executable_path plugin_path).
Proof.
  unfold setup. apply emits_bind.
  - destruct plugin_path as [path|]; [|apply emits_ret].
    destruct (Py.truthy path); [by apply emits_call|apply emits_ret].
  - intros _. apply emits_bind.
    + intros s r s'.
      destruct (CreateTarget executable_path (world s)) as [t w'].
      intros [= <- <-]. eexists. split; [done|].
      by apply Forall_singleton.
    + intros t. destruct (negb t); [apply emits_raise|apply emits_ret].
Qed.

Lemma run_tests_try_emits (test_cases : list TestCase) (interactive : bool) :
  emits not_cleanup
    (run_tests_try executable_path plugin_path depth repr_set test_cases
       interactive).
Proof.
  unfold run_tests_try.
  apply emits_bind; [apply setup_emits|intros _].
  apply emits_bind; [apply execute_tests_emits|intros results].
  apply emits_ret.
Qed.

(** [cleanup] ends with the destruction of the debugger. *)
Lemma cleanup_log (s : Session) :
  exists kill,
    calls (snd (cleanup s)) = calls s ++ kill ++ [EvDestroy]
    /\ (kill = [] \/ kill = [EvKill]).
Proof.
  unfold cleanup, bind. destruct (process s) as [p|].
  - destruct (ProcessIsValid (world s) p); simpl.
    + exists [EvKill]. rewrite <- app_assoc. auto.
    + exists []. auto.
  - exists []. auto.
Qed.

Lemma execute_tests_body_raises (interactive : bool) (test_case : TestCase)
    (results : TestResults) :
  raises (fun e => run_exn e \/ interactive = true /\ e = KeyboardInterrupt)
    (execute_tests_body depth repr_set interactive test_case results).
Proof.
  assert (Hweak : forall A (m : M A),
             raises run_exn m ->
             raises
               (fun e =>
                  run_exn e \/ interactive = true /\ e = KeyboardInterrupt)
               m).
  { intros A m. apply raises_weaken. by left. }
  unfold execute_tests_body.
  apply raises_bind; [apply Hweak, set_breakpoint_raises|intros bp].
  apply raises_bind; [apply Hweak, run_to_breakpoint_raises|intros _].
  apply raises_bind;
    [apply Hweak, raises_on_frame; [right; by left|done]|intros fn].
  apply raises_bind;
    [apply Hweak, raises_on_frame; [right; by left|done]|intros names].
  apply raises_bind.
  { apply Hweak, raises_on_frame; [right; by left|]. intros w p.
    pose proof (execute_test_case_raises w p depth test_case names) as Hr.
    destruct (execute_test_case _ _ _ _ _); [done|]. right. by right. }
  intros cr. apply raises_bind.
  { apply Hweak, raises_lift.
    pose proof (print_case_result_raises repr_set cr) as Hr.
    destruct (outcome_of _); [done|]. right. by right. }
  intros _. destruct interactive; cbn [andb].
  - destruct (existsb _ _).
    + apply raises_bind.
      { eapply raises_weaken; [|apply run_console_raises].
        intros e ->. by right. }
      intros cont. destruct cont; simpl; [|apply raises_ret].
      apply raises_bind; [apply Hweak, restore_process_raises|intros _].
      apply raises_bind; [apply raises_call|intros _]. apply raises_ret.
    + apply raises_bind; [apply raises_call|intros _]. apply raises_ret.
  - apply raises_bind; [apply raises_call|intros _]. apply raises_ret.
Qed.

Lemma run_tests_try_raises (test_cases : list TestCase)
    (interactive : bool) :
  raises (fun e => run_exn e \/ interactive = true /\ e = KeyboardInterrupt)
    (run_tests_try executable_path plugin_path depth repr_set test_cases
       interactive).
Proof.
  unfold run_tests_try. apply raises_bind.
  { eapply raises_weaken; [|apply setup_raises]. by left. }
  intros _. apply raises_bind; [|intros results; apply raises_ret].
  unfold execute_tests. generalize (mkTestResults 0 0 0 []).
  induction test_cases as [|tc rest IH]; intros results; simpl.
  - apply raises_ret.
  - apply raises_bind; [apply execute_tests_body_raises|].
    intros [[] results1]; [apply IH|apply raises_ret].
Qed.

(** [setup] fails exactly when no target can be created. *)
Lemma setup_fails (s : Session) :
  fst (CreateTarget executable_path (world_at_target plugin_path (world s)))
  = false ->
  fst (setup executable_path plugin_path s)
  = Raise (Exception ("Failed to create target for " +:+ executable_path)).
Proof.
  unfold setup, world_at_target, bind, call, ret.
  destruct plugin_path as [path|]; [destruct (Py.truthy path)|]; simpl;
    destruct (CreateTarget executable_path _) as [t w']; simpl;
    by intros ->.
Qed.

(** C3, on the code.  [run_tests] ends in one of three ways.  When it
    returns, [cleanup] has run and the destruction of the debugger is the
    last call of the session.  When it ends through [os._exit], which is
    the case exactly when the run completed with [total != passed], the
    code is 1 and no call of [cleanup] was made: the process is neither
    killed nor the debugger destroyed.  When an exception leaves it, either
    reading the sources has raised and no call at all was made, or the
    console was left by [KeyboardInterrupt] and [cleanup] has run. *)
Theorem run_tests_cleanup (fs : FileSystem)
    (source_files : list string) (interactive : bool) (s s' : Session)
    (t : termination) :
  run_tests executable_path plugin_path depth repr_set fs source_files
    interactive s
  = (t, s') ->
  match t with
  | Returned =>
      exists new, calls s' = calls s ++ new ++ [EvDestroy]
  | OsExit code =>
      code = 1
      /\ (exists test_cases results,
             parse_expected_values fs source_files = Ok test_cases
             /\ run_tests_try executable_path plugin_path depth repr_set
                  test_cases interactive s = (Ok results, s')
             /\ total results <> passed results)
      /\ exists new,
           calls s' = calls s ++ new
           /\ Forall (fun e => e <> EvKill /\ e <> EvDestroy) new
  | Uncaught e =>
      (parse_expected_values fs source_files = Raise e /\ s' = s)
      \/ (e = KeyboardInterrupt
          /\ exists new, calls s' = calls s ++ new ++ [EvDestroy])
  end.
Proof.
  unfold run_tests.
  destruct (parse_expected_values fs source_files) as [tcs|e];
    [|intros [= <- <-]; by left].
  destruct (run_tests_try _ _ _ _ tcs interactive s) as [[results|e] s1]
    eqn:Htry.
  - pose proof Htry as Hlog.
    apply run_tests_try_emits in Hlog as (new & Hnew & HP).
    case_bool_decide as Hne.
    + intros [= <- <-]. split; [done|].
      split; [by exists tcs, results|].
      exists new. split; [done|].
      eapply Forall_impl; [exact HP|].
      intros e He. split; intros ->; discriminate He.
    + intros [= <- <-].
      destruct (cleanup_log s1) as (kill & Hc & _).
      exists (new ++ kill). rewrite Hc, Hnew. log_eq.
  - pose proof Htry as Hlog.
    apply run_tests_try_emits in Hlog as (new & Hnew & HP).
    destruct (cleanup_log s1) as (kill & Hc & _).
    destruct (is_exception e) eqn:He; intros [= <- <-].
    + exists (new ++ kill). rewrite Hc, Hnew. log_eq.
    + right. split; [by apply not_exception|].
      exists (new ++ kill). rewrite Hc, Hnew. log_eq.
Qed.

(** C1, on the code.  An error raised during setup or case execution is not
    treated as failure.  When the sources are read, the exit status is 1
    exactly when the run completes and some check has failed.  Whatever
    [setup] or the execution of a case raises without the console is an
    [Exception]: it is caught and logged, [run_tests] returns and the exit
    status is 0, as when every check passed.  This is so in particular when
    no target can be created for the executable.  The one exception that is
    not caught is the [KeyboardInterrupt] that leaves the console, which
    ends the process with a signal.  When reading a source raises, before
    the [try] statement, the exit status is 1. *)
Theorem exit_status_of_run (fs : FileSystem)
    (source_files : list string) (interactive : bool) (s : Session) :
  let t :=
    fst (run_tests executable_path plugin_path depth repr_set fs source_files
           interactive s) in
  (forall e,
      parse_expected_values fs source_files = Raise e ->
      exit_status t = if is_exception e then Some 1 else None)
  /\ (forall test_cases r s1,
         parse_expected_values fs source_files = Ok test_cases ->
         run_tests_try executable_path plugin_path depth repr_set test_cases
           interactive s = (r, s1) ->
         match r with
         | Ok results =>
             exit_status t
             = Some (if bool_decide (failed results = 0) then 0 else 1)
         | Raise e =>
             (run_exn e /\ exit_status t = Some 0)
             \/ (interactive = true /\ e = KeyboardInterrupt
                 /\ exit_status t = None)
         end
         /\ (fst (CreateTarget executable_path
                    (world_at_target plugin_path (world s))) = false ->
             r = Raise (Exception ("Failed to create target for "
                                   +:+ executable_path))
             /\ exit_status t = Some 0)).
Proof.
  cbv zeta. unfold run_tests. split.
  - by intros e ->.
  - intros tcs r s1 -> Htry. rewrite Htry.
    assert (Hno : fst (CreateTarget executable_path
                         (world_at_target plugin_path (world s))) = false ->
                  r = Raise (Exception ("Failed to create target for "
                                        +:+ executable_path))).
    { intros Htarget. pose proof (setup_fails s Htarget) as Hsetup.
      unfold run_tests_try, bind in Htry.
      destruct (setup executable_path plugin_path s) as [[[]|e] s2];
        simpl in Hsetup; [done|].
      injection Hsetup as ->. by injection Htry as <- _. }
    destruct r as [results|e].
    + split; [|intros Htarget; by specialize (Hno Htarget)].
      assert (Hsum : total results = passed results + failed results).
      { unfold run_tests_try in Htry.
        apply bind_Ok_inv in Htry as ([] & s2 & _ & Htry).
        apply bind_Ok_inv in Htry as (results' & s3 & Hrun & Hret).
        injection Hret as <- _.
        apply execute_tests_loop_spec in Hrun as [Hcons _].
        by destruct Hcons as [Hsum _]. }
      by repeat case_bool_decide; try lia.
    + apply run_tests_try_raises in Htry as [He|[Hi ->]].
      * pose proof (run_exn_is_exception e He) as Hexc. rewrite Hexc.
        split; [by left|]. intros Htarget. by split; [apply Hno|].
      * split; [by right|]. intros Htarget. by specialize (Hno Htarget).
Qed.
End DriverTheorems.

Section CheckTheorems.
Context `{Backend}.
Variable w : World.
Variable process : SBProcess.
Variable depth : nat.

(** C7. A check on the "all variables" sentinel passes exactly when the
    set of the whitespace-separated expected names is the set of names in
    scope; otherwise it fails and records [missing = expected - actual] and
    [extra = actual - expected].  In both cases [actual] is the set in
    scope. *)
Theorem all_variables_check (all_variable_names : gset pystr)
    (check : Test) :
  variable check = "all variables"%string ->
  let expected_vars : gset pystr :=
    list_to_set (Some <$> Py.split_ws (expected_value check)) in
  exists r,
    execute_check w process depth all_variable_names check = Ok r
    /\ test r = check
    /\ actual r = Some (ActualNames all_variable_names)
    /\ (status r = "pass"%string <-> expected_vars = all_variable_names)
    /\ (expected_vars <> all_variable_names ->
        status r = "fail"%string
        /\ missing r = Some (expected_vars ∖ all_variable_names)
        /\ extra r = Some (all_variable_names ∖ expected_vars)).
Proof.
  intros Hvar expected_vars. unfold execute_check. rewrite Hvar. simpl.
  eexists. split; [reflexivity|].
  unfold execute_all_variables_test. fold expected_vars.
  destruct (decide (expected_vars = all_variable_names)) as [Heq|Hne];
    simpl; repeat split; try done.
Qed.

(** C2, on the code.  [execute_single_variable_test] never produces the
    status "error": [get_variable_value] returns a [str] or raises, so the
    test [actual_value is None] never succeeds.  For a variable that
    cannot be resolved the outcome is a comparison of the string "None"
    with the expected value: status "fail" (or "pass" when "None" is what
    was expected), no message. *)
Theorem single_variable_test_never_error (test : Test) :
  (forall r,
      execute_single_variable_test w process depth test = Ok r ->
      status r <> "error"%string /\ message r = None)
  /\ (IsValid (FindVariable w process (actual_var_name (variable test)))
      = false ->
      execute_single_variable_test w process depth test
      = Ok (mkTestResult test
              (if bool_decide ("None"%string = Py.strip (expected_value test))
               then "pass" else "fail")%string
              (Some (ActualStr "None")) None None None)).
Proof.
  split.
  - intros r. unfold execute_single_variable_test, get_variable_value.
    pose proof (format_value_not_None w process depth
                  (FindVariable w process (actual_var_name (variable test))))
      as Hn.
    destruct (format_value _ _ _ _) as [[v|]|e]; simpl; [|done|done].
    case_bool_decide; by intros [= <-].
  - intros Hv. unfold execute_single_variable_test, get_variable_value.
    rewrite format_value_invalid by done. simpl.
    change (Py.strip "None") with "None"%string.
    by case_bool_decide.
Qed.
End CheckTheorems.

(* ===================================================================== *)
(** * The theorems on sample sessions *)
(* ===================================================================== *)

Section Witnesses.
Import Fake Samples.

(** C1 at an executable for which no target can be created: [setup]
    raises, the exception is caught, and the run ends with status 0. *)
Lemma exit_status_of_run_witness :
  fst (run_tests_try "exe" None 5 no_repr [failing_case] false
         session_without_target)
  = Raise (Exception "Failed to create target for exe")
  /\ exit_status
       (fst (run_tests "exe" None 5 no_repr files ["fail.go"%string] false
               session_without_target))
     = Some 0.
Proof.
  destruct (run_tests_try "exe" None 5 no_repr [failing_case] false
              session_without_target) as [r s1] eqn:Htry.
  assert (Hparse : parse_expected_values files ["fail.go"%string]
                   = Ok [failing_case]) by (vm_compute; reflexivity).
  destruct (proj2 (exit_status_of_run (H := backend) "exe" None 5 no_repr
                     files ["fail.go"%string] false session_without_target)
              [failing_case] r s1 Hparse Htry) as [_ Hno].
  apply Hno. reflexivity.
Defined.

(** The same sources on an executable that loads: the check fails and the
    run ends with status 1. *)
Example failing_check_exits_with_status_1 :
  exit_status
    (fst (run_tests "exe" None 5 no_repr files ["fail.go"%string] false
            (session [])))
  = Some 1.
Proof. vm_compute. reflexivity. Qed.

(** An interrupt that arrives in the console after a command was read
    leaves the run uncaught; the debugger is destroyed on the way. *)
Example interrupt_in_console_ends_the_run :
  let run :=
    run_tests "exe" None 5 no_repr files ["fail.go"%string] true
      (session [LineThenInterrupt "bt" true]) in
  fst run = Uncaught KeyboardInterrupt
  /\ exit_status (fst run) = None
  /\ calls (snd run)
     = [EvCreateTarget "exe"; EvBreakpointCreate "fail.go" 2 1; EvLaunch;
        EvSetAsync true; EvHandleCommand "settings set auto-confirm true";
        EvHandleCommand "command script import lldb";
        EvInterpreterCommand "bt"; EvKill; EvDestroy].
Proof. vm_compute. done. Qed.

(** C2 at a name that is not in scope: the outcome is "fail" with the
    actual value "None" and no message. *)
Lemma single_variable_test_never_error_witness :
  execute_single_variable_test stopped tt 5
    (mkTest "missing.go" 2 "missing" "5")
  = Ok (mkTestResult (mkTest "missing.go" 2 "missing" "5") "fail"
          (Some (ActualStr "None")) None None None).
Proof.
  apply (proj2 (single_variable_test_never_error (H := backend) stopped tt 5
                  (mkTest "missing.go" 2 "missing" "5"))).
  reflexivity.
Defined.

(** A slice whose [len] member cannot be read makes [int] raise
    [TypeError]: the check has no outcome, the exception leaves
    [execute_tests] and ends the run, which still exits with status 0. *)
Example unreadable_slice_ends_the_run :
  execute_single_variable_test stopped_nested tt 5
    (mkTest "unreadable.go" 2 "u" "[]int[]")
  = Raise TypeError
  /\ fst (run_tests_try "exe" None 5 no_repr
            [mkTestCase "unreadable.go" 1 2
               [mkTest "unreadable.go" 2 "u" "[]int[]"]]
            false (session_of (world_of [nested_stop]) []))
     = Raise TypeError
  /\ fst (run_tests "exe" None 5 no_repr files ["unreadable.go"%string] false
            (session_of (world_of [nested_stop]) []))
     = Returned.
Proof. vm_compute. done. Qed.

(** C3 at a run with a failing check: the process ends through
    [os._exit(1)] after four calls, none of which kills the process or
    destroys the debugger. *)
Lemma run_tests_cleanup_witness :
  exists s',
    run_tests "exe" None 5 no_repr files ["fail.go"%string] false (session [])
    = (OsExit 1, s')
    /\ calls s'
       = [EvCreateTarget "exe"; EvBreakpointCreate "fail.go" 2 1; EvLaunch;
          EvBreakpointDelete 1]
    /\ exists new,
         calls s' = calls (session []) ++ new
         /\ Forall (fun e => e <> EvKill /\ e <> EvDestroy) new.
Proof.
  eexists. split; [vm_compute; reflexivity|]. split; [reflexivity|].
  refine (proj2 (proj2 (run_tests_cleanup (H := backend) "exe" None 5
                          no_repr files ["fail.go"%string] false
                          (session []) _ (OsExit 1) _))).
  vm_compute. reflexivity.
Defined.

(** C4: the user aborts in the console of a failing case; [execute_tests]
    returns and the breakpoint it set is never deleted. *)
Lemma aborted_case_keeps_its_breakpoint :
  exists results s',
    execute_tests 5 no_repr [failing_case] true (session [Interrupt])
    = (Ok results, s')
    /\ calls s'
       = [EvBreakpointCreate "fail.go" 2 1; EvLaunch; EvSetAsync true;
          EvHandleCommand "settings set auto-confirm true";
          EvHandleCommand "command script import lldb"]
    /\ EvBreakpointDelete 1 ∉ calls s'.
Proof.
  eexists _, _. split; [vm_compute; reflexivity|]. split; [reflexivity|].
  apply (bool_decide_eq_false_1 _). reflexivity.
Qed.

(** Two cases without interactive mode: each breakpoint is deleted before
    the next one is set. *)
Lemma breakpoint_deleted_unless_aborted_witness :
  exists results s' new,
    execute_tests 5 no_repr [failing_case; failing_case] false
      (session_of (world_of [sample_stop; sample_stop]) [])
    = (Ok results, s')
    /\ calls s' = [] ++ new
    /\ paired (breakpoint_calls new).
Proof.
  destruct (execute_tests 5 no_repr [failing_case; failing_case] false
              (session_of (world_of [sample_stop; sample_stop]) []))
    as [[results|e] s'] eqn:Hrun; [|by vm_compute in Hrun].
  destruct (proj2 (breakpoint_deleted_unless_aborted (H := backend) 5
                     no_repr false)
              _ _ _ _ Hrun) as (new & Hnew & _ & Hpaired & _).
  exists results, s', new. split; [done|]. split; [exact Hnew|].
  apply Hpaired; [done|by exists results].
Defined.

(** A run without interactive mode that raises: the slice [u] cannot be
    rendered, [execute_tests] is left by [TypeError] and the breakpoint it
    set is never deleted. *)
Example raising_case_keeps_its_breakpoint :
  let run :=
    execute_tests 5 no_repr
      [mkTestCase "unreadable.go" 1 2
         [mkTest "unreadable.go" 2 "u" "[]int[]"]]
      false (session_of (world_of [nested_stop]) []) in
  fst run = Raise TypeError
  /\ calls (snd run) = [EvBreakpointCreate "unreadable.go" 2 1; EvLaunch].
Proof. vm_compute. done. Qed.

(** C5: a block whose only comment line has no colon yields a [TestCase]
    with zero checks whose [end_line] is not its [start_line]. *)
Lemma remark_block_is_empty_but_spans_a_line :
  parse_expected_values files ["remark.go"%string]
  = Ok [mkTestCase "remark.go" 1 2 []]
  /\ ~ (end_line (mkTestCase "remark.go" 1 2 [])
        = start_line (mkTestCase "remark.go" 1 2 [])
        <-> tests (mkTestCase "remark.go" 1 2 []) = []).
Proof.
  split; [vm_compute; reflexivity|].
  simpl. intros [_ Hempty]. by specialize (Hempty eq_refl).
Qed.

Lemma parsed_block_line_range_witness :
  Forall
    (fun tc =>
       start_line tc <= end_line tc
       /\ (tests tc <> [] -> end_line tc > start_line tc)
       /\ (end_line tc = start_line tc -> tests tc = [])
       /\ exists content,
            files (tc_source_file tc) = Ok content
            /\ is_marker content (Z.to_nat (start_line tc - 1)) = true
            /\ (end_line tc = start_line tc
                <-> is_comment content (Z.to_nat (start_line tc)) = false))
    [mkTestCase "pass.go" 3 6
       [mkTest "pass.go" 4 "a" "5";
        mkTest "pass.go" 5 "s" "[]int[10, 20, 30]";
        mkTest "pass.go" 6 "all variables" "a b s"];
     mkTestCase "remark.go" 1 2 []].
Proof.
  apply (parsed_block_line_range files ["pass.go"; "remark.go"]%string).
  vm_compute. reflexivity.
Defined.

(** C6 at a run that the user aborts in the console of its first case. *)
Lemma execute_tests_summary_consistent_witness :
  exists results s',
    execute_tests 5 no_repr [failing_case; failing_case] true
      (session_of (world_of [sample_stop; sample_stop]) [Interrupt])
    = (Ok results, s')
    /\ length (case_results results) = 1%nat
    /\ total results = passed results + failed results
    /\ total results = checks_recorded (case_results results).
Proof.
  destruct (execute_tests 5 no_repr [failing_case; failing_case] true
              (session_of (world_of [sample_stop; sample_stop])
                 [Interrupt]))
    as [[results|e] s'] eqn:Hrun; [|by vm_compute in Hrun].
  destruct (execute_tests_summary_consistent (H := backend) 5 no_repr _ _ _ _ _
              Hrun) as (Hsum & Hrec & _).
  exists results, s'. split; [done|]. split; [|done].
  vm_compute in Hrun. by injection Hrun as <- _.
Defined.

(** C7 at the expected names "a b c" against the names in scope a and b:
    the check fails, [c] is missing and nothing is extra. *)
Lemma all_variables_check_witness :
  exists r,
    execute_check stopped tt 5
      ({[Some "a"%string; Some "b"%string]} : gset pystr)
      (mkTest "pass.go" 6 "all variables" "a b c")
    = Ok r
    /\ status r = "fail"%string
    /\ missing r = Some {[Some "c"%string]}
    /\ extra r = Some ∅.
Proof.
  destruct (all_variables_check (H := backend) stopped tt 5
              {[Some "a"%string; Some "b"%string]}
              (mkTest "pass.go" 6 "all variables" "a b c") eq_refl)
    as (r & Hr & _ & _ & _ & Hfail).
  exists r. split; [exact Hr|].
  destruct Hfail as (Hstatus & Hmissing & Hextra).
  { apply (bool_decide_eq_false_1 _). vm_compute. reflexivity. }
  split; [exact Hstatus|]. split.
  - rewrite Hmissing. vm_compute. reflexivity.
  - rewrite Hextra. vm_compute. reflexivity.
Defined.

(** The slice of 10, 20, 30 whose element type [long] is aliased to [int]
    renders as the spec has it. *)
Example format_slice_of_long :
  format_value stopped tt 1 (long_slice (Some "s"%string) "0x1000" "3")
  = Ok (Some "[]int[10, 20, 30]"%string).
Proof. reflexivity. Qed.

(** The sibling [format_array] takes the element type name from the type,
    so an array of two slices of [long] keeps the name [[]long]. *)
Example format_array_of_slices :
  format_value stopped_nested tt 2
    (FValue (Some "arr"%string)
       (FType "[2][]long" eTypeClassArray true 48 (Some t_long_slice))
       None None
       [long_slice None "0x3000" "2"; long_slice None "0x3010" "1"])
  = Ok (Some "[2][]long[[]int[1, 2], []int[3]]"%string).
Proof. reflexivity. Qed.

(** C8 at a slice of slices of [long]: the element type is named [[]long],
    and the slice is rendered under the name [int]. *)
Lemma format_slice_renders_elements_witness :
  TypeGetName
    (GetPointeeType (GetType (GetChildMemberWithName nested_slice "data")))
  = "[]long"%string
  /\ format_value stopped_nested tt 2 nested_slice
     = Ok (Some "[]int[[]int[1, 2], []int[3]]"%string).
Proof.
  split; [reflexivity|].
  refine (proj1 (format_slice_renders_elements (H := backend) stopped_nested
                   tt 1 nested_slice 2 8192
                   ["[]int[1, 2]"; "[]int[3]"]%string
                   eq_refl eq_refl eq_refl eq_refl eq_refl _)).
  intros [|[|i]] e Hi; vm_compute in Hi; try discriminate Hi;
    injection Hi as <-; reflexivity.
Defined.

(** C9 at a name that is not in scope. *)
Lemma format_value_never_returns_None_witness :
  get_variable_value stopped tt 5 "missing" = Ok (Some "None"%string).
Proof.
  apply (format_value_never_returns_None (H := backend) stopped tt 5).
  reflexivity.
Defined.

(** C9: [format_value] is not total.  The slice [u] is a valid value whose
    [len] member has no value; [int(None)] raises [TypeError], which leaves
    [format_value] and [get_variable_value]. *)
Lemma format_value_raises_on_unreadable_slice :
  IsValid unreadable_slice = true
  /\ format_value stopped_nested tt 5 unreadable_slice = Raise TypeError
  /\ get_variable_value stopped_nested tt 5 "u" = Raise TypeError.
Proof. vm_compute. done. Qed.

(** C10 at a string with a null data pointer and length 0. *)
Lemma format_string_empty_is_None_witness :
  format_string stopped tt empty_string_value = Ok (Some "None"%string)
  /\ format_value stopped tt 5 empty_string_value
     = Ok (Some "None"%string).
Proof.
  destruct (format_string_empty_is_None (H := backend) stopped tt
              empty_string_value eq_refl eq_refl) as [Hfs Hfv].
  split; [exact Hfs|]. by apply Hfv.
Defined.
End Witnesses.

(* ===================================================================== *)
(** * Properties of [strip] and [split] *)
(* ===================================================================== *)

Lemma chars_inj (s t : string) : chars s = chars t -> s = t.
Proof.
  intros Heq. rewrite <- (string_of_list_ascii_of_string s),
    <- (string_of_list_ascii_of_string t). unfold chars in Heq.
  by rewrite Heq.
Qed.

Lemma chars_of_list (l : list ascii) : chars (string_of_list_ascii l) = l.
Proof. apply list_ascii_of_string_of_list_ascii. Qed.

Lemma chars_app (s t : string) : chars (s +:+ t) = chars s ++ chars t.
Proof.
  induction s as [|c s IH]; simpl; [done|].
  unfold chars in *. simpl. by rewrite IH.
Qed.

Lemma chars_rev_app (s t : string) :
  chars (String.rev_app s t) = rev (chars s) ++ chars t.
Proof.
  revert t. induction s as [|c s IH]; intros t; simpl; [done|].
  rewrite IH. unfold chars. simpl. by rewrite <- app_assoc.
Qed.

Lemma chars_rev (s : string) : chars (String.rev s) = rev (chars s).
Proof.
  unfold String.rev. rewrite chars_rev_app. unfold chars. simpl.
  by rewrite app_nil_r.
Qed.

Lemma chars_lstrip_by (p : ascii -> bool) (s : string) :
  chars (Py.lstrip_by p s) = drop_while p (chars s).
Proof.
  induction s as [|c s IH]; simpl; [done|].
  unfold chars in *. simpl. by destruct (p c).
Qed.

Lemma chars_strip_by (p : ascii -> bool) (s : string) :
  chars (Py.strip_by p s)
  = rev (drop_while p (rev (drop_while p (chars s)))).
Proof.
  unfold Py.strip_by, Py.rstrip_by.
  by rewrite chars_rev, chars_lstrip_by, chars_rev, chars_lstrip_by.
Qed.

Lemma last_rev {A} (l : list A) : list.last (rev l) = head l.
Proof. rewrite rev_alt. apply last_reverse. Qed.

Lemma head_rev {A} (l : list A) : head (rev l) = list.last l.
Proof. rewrite <- (rev_involutive l) at 2. by rewrite last_rev. Qed.

Lemma drop_while_split {A} (p : A -> bool) (l : list A) :
  exists pre, l = pre ++ drop_while p l /\ forallb p pre = true.
Proof.
  induction l as [|x l (pre & Hl & Hpre)]; simpl.
  - by exists [].
  - destruct (p x) eqn:Hx.
    + exists (x :: pre). simpl. rewrite Hx, Hpre. split; [by f_equal|done].
    + by exists [].
Qed.

Lemma drop_while_head {A} (p : A -> bool) (l : list A) (x : A) :
  head (drop_while p l) = Some x -> p x = false.
Proof.
  induction l as [|y l IH]; simpl; [done|].
  destruct (p y) eqn:Hy; [done|]. simpl. by intros [= <-].
Qed.

Lemma drop_while_id {A} (p : A -> bool) (l : list A) :
  match head l with Some x => p x = false | None => True end ->
  drop_while p l = l.
Proof. destruct l as [|x l]; simpl; [done|]. by intros ->. Qed.

(** What [strip] removes and what it leaves: [s] is the stripped string
    between two runs of characters to strip, and the stripped string neither
    starts nor ends with such a character. *)
Lemma strip_by_spec (p : ascii -> bool) (s : string) :
  (exists pre post,
      s = pre +:+ Py.strip_by p s +:+ post
      /\ forallb p (chars pre) = true
      /\ forallb p (chars post) = true)
  /\ starts_with p (Py.strip_by p s) = false
  /\ ends_with p (Py.strip_by p s) = false.
Proof.
  pose proof (chars_strip_by p s) as Hc.
  destruct (drop_while_split p (chars s)) as (pre & Hpre & Hp1).
  set (m := drop_while p (chars s)) in *.
  destruct (drop_while_split p (rev m)) as (post & Hpost & Hp2).
  set (t := drop_while p (rev m)) in *.
  assert (Hm : m = rev t ++ rev post).
  { rewrite <- rev_app_distr, <- Hpost. by rewrite rev_involutive. }
  split; [|split].
  - exists (string_of_list_ascii pre), (string_of_list_ascii (rev post)).
    split; [|split].
    + apply chars_inj. rewrite !chars_app, !chars_of_list, Hc.
      by rewrite Hpre at 1; rewrite Hm.
    + by rewrite chars_of_list.
    + rewrite chars_of_list.
      rewrite forallb_forall in *. intros x Hx. apply Hp2.
      by apply in_rev.
  - unfold starts_with. rewrite Hc.
    destruct (rev t) as [|c r] eqn:Hr; [done|].
    assert (Hh : head m = Some c) by (by rewrite Hm).
    by apply (drop_while_head p (chars s)).
  - unfold ends_with. rewrite Hc.
    destruct (list.last (rev t)) as [c|] eqn:Hl; [|done].
    rewrite last_rev in Hl. by apply (drop_while_head p (rev m)).
Qed.

(** [strip] leaves a string alone that neither starts nor ends with a
    character to strip. *)
Lemma strip_by_fixed (p : ascii -> bool) (s : string) :
  starts_with p s = false -> ends_with p s = false -> Py.strip_by p s = s.
Proof.
  unfold starts_with, ends_with. intros Hs He. apply chars_inj.
  rewrite chars_strip_by.
  rewrite (drop_while_id p (chars s)).
  - rewrite drop_while_id; [by rewrite rev_involutive|].
    rewrite head_rev. by destruct (list.last (chars s)).
  - unfold head. by destruct (chars s).
Qed.

Lemma strip_by_idemp (p : ascii -> bool) (s : string) :
  Py.strip_by p (Py.strip_by p s) = Py.strip_by p s.
Proof.
  destruct (strip_by_spec p s) as (_ & Hs & He). by apply strip_by_fixed.
Qed.

Lemma drop_while_pad {A} (p : A -> bool) (pre l : list A) :
  forallb p pre = true -> drop_while p (pre ++ l) = drop_while p l.
Proof.
  induction pre as [|x pre IH]; simpl; [done|].
  intros [Hx Hpre]%andb_true_iff. rewrite Hx. by apply IH.
Qed.

Lemma forallb_rev {A} (p : A -> bool) (l : list A) :
  forallb p (rev l) = forallb p l.
Proof.
  apply eq_true_iff_eq. rewrite !forallb_forall.
  split; intros Hl x Hx; apply Hl; by apply in_rev in Hx || apply in_rev.
Qed.

(** Characters to strip around a string do not change what [strip]
    returns. *)
Lemma strip_by_pad (p : ascii -> bool) (pre s post : string) :
  forallb p (chars pre) = true -> forallb p (chars post) = true ->
  Py.strip_by p (pre +:+ s +:+ post) = Py.strip_by p s.
Proof.
  intros Hpre Hpost. apply chars_inj.
  rewrite !chars_strip_by, !chars_app. f_equal.
  rewrite (drop_while_pad p (chars pre)) by done.
  destruct (drop_while_split p (chars s)) as (lead & Hs & Hlead).
  destruct (drop_while p (chars s)) as [|c m] eqn:Hm.
  - (* nothing of [s] is left: the padding after it goes too *)
    rewrite app_nil_r in Hs.
    rewrite (drop_while_pad p (chars s)) by (by rewrite Hs).
    destruct (drop_while_split p (chars post)) as (lead' & Hp & Hlead').
    assert (Hall : drop_while p (chars post) = []).
    { clear Hp Hlead'. induction (chars post) as [|x l IH]; simpl; [done|].
      simpl in Hpost. apply andb_true_iff in Hpost as [Hx Hl].
      rewrite Hx. by apply IH. }
    by rewrite Hall.
  - assert (Hc : p c = false).
    { apply (drop_while_head p (chars s)). by rewrite Hm. }
    assert (Hkeep : drop_while p (chars s ++ chars post)
                    = (c :: m) ++ chars post).
    { rewrite Hs, <- app_assoc, (drop_while_pad p lead) by done.
      simpl. by rewrite Hc. }
    rewrite Hkeep, rev_app_distr.
    by rewrite drop_while_pad by (by rewrite forallb_rev).
Qed.

Lemma prefix_app (p s t : string) :
  String.prefix p s = true -> String.prefix p (s +:+ t) = true.
Proof.
  revert p. induction s as [|d s IH]; intros p Hp.
  - destruct p; [|done]. by destruct t.
  - destruct p as [|c p]; [done|]. simpl in *.
    destruct (ascii_dec c d); [by apply IH|done].
Qed.

Lemma contains_app_r (sep s t : string) :
  Py.contains sep s = true -> Py.contains sep (s +:+ t) = true.
Proof.
  induction s as [|c s IH]; simpl.
  - rewrite orb_false_r. intros Hp.
    destruct sep; [|done]. by destruct t.
  - intros [Hp|Hc]%orb_true_iff.
    + apply (prefix_app _ (String c s) t) in Hp. simpl in Hp.
      by rewrite Hp.
    + rewrite IH by done. by rewrite orb_true_r.
Qed.

Lemma contains_app_l (sep s t : string) :
  Py.contains sep t = true -> Py.contains sep (s +:+ t) = true.
Proof.
  intros Ht. induction s as [|c s IH]; simpl; [done|].
  change (Py.contains sep (s +:+ t)) with (Py.contains sep (s +:+ t)).
  fold (Py.contains sep (s +:+ t)). rewrite IH. apply orb_true_r.
Qed.

(** A string without [sep] keeps none after [strip]. *)
Lemma contains_strip_by (sep : string) (p : ascii -> bool) (s : string) :
  Py.contains sep s = false -> Py.contains sep (Py.strip_by p s) = false.
Proof.
  intros Hs. destruct (strip_by_spec p s) as ((pre & post & Heq & _) & _).
  destruct (Py.contains sep (Py.strip_by p s)) eqn:Hc; [|done].
  rewrite Heq in Hs. rewrite contains_app_l in Hs; [done|].
  by apply contains_app_r.
Qed.

Lemma no_start_shrink (sep cur s t : string) :
  no_start sep cur (s +:+ t) = true -> no_start sep cur s = true.
Proof.
  revert s. induction cur as [|c cur IH]; intros s; simpl; [done|].
  intros [Hp Hn]%andb_true_iff. apply andb_true_iff. split.
  - apply negb_true_iff. apply negb_true_iff in Hp.
    destruct (String.prefix sep (String c s)) eqn:Hq; [|done].
    apply (prefix_app _ _ t) in Hq. simpl in Hq, Hp. congruence.
  - by apply (IH (String c s)).
Qed.

(** The first piece of a split contains no separator. *)
Lemma first_split_go (sep s cur : string) :
  sep <> EmptyString ->
  no_start sep cur s = true ->
  Py.contains sep (Py.first (Py.split_go sep 0 None cur s)) = false.
Proof.
  intros Hsep. revert cur. induction s as [|c s IH]; intros cur Hns.
  - simpl. unfold Py.first. simpl. apply contains_rev_app; [done|].
    by destruct sep.
  - rewrite split_go_cons. cbn [andb].
    destruct (String.prefix sep (String c s)) eqn:Hp.
    + unfold Py.first. simpl. apply contains_rev_app.
      * by apply (no_start_shrink sep cur EmptyString (String c s)).
      * by destruct sep.
    + apply IH. cbn [no_start]. by rewrite Hp.
Qed.

Lemma first_split_has_no_separator (sep s : string) :
  sep <> EmptyString ->
  Py.contains sep (Py.first (Py.split sep s)) = false.
Proof. intros Hsep. by apply first_split_go. Qed.

Lemma rev_app_append (cur s t : string) :
  String.rev_app cur (s +:+ t) = String.rev_app cur s +:+ t.
Proof.
  revert s. induction cur as [|c cur IH]; intros s; simpl; [done|].
  by rewrite <- IH.
Qed.

(** The last piece of a split is a suffix of the string. *)
Lemma last_split_go_suffix (sep s : string) (skip : nat) (cur : string) :
  (skip = 0%nat \/ cur = EmptyString) ->
  exists pre,
    String.rev_app cur s
    = pre +:+ Py.last (Py.split_go sep skip None cur s).
Proof.
  revert skip cur. induction s as [|c s IH]; intros skip cur Hskip.
  - exists EmptyString. reflexivity.
  - rewrite split_go_cons. change (Nat.pred <$> None) with (@None nat).
    destruct skip as [|k].
    + cbn [andb]. destruct (String.prefix sep (String c s)).
      * unfold Py.last.
        destruct (Py.split_go sep (Nat.pred (String.length sep))
                    None EmptyString s) as [|x l] eqn:Hsplit.
        { by apply split_go_nonempty in Hsplit. }
        rewrite last_cons_cons, <- Hsplit.
        destruct (IH (Nat.pred (String.length sep)) EmptyString)
          as (pre & Hpre); [by right|].
        simpl in Hpre. unfold Py.last in Hpre.
        exists (String.rev_app cur (String c pre)).
        rewrite Hpre at 1.
        apply (rev_app_append cur (String c pre)).
      * apply (IH 0%nat (String c cur)). by left.
    + destruct Hskip as [Hk | ->]; [done|].
      destruct (IH k EmptyString) as (pre & Hpre); [by right|].
      exists (String c pre). simpl in Hpre. simpl.
      rewrite Hpre at 1. reflexivity.
Qed.

Lemma last_split_suffix (sep s : string) :
  exists pre, s = pre +:+ Py.last (Py.split sep s).
Proof. apply (last_split_go_suffix sep s 0 EmptyString). by left. Qed.

(* ===================================================================== *)
(** * Further properties of the value formatter *)
(* ===================================================================== *)

Lemma py_for_collect {A B} (body : A -> list B -> result (list B))
    (f : A -> result B) (l : list A) (acc : list B) :
  (forall x acc, body x acc = rbind (f x) (fun v => Ok (acc ++ [v]))) ->
  py_for l body acc = rbind (map_result f l) (fun vs => Ok (acc ++ vs)).
Proof.
  intros Hbody. rewrite <- py_for_append. revert acc.
  induction l as [|x l IH]; intros acc; simpl; [done|].
  rewrite Hbody. destruct (f x); simpl; [apply IH|done].
Qed.

Lemma map_result_seq_imap {A B} (f : nat -> result B) (g : nat -> A -> B)
    (vs : list A) :
  (forall i v, vs !! i = Some v -> f i = Ok (g i v)) ->
  map_result f (seq 0 (length vs)) = Ok (imap g vs).
Proof.
  intros Hf. rewrite <- (length_imap g vs).
  apply (map_result_seq f 0). intros i v Hi. simpl.
  rewrite list_lookup_imap in Hi.
  destruct (vs !! i) as [a|] eqn:Ha; [|done].
  simpl in Hi. injection Hi as <-. by apply Hf.
Qed.

Lemma stable_refl {A} (r : result A) : stable r r.
Proof. by right. Qed.

Lemma stable_rbind {A B} (r r' : result A) (k k' : A -> result B) :
  stable r r' -> (forall a, stable (k a) (k' a)) ->
  stable (rbind r k) (rbind r' k').
Proof.
  intros [-> | ->] Hk; [by left|]. destruct r; simpl; [apply Hk|by right].
Qed.

Lemma stable_py_for {A S} (l : list A) (body body' : A -> S -> result S)
    (s : S) :
  (forall x s, stable (body x s) (body' x s)) ->
  stable (py_for l body s) (py_for l body' s).
Proof.
  intros Hbody. revert s. induction l as [|x l IH]; intros s; simpl.
  - by right.
  - destruct (Hbody x s) as [-> | ->]; [by left|].
    destruct (body x s); [apply IH|by right].
Qed.

Section MoreFormatterFacts.
Context `{Backend}.
Variable w : World.
Variable process : SBProcess.

Lemma format_struct_stable (fmt fmt' : SBValue -> result pystr)
    (var : SBValue) (include_type : bool) :
  (forall v, stable (fmt v) (fmt' v)) ->
  stable (format_struct fmt var include_type)
    (format_struct fmt' var include_type).
Proof.
  intros Hfmt. unfold format_struct. apply stable_rbind.
  - apply stable_py_for. intros i acc.
    apply stable_rbind; [apply Hfmt|intros; apply stable_refl].
  - intros; apply stable_refl.
Qed.

Lemma format_value_body_stable (fmt fmt' : SBValue -> result pystr)
    (var : SBValue) :
  (forall v, stable (fmt v) (fmt' v)) ->
  stable (format_value_body w process fmt var)
    (format_value_body w process fmt' var).
Proof.
  intros Hfmt. unfold format_value_body.
  destruct (IsValid var); [|apply stable_refl].
  destruct (Py.startswith _ _).
  { unfold format_slice.
    apply stable_rbind; [apply stable_refl|intros n].
    apply stable_rbind; [apply stable_refl|intros base].
    apply stable_rbind; [|intros; apply stable_refl].
    apply stable_py_for. intros i acc.
    apply stable_rbind; [apply Hfmt|intros; apply stable_refl]. }
  destruct (IsArrayType _).
  { destruct (is_struct_or_class _).
    - unfold format_custom_array.
      apply stable_rbind; [|intros; apply stable_refl].
      apply stable_py_for. intros i acc.
      apply stable_rbind; [by apply format_struct_stable
                          |intros; apply stable_refl].
    - unfold format_array.
      apply stable_rbind; [|intros; apply stable_refl].
      apply stable_py_for. intros i acc.
      apply stable_rbind; [apply Hfmt|intros; apply stable_refl]. }
  destruct (bool_decide _); [apply stable_refl|].
  destruct (_ || _); [apply stable_refl|].
  destruct (is_struct_or_class _); [by apply format_struct_stable|].
  apply stable_refl.
Qed.

Lemma format_value_stable_step (depth : nat) (var : SBValue) :
  stable (format_value w process depth var)
    (format_value w process (S depth) var).
Proof.
  revert var. induction depth as [|depth IH]; intros var.
  - apply format_value_body_stable. intros v. by left.
  - apply (format_value_body_stable (format_value w process depth)
             (format_value w process (S depth))). apply IH.
Qed.

(** X1. The recursion limit does not change what [format_value] gives: once
    a value is rendered, or makes an [int] conversion fail, with room for
    [depth] nested calls, the outcome is the same with any larger room. *)
Theorem format_value_depth_irrelevant (depth depth' : nat) (var : SBValue) :
  format_value w process depth var <> Raise RecursionError ->
  (depth <= depth')%nat ->
  format_value w process depth' var = format_value w process depth var.
Proof.
  intros Hr Hle. induction Hle as [|d Hle IH]; [done|].
  destruct (format_value_stable_step d var) as [Hrec | ->]; [|done].
  congruence.
Qed.

(** X2. A composite value is rendered as its type name followed by its
    members in order, each as [name = value], separated by a comma and a
    space, between parentheses; a member without a name, or one rendered
    as [None], shows as the word None.  [format_struct] leaves the type name
    out when asked to, and is what [format_value] applies to a valid value
    of struct or class type that is no slice, array, string or complex
    number. *)
Theorem format_struct_renders_members (depth : nat) (var : SBValue)
    (rendered : list pystr) :
  length rendered = GetNumChildren var ->
  (forall i value,
      rendered !! i = Some value ->
      format_value w process depth (GetChildAtIndex var i) = Ok value) ->
  (forall include_type,
      format_struct (format_value w process depth) var include_type
      = Ok (Some ((if include_type then GetTypeName var else EmptyString)
                  +:+ "(" +:+ Py.join ", " (member_texts var rendered)
                  +:+ ")")))
  /\ (reaches_struct var = true ->
      format_value w process (S depth) var
      = Ok (Some (GetTypeName var
                  +:+ "(" +:+ Py.join ", " (member_texts var rendered)
                  +:+ ")"))).
Proof.
  intros Hlen Hmembers.
  assert (Hstruct : forall include_type,
             format_struct (format_value w process depth) var include_type
             = Ok (Some ((if include_type then GetTypeName var
                          else EmptyString)
                         +:+ "(" +:+ Py.join ", " (member_texts var rendered)
                         +:+ ")"))).
  { intros include_type. unfold format_struct.
    rewrite (py_for_collect _
               (fun i =>
                  rbind (format_value w process depth (GetChildAtIndex var i))
                    (fun value =>
                       Ok (fstr (GetName (GetChildAtIndex var i))
                           +:+ " = " +:+ fstr value)))).
    - rewrite <- Hlen.
      rewrite (map_result_seq_imap _
                 (fun i value =>
                    fstr (GetName (GetChildAtIndex var i))
                    +:+ " = " +:+ fstr value)).
      + simpl. by destruct include_type.
      + intros i value Hi. by rewrite (Hmembers i value Hi).
    - intros i acc. by destruct (format_value _ _ _ _). }
  split; [done|].
  intros Hreach. unfold reaches_struct in Hreach.
  repeat (apply andb_true_iff in Hreach as [Hreach ?]).
  simpl. unfold format_value_body.
  rewrite Hreach.
  repeat match goal with
         | Hn : negb ?b = true |- _ => apply negb_true_iff in Hn; rewrite Hn
         end.
  match goal with Hs : is_struct_or_class _ = true |- _ => rewrite Hs end.
  apply (Hstruct true).
Qed.

(** X3. A fixed-size array of non-composite elements is rendered as
    [[N]T[e0, e1, ...]]: [N] is the number of children, [T] the name of the
    element type of the array passed through the type-alias table, and the
    elements are the children in order, each rendered by [format_value]. *)
Theorem format_array_renders_children (depth : nat) (var : SBValue)
    (rendered : list string) :
  reaches_array var = true ->
  length rendered = GetNumChildren var ->
  (forall i e,
      rendered !! i = Some e ->
      format_value w process depth (GetChildAtIndex var i) = Ok (Some e)) ->
  format_value w process (S depth) var
  = Ok (Some ("[" +:+ pretty (GetNumChildren var) +:+ "]"
              +:+ map_type (TypeGetName (GetArrayElementType (GetType var)))
              +:+ "[" +:+ Py.join ", " rendered +:+ "]")).
Proof.
  intros Hreach Hlen Helems. unfold reaches_array in Hreach.
  repeat (apply andb_true_iff in Hreach as [Hreach ?]).
  simpl. unfold format_value_body. rewrite Hreach.
  repeat match goal with
         | Hn : negb ?b = true |- _ => apply negb_true_iff in Hn; rewrite Hn
         end.
  match goal with Ha : IsArrayType _ = true |- _ => rewrite Ha end.
  unfold format_array.
  rewrite (py_for_append
             (fun i => format_value w process depth (GetChildAtIndex var i))).
  rewrite <- Hlen, <- (length_fmap Some rendered).
  rewrite map_result_seq.
  - simpl. by rewrite py_join_Some.
  - intros i v Hi. rewrite list_lookup_fmap in Hi.
    destruct (rendered !! i) as [e|] eqn:He; [|done].
    simpl in Hi. injection Hi as <-. by apply Helems.
Qed.

(** X4. A fixed-size array whose type class is struct or class is rendered
    as [[N]T[(...), (...)]]: each child is rendered by [format_struct]
    without its type name, and [T] is the name of the element type as the
    type gives it; unlike for the other arrays, the type-alias table is not
    applied to it. *)
Theorem format_custom_array_renders_children (depth : nat) (var : SBValue)
    (rendered : list string) :
  reaches_custom_array var = true ->
  length rendered = GetNumChildren var ->
  (forall i e,
      rendered !! i = Some e ->
      format_struct (format_value w process depth) (GetChildAtIndex var i)
        false
      = Ok (Some e)) ->
  format_value w process (S depth) var
  = Ok (Some ("[" +:+ pretty (GetNumChildren var) +:+ "]"
              +:+ TypeGetName (GetArrayElementType (GetType var))
              +:+ "[" +:+ Py.join ", " rendered +:+ "]")).
Proof.
  intros Hreach Hlen Helems. unfold reaches_custom_array in Hreach.
  repeat (apply andb_true_iff in Hreach as [Hreach ?]).
  simpl. unfold format_value_body. rewrite Hreach.
  repeat match goal with
         | Hn : negb ?b = true |- _ => apply negb_true_iff in Hn; rewrite Hn
         end.
  match goal with Ha : IsArrayType _ = true |- _ => rewrite Ha end.
  match goal with Hs : is_struct_or_class _ = true |- _ => rewrite Hs end.
  unfold format_custom_array.
  rewrite (py_for_append
             (fun i =>
                format_struct (format_value w process depth)
                  (GetChildAtIndex var i) false)).
  rewrite <- Hlen, <- (length_fmap Some rendered).
  rewrite map_result_seq.
  - simpl. by rewrite py_join_Some.
  - intros i v Hi. rewrite list_lookup_fmap in Hi.
    destruct (rendered !! i) as [e|] eqn:He; [|done].
    simpl in Hi. injection Hi as <-. by apply Helems.
Qed.

(** X5. A string value with a summary is rendered from the summary alone:
    its members are not read, so nothing can raise.  The rendering is the
    summary without the double quotes around it, all of them: the summary is
    the rendering between two runs of double quotes, and the rendering
    neither starts nor ends with one. *)
Theorem format_string_strips_quotes (var : SBValue) (summary : string) :
  GetSummary var = Some summary ->
  exists text,
    format_string w process var = Ok (Some text)
    /\ (exists before after,
           summary = before +:+ text +:+ after
           /\ forallb is_quote (chars before) = true
           /\ forallb is_quote (chars after) = true)
    /\ starts_with is_quote text = false
    /\ ends_with is_quote text = false.
Proof.
  intros Hs. exists (Py.strip_chars dquote summary). split.
  - unfold format_string. by rewrite Hs.
  - apply (strip_by_spec is_quote summary).
Qed.
End MoreFormatterFacts.

(** X6. The name [get_variable_value] looks up for an annotated name
    contains neither an equals sign nor an opening parenthesis and has no
    whitespace around it, and looking such a name up again changes
    nothing. *)
Theorem actual_var_name_normal (var_name : string) :
  Py.contains "=" (actual_var_name var_name) = false
  /\ Py.contains "(" (actual_var_name var_name) = false
  /\ Py.strip (actual_var_name var_name) = actual_var_name var_name
  /\ actual_var_name (actual_var_name var_name) = actual_var_name var_name.
Proof.
  assert (Hfix : forall name,
             Py.contains "=" name = false -> Py.contains "(" name = false ->
             Py.strip name = name -> actual_var_name name = name).
  { intros name He Hp Hs. unfold actual_var_name, Py.split.
    rewrite split_go_absent by done. unfold Py.first. simpl.
    change (String.rev_app EmptyString name) with name.
    by rewrite Hs, Hp. }
  assert (Hall : Py.contains "=" (actual_var_name var_name) = false
                 /\ Py.contains "(" (actual_var_name var_name) = false
                 /\ Py.strip (actual_var_name var_name)
                    = actual_var_name var_name).
  { unfold actual_var_name.
    set (head := Py.strip (Py.first (Py.split "=" var_name))).
    assert (He : Py.contains "=" head = false).
    { apply contains_strip_by. by apply first_split_has_no_separator. }
    destruct (Py.contains "(" head) eqn:Hp.
    - split; [|split].
      + apply contains_strip_by.
        destruct (last_split_suffix "(" head) as (pre & Hpre).
        destruct (Py.contains "=" (Py.last (Py.split "(" head))) eqn:Hc;
          [|done].
        rewrite Hpre in He. by rewrite contains_app_l in He.
      + apply contains_strip_by. by apply last_split_has_no_separator.
      + apply strip_by_idemp.
    - split; [done|]. split; [done|]. apply strip_by_idemp. }
  destruct Hall as (He & Hp & Hs). repeat split; try done.
  by apply Hfix.
Qed.

(* ===================================================================== *)
(** * Further properties of the annotation parser *)
(* ===================================================================== *)

(** The first piece of a split that may cut contains no separator. *)
Lemma first_split_go_budget (sep s cur : string) (budget : option nat) :
  sep <> EmptyString ->
  budget <> Some 0%nat ->
  no_start sep cur s = true ->
  Py.contains sep (Py.first (Py.split_go sep 0 budget cur s)) = false.
Proof.
  intros Hsep Hb. revert cur. induction s as [|c s IH]; intros cur Hns.
  - simpl. unfold Py.first. simpl. apply contains_rev_app; [done|].
    by destruct sep.
  - rewrite split_go_cons.
    assert (Ha : match budget with Some 0%nat => false | _ => true end
                 = true).
    { by destruct budget as [[|n]|]. }
    rewrite Ha. cbn [andb].
    destruct (String.prefix sep (String c s)) eqn:Hp.
    + unfold Py.first. simpl. apply contains_rev_app.
      * by apply (no_start_shrink sep cur EmptyString (String c s)).
      * by destruct sep.
    + apply IH. cbn [no_start]. by rewrite Hp.
Qed.

Section MoreParserFacts.
Variable source_file : string.
Variable content : list string.

Lemma parse_block_step (i : nat) (acc : list Test) :
  parse_block source_file content i acc
  = match content !! i with
    | None => (i, acc)
    | Some raw =>
        if negb (Py.startswith "//" (Py.strip raw)) then (i, acc)
        else
          parse_block source_file content (S i)
            (parse_check source_file i (Py.strip raw) acc)
    end.
Proof.
  funelim (parse_block source_file content i acc).
  - by rewrite Hraw.
  - match goal with Hn : content !! _ = None |- _ => by rewrite Hn end.
Qed.

Lemma parse_file_step (i : nat) (acc : list TestCase) :
  parse_file source_file content i acc
  = match content !! i with
    | None => acc
    | Some raw =>
        if Py.startswith "// Expected:" (Py.strip raw) then
          parse_file source_file content
            (fst (parse_block source_file content (S i) []))
            (acc ++ [mkTestCase source_file (Z.of_nat i + 1)
                       (Z.of_nat
                          (fst (parse_block source_file content (S i) [])))
                       (snd (parse_block source_file content (S i) []))])
        else parse_file source_file content (S i) acc
    end.
Proof.
  funelim (parse_file source_file content i acc).
  - by rewrite Hraw.
  - match goal with Hn : content !! _ = None |- _ => by rewrite Hn end.
Qed.

(** Induction on what is left of the file. *)
Lemma scan_ind (P : nat -> Prop) :
  (forall i,
      (forall j, (i < j)%nat -> (i < length content)%nat -> P j) -> P i) ->
  forall i, P i.
Proof.
  intros Hstep i.
  assert (Hall : forall n k, (length content - k < n)%nat -> P k).
  { induction n as [|n IH]; intros k Hk; [lia|].
    apply Hstep. intros j Hj Hin. apply IH. lia. }
  apply (Hall (S (length content - i))). lia.
Qed.

Lemma parse_file_acc (i : nat) (acc : list TestCase) :
  parse_file source_file content i acc
  = acc ++ parse_file source_file content i [].
Proof.
  revert acc. induction i as [i IH] using scan_ind. intros acc.
  rewrite (parse_file_step i acc), (parse_file_step i []).
  destruct (content !! i) as [raw|] eqn:Hraw; [|by rewrite app_nil_r].
  apply lookup_lt_Some in Hraw.
  destruct (Py.startswith _ _).
  - pose proof (parse_block_spec source_file content (S i) []) as [Hge _].
    set (e := fst (parse_block source_file content (S i) [])) in *.
    assert (He : (i < e)%nat) by lia.
    rewrite (IH e He Hraw (acc ++ _)), (IH e He Hraw ([] ++ _)).
    by rewrite <- app_assoc.
  - apply IH; [lia|done].
Qed.

(** The scan from [i] on, case by case. *)
Lemma parse_file_cons (i : nat) :
  parse_file source_file content i []
  = match content !! i with
    | None => []
    | Some raw =>
        if Py.startswith "// Expected:" (Py.strip raw) then
          mkTestCase source_file (Z.of_nat i + 1)
            (Z.of_nat (fst (parse_block source_file content (S i) [])))
            (snd (parse_block source_file content (S i) []))
            :: parse_file source_file content
                 (fst (parse_block source_file content (S i) [])) []
        else parse_file source_file content (S i) []
    end.
Proof.
  rewrite (parse_file_step i []).
  destruct (content !! i) as [raw|]; [|done].
  destruct (Py.startswith _ _); [|done].
  by rewrite parse_file_acc.
Qed.

(** The cases found from [i] on start after [i], and each ends before the
    next one starts. *)
Lemma parse_file_sorted (i : nat) :
  Forall (fun tc => Z.of_nat i < start_line tc)
    (parse_file source_file content i [])
  /\ StronglySorted case_before (parse_file source_file content i []).
Proof.
  induction i as [i IH] using scan_ind.
  rewrite parse_file_cons.
  destruct (content !! i) as [raw|] eqn:Hraw; [|by split; constructor].
  apply lookup_lt_Some in Hraw.
  destruct (Py.startswith _ _).
  - pose proof (parse_block_spec source_file content (S i) []) as [Hge _].
    destruct (IH (fst (parse_block source_file content (S i) []))
                ltac:(lia) Hraw) as [Hstart Hsorted].
    split.
    + constructor; [cbn [start_line]; lia|].
      eapply Forall_impl; [exact Hstart|]. intros tc Htc.
      cbn beta in Htc. lia.
    + constructor; [done|].
      eapply Forall_impl; [exact Hstart|]. intros tc Htc.
      unfold case_before. cbn [end_line]. exact Htc.
  - destruct (IH (S i) ltac:(lia) Hraw) as [Hstart Hsorted].
    split; [|done].
    eapply Forall_impl; [exact Hstart|]. intros tc Htc.
    cbn beta in Htc. lia.
Qed.

(** No case is found from [i] on exactly when no line from [i] on is a
    marker. *)
Lemma parse_file_nil (i : nat) :
  parse_file source_file content i [] = []
  <-> forall j, (i <= j)%nat -> is_marker content j = false.
Proof.
  induction i as [i IH] using scan_ind.
  rewrite parse_file_cons.
  destruct (content !! i) as [raw|] eqn:Hraw.
  - pose proof Hraw as Hin. apply lookup_lt_Some in Hin.
    destruct (Py.startswith "// Expected:" (Py.strip raw)) eqn:Hm.
    + split; [done|]. intros Hno. specialize (Hno i ltac:(lia)).
      unfold is_marker in Hno. rewrite Hraw in Hno. congruence.
    + rewrite (IH (S i) ltac:(lia) Hin). split.
      * intros Hno j Hj. destruct (decide (j = i)) as [->|Hne].
        -- unfold is_marker. by rewrite Hraw.
        -- apply Hno. lia.
      * intros Hno j Hj. apply Hno. lia.
  - split; [|done]. intros _ j Hj. unfold is_marker.
    apply lookup_ge_None in Hraw.
    by rewrite (proj2 (lookup_ge_None content j)) by lia.
Qed.
End MoreParserFacts.

Section ParserChecks.
Variable file : string.
Variable content : list string.

(** What a comment line adds: nothing, or one check on that line. *)
Lemma parse_check_spec (i : nat) (line : string) (acc : list Test) :
  parse_check file i line acc = acc
  \/ exists check,
       parse_check file i line acc = acc ++ [check]
       /\ source_file check = file
       /\ line_number check = Z.of_nat i + 1
       /\ Py.contains ":" (variable check) = false
       /\ Py.strip (variable check) = variable check
       /\ Py.strip (expected_value check) = expected_value check.
Proof.
  unfold parse_check.
  pose proof (first_split_go_budget ":" (Py.strip (Py.lstrip_chars "//" line))
                EmptyString (Some 1%nat)) as Hfirst.
  fold (Py.split_max ":" 1 (Py.strip (Py.lstrip_chars "//" line))) in Hfirst.
  destruct (Py.split_max _ _ _) as [|var [|value [|]]]; auto.
  right. eexists. split; [reflexivity|]. simpl.
  repeat split.
  - apply contains_strip_by. by apply Hfirst.
  - apply strip_by_idemp.
  - apply strip_by_idemp.
Qed.

Lemma parse_block_checks (i : nat) (acc : list Test) :
  exists new,
    snd (parse_block file content i acc) = acc ++ new
    /\ Forall
         (fun check =>
            source_file check = file
            /\ Z.of_nat i < line_number check
               <= Z.of_nat (fst (parse_block file content i acc))
            /\ Py.contains ":" (variable check) = false
            /\ Py.strip (variable check) = variable check
            /\ Py.strip (expected_value check) = expected_value check)
         new
    /\ StronglySorted check_before new.
Proof.
  revert acc. induction i as [i IH] using (scan_ind content).
  intros acc. rewrite (parse_block_step file content i acc).
  destruct (content !! i) as [raw|] eqn:Hraw.
  2:{ exists []. rewrite app_nil_r. repeat split; constructor. }
  apply lookup_lt_Some in Hraw.
  destruct (negb _).
  { exists []. rewrite app_nil_r. repeat split; constructor. }
  pose proof (parse_block_spec file content (S i)
                (parse_check file i (Py.strip raw) acc)) as [Hge _].
  destruct (IH (S i) ltac:(lia) Hraw
              (parse_check file i (Py.strip raw) acc))
    as (new & Hnew & Hall & Hsorted).
  assert (Hlater : Forall
            (fun check =>
               source_file check = file
               /\ Z.of_nat i < line_number check
                  <= Z.of_nat
                       (fst (parse_block file content (S i)
                               (parse_check file i (Py.strip raw)
                                  acc)))
               /\ Py.contains ":" (variable check) = false
               /\ Py.strip (variable check) = variable check
               /\ Py.strip (expected_value check) = expected_value check)
            new).
  { eapply Forall_impl; [exact Hall|]. intros check Hc. cbn beta in Hc.
    destruct Hc as (? & ? & ?). repeat split; try tauto; lia. }
  destruct (parse_check_spec i (Py.strip raw) acc)
    as [Hnone|(check & Hone & Hsf & Hline & Hrest)].
  - exists new. rewrite Hnone in *. by repeat split.
  - exists (check :: new). rewrite Hone in *.
    split; [by rewrite Hnew, <- app_assoc|]. split.
    + constructor; [|done]. repeat split; try tauto; lia.
    + constructor; [done|].
      eapply Forall_impl; [exact Hall|]. intros later Hl. cbn beta in Hl.
      unfold check_before. lia.
Qed.

Lemma parse_file_checks (i : nat) :
  Forall
    (fun tc =>
       Forall (check_in_block tc) (tests tc)
       /\ StronglySorted check_before (tests tc))
    (parse_file file content i []).
Proof.
  induction i as [i IH] using (scan_ind content).
  rewrite parse_file_cons.
  destruct (content !! i) as [raw|] eqn:Hraw; [|constructor].
  apply lookup_lt_Some in Hraw.
  destruct (Py.startswith _ _); [|apply IH; [lia|done]].
  pose proof (parse_block_spec file content (S i) []) as [Hge _].
  constructor; [|apply IH; [lia|done]].
  destruct (parse_block_checks (S i) []) as (new & Hnew & Hall & Hsorted).
  simpl in Hnew. cbn [tests]. rewrite Hnew. split; [|done].
  eapply Forall_impl; [exact Hall|]. intros check Hc. cbn beta in Hc.
  unfold check_in_block. cbn [tc_source_file start_line end_line].
  destruct Hc as (? & ? & ?). repeat split; try tauto; lia.
Qed.
End ParserChecks.

(** The parse of a list of files, file by file. *)
Lemma parse_files_from (fs : FileSystem)
    (source_files : list string) (acc : list TestCase) :
  py_for source_files
    (fun source_file test_cases =>
       match fs source_file with
       | Raise e => Raise e
       | Ok content => Ok (parse_file source_file content 0 test_cases)
       end)
    acc
  = match read_error fs source_files with
    | Some e => Raise e
    | None => Ok (acc ++ concat (cases_of_file fs <$> source_files))
    end.
Proof.
  revert acc. induction source_files as [|f rest IH]; intros acc.
  - simpl. by rewrite app_nil_r.
  - cbn [py_for read_error]. unfold cases_of_file at 1.
    destruct (fs f) as [content|e] eqn:Hf; [|done].
    rewrite IH. destruct (read_error fs rest); [done|].
    simpl. unfold cases_of_file at 1.
    rewrite Hf, parse_file_acc. by rewrite <- app_assoc.
Qed.

Lemma read_error_None (fs : FileSystem) (source_files : list string) :
  read_error fs source_files = None
  <-> Forall (fun f => exists content, fs f = Ok content) source_files.
Proof.
  induction source_files as [|f rest IH]; simpl.
  - split; [constructor|done].
  - destruct (fs f) as [content|e] eqn:Hf.
    + rewrite IH. split.
      * intros Hrest. constructor; [by exists content|done].
      * by intros [_ Hrest]%Forall_cons.
    + split; [done|]. intros [[content Hc] _]%Forall_cons. congruence.
Qed.

Lemma read_error_app (fs : FileSystem) (before after : list string) :
  Forall (fun f => exists content, fs f = Ok content) before ->
  read_error fs (before ++ after) = read_error fs after.
Proof.
  induction 1 as [|f before [content Hf] _ IH]; [done|].
  simpl. by rewrite Hf.
Qed.

(** X7. [parse_expected_values] reads the files in the order given and
    returns the test cases of each, one file after the other.  It returns
    exactly when every file can be read; otherwise it raises what opening
    or reading the first file that cannot be read raises, and the cases of
    the files before it are lost. *)
Theorem parse_expected_values_by_file (fs : FileSystem)
    (source_files : list string) :
  (Forall (fun f => exists content, fs f = Ok content) source_files ->
   parse_expected_values fs source_files
   = Ok (concat (cases_of_file fs <$> source_files)))
  /\ (forall test_cases,
         parse_expected_values fs source_files = Ok test_cases ->
         Forall (fun f => exists content, fs f = Ok content) source_files)
  /\ (forall before unreadable after e,
         source_files = before ++ unreadable :: after ->
         Forall (fun f => exists content, fs f = Ok content) before ->
         fs unreadable = Raise e ->
         parse_expected_values fs source_files = Raise e).
Proof.
  unfold parse_expected_values. rewrite parse_files_from. split_and!.
  - intros Hall. apply read_error_None in Hall. by rewrite Hall.
  - intros test_cases.
    destruct (read_error fs source_files) eqn:Herr; [done|].
    intros _. by apply read_error_None.
  - intros before unreadable after e -> Hbefore Hraise.
    rewrite read_error_app by done. simpl. by rewrite Hraise.
Qed.

Lemma parsed_cases_forall (P : TestCase -> Prop)
    (fs : FileSystem) (source_files : list string)
    (test_cases : list TestCase) :
  (forall f content i,
      fs f = Ok content -> Forall P (parse_file f content i [])) ->
  parse_expected_values fs source_files = Ok test_cases ->
  Forall P test_cases.
Proof.
  intros HP. unfold parse_expected_values. rewrite parse_files_from.
  destruct (read_error fs source_files); [done|].
  intros [= <-]. simpl. apply Forall_concat, Forall_fmap, Forall_forall.
  intros f _. unfold compose, cases_of_file.
  destruct (fs f) as [content|e] eqn:Hf; [by eapply HP|constructor].
Qed.

(** X8. Every check of a parsed test case is declared in the file of the
    case, on a line after the marker line and not after the last comment
    line of the block; the checks of a case are in the order of their lines.
    The variable of a check is the text before the first colon of its line:
    it contains no colon, and neither it nor the expected value has
    whitespace around it. *)
Theorem parsed_checks_in_block (fs : FileSystem)
    (source_files : list string) (test_cases : list TestCase) :
  parse_expected_values fs source_files = Ok test_cases ->
  Forall
    (fun tc =>
       Forall (check_in_block tc) (tests tc)
       /\ StronglySorted check_before (tests tc))
    test_cases.
Proof.
  apply parsed_cases_forall. intros f content i _.
  apply parse_file_checks.
Qed.

Lemma parse_one_file (fs : FileSystem)
    (source_file : string) (content : list string) :
  fs source_file = Ok content ->
  parse_expected_values fs [source_file]
  = Ok (parse_file source_file content 0 []).
Proof. intros Hf. unfold parse_expected_values. simpl. by rewrite Hf. Qed.

(** X9. The test cases of one file come in the order of the file and do not
    overlap: each case ends before the next one starts. *)
Theorem cases_of_file_ordered (fs : FileSystem)
    (source_file : string) (test_cases : list TestCase) :
  parse_expected_values fs [source_file] = Ok test_cases ->
  StronglySorted case_before test_cases.
Proof.
  destruct (fs source_file) as [content|e] eqn:Hf.
  - rewrite (parse_one_file fs source_file content Hf). intros [= <-].
    apply parse_file_sorted.
  - unfold parse_expected_values. simpl. by rewrite Hf.
Qed.

(** X10. A file that can be read gives no test case exactly when none of
    its lines is a marker line. *)
Theorem cases_of_file_empty (fs : FileSystem)
    (source_file : string) (content : list string) :
  fs source_file = Ok content ->
  parse_expected_values fs [source_file] = Ok []
  <-> forall j, is_marker content j = false.
Proof.
  intros Hf. rewrite (parse_one_file fs source_file content Hf).
  split.
  - intros [= Hnil] j.
    apply (proj1 (parse_file_nil source_file content 0) Hnil). lia.
  - intros Hno. f_equal.
    apply (proj2 (parse_file_nil source_file content 0)).
    intros j _. apply Hno.
Qed.

(* ===================================================================== *)
(** * More on the checks *)
(* ===================================================================== *)


Section MoreCheckTheorems.
Context `{Backend}.
Variable w : World.
Variable process : SBProcess.
Variable depth : nat.

Lemma execute_check_result (all_variable_names : gset pystr)
    (check : Test) (r : TestResult) :
  execute_check w process depth all_variable_names check = Ok r ->
  test r = check /\ pass_or_fail r /\ names_recorded all_variable_names r.
Proof.
  unfold execute_check, pass_or_fail, names_recorded. case_bool_decide as Hv.
  - intros [= <-]. unfold execute_all_variables_test.
    set (expected_vars := list_to_set _).
    assert (Hstr : None ∉ expected_vars).
    { unfold expected_vars. rewrite elem_of_list_to_set, list_elem_of_fmap.
      by intros (name & [=] & _). }
    destruct (decide _) as [Heq|Hne]; simpl.
    + split; [done|]. split; [by left|]. intros _.
      split; [done|]. split; [|done].
      intros _. by rewrite <- Heq.
    + split; [done|]. split; [by right|]. intros _.
      split; [done|]. split; [done|]. intros _.
      eexists _, _. split; [done|]. split; [done|].
      rewrite !elem_of_difference. tauto.
  - unfold execute_single_variable_test, get_variable_value.
    pose proof (format_value_not_None w process depth
      (FindVariable w process (actual_var_name (variable check)))) as Hn.
    destruct (format_value _ _ _ _) as [[v|]|e]; simpl; [|done|done].
    case_bool_decide; intros [= <-]; simpl; split_and!; auto; done.
Qed.

Lemma execute_check_raises (all_variable_names : gset pystr)
    (check : Test) (e : exn) :
  execute_check w process depth all_variable_names check = Raise e ->
  variable check <> "all variables"%string
  /\ get_variable_value w process depth (variable check) = Raise e.
Proof.
  unfold execute_check. case_bool_decide as Hv; [done|].
  unfold execute_single_variable_test.
  destruct (get_variable_value _ _ _ _) as [[v|]|e']; simpl.
  - by case_bool_decide.
  - done.
  - by intros [= <-].
Qed.

Lemma execute_checks_loop (all_variable_names : gset pystr)
    (checks : list Test) (acc : list TestResult) :
  match
    py_for checks
      (fun check results =>
         result <- execute_check w process depth all_variable_names check ;;
         Ok (results ++ [result]))%result
      acc
  with
  | Ok results =>
      exists new,
        results = acc ++ new
        /\ test <$> new = checks
        /\ Forall pass_or_fail new
        /\ Forall (names_recorded all_variable_names) new
  | Raise e =>
      exists done check rest,
        checks = done ++ check :: rest
        /\ variable check <> "all variables"%string
        /\ get_variable_value w process depth (variable check) = Raise e
        /\ Forall
             (fun c =>
                exists r,
                  execute_check w process depth all_variable_names c = Ok r)
             done
  end.
Proof.
  revert acc. induction checks as [|check checks IH]; intros acc.
  - simpl. exists []. by rewrite app_nil_r.
  - cbn [py_for].
    destruct (execute_check w process depth all_variable_names check)
      as [r|e] eqn:Hcheck; simpl.
    + specialize (IH (acc ++ [r])).
      apply execute_check_result in Hcheck as Hr.
      destruct Hr as (Htest & Hstatus & Hnames).
      destruct (py_for checks _ (acc ++ [r])) as [results|e].
      * destruct IH as (new & -> & Hnew & Hall & Hrec).
        exists (r :: new).
        split_and!; [by rewrite <- app_assoc
                    |by rewrite fmap_cons, Htest, Hnew
                    |by constructor|by constructor].
      * destruct IH as (done & c & rest & -> & Hc & Hraise & Hdone).
        exists (check :: done), c, rest. split_and!; try done.
        constructor; [by exists r|done].
    + apply execute_check_raises in Hcheck as [Hv Hraise].
      exists [], check, checks. split_and!; try done.
Qed.

Lemma execute_test_case_inv (test_case : TestCase)
    (all_variable_names : gset pystr) (case_result : CaseResult) :
  execute_test_case w process depth test_case all_variable_names
  = Ok case_result ->
  cr_test_case case_result = test_case
  /\ cr_function case_result = GetFunctionName w process
  /\ test <$> cr_results case_result = tests test_case
  /\ Forall pass_or_fail (cr_results case_result)
  /\ Forall (names_recorded all_variable_names) (cr_results case_result).
Proof.
  unfold execute_test_case.
  pose proof (execute_checks_loop all_variable_names (tests test_case) [])
    as Hloop.
  destruct (py_for _ _ _) as [results|e0]; simpl; [|done].
  intros [= <-]. simpl.
  destruct Hloop as (new & -> & Hnew & Hall & Hrec). by simpl.
Qed.

(** X12. [execute_test_case] gives one result per check of the case, in
    the order of the checks; every result ends with the status pass or
    fail, and the case result names the case and the function of the
    frame.  It raises only when rendering the variable of one of its
    single-variable checks raises: the exception is the one of the first
    such check, and the results of the checks before it are lost. *)
Theorem execute_test_case_results (test_case : TestCase)
    (all_variable_names : gset pystr) :
  (forall case_result,
      execute_test_case w process depth test_case all_variable_names
      = Ok case_result ->
      cr_test_case case_result = test_case
      /\ cr_function case_result = GetFunctionName w process
      /\ test <$> cr_results case_result = tests test_case
      /\ Forall pass_or_fail (cr_results case_result))
  /\ (forall e,
         execute_test_case w process depth test_case all_variable_names
         = Raise e ->
         exists done check rest,
           tests test_case = done ++ check :: rest
           /\ variable check <> "all variables"%string
           /\ get_variable_value w process depth (variable check) = Raise e
           /\ Forall
                (fun c =>
                   exists r,
                     execute_check w process depth all_variable_names c
                     = Ok r)
                done).
Proof.
  split.
  - intros case_result Hrun.
    apply execute_test_case_inv in Hrun as (? & ? & ? & ? & _). done.
  - unfold execute_test_case.
    pose proof (execute_checks_loop all_variable_names (tests test_case) [])
      as Hloop.
    destruct (py_for _ _ _) as [results|e0]; simpl; [done|].
    by intros e [= <-].
Qed.

(** X13. A single-variable check compares the rendered value and the
    expected value with the whitespace around each taken off: whitespace
    added around the expected value changes neither the status nor the
    value recorded, and the value recorded has no whitespace around it. *)
Theorem single_variable_check_ignores_padding (check : Test)
    (pre post : string) :
  blank pre = true -> blank post = true ->
  verdict
    (execute_single_variable_test w process depth
       (with_expected check (pre +:+ expected_value check +:+ post)))
  = verdict (execute_single_variable_test w process depth check)
  /\ (forall r,
         execute_single_variable_test w process depth check = Ok r ->
         exists text,
           actual r = Some (ActualStr text) /\ Py.strip text = text
           /\ (status r = "pass"%string
               <-> text = Py.strip (expected_value check))).
Proof.
  intros Hpre Hpost. unfold execute_single_variable_test.
  cbn [with_expected variable expected_value].
  assert (Hpad : Py.strip (pre +:+ expected_value check +:+ post)
                 = Py.strip (expected_value check))
    by (by apply strip_by_pad).
  rewrite Hpad.
  unfold get_variable_value.
  pose proof (format_value_not_None w process depth
    (FindVariable w process (actual_var_name (variable check)))) as Hn.
  destruct (format_value _ _ _ _) as [[v|]|e]; simpl; [|done|done].
  split.
  - by case_bool_decide.
  - intros r. case_bool_decide as Heq; intros [= <-]; simpl;
      exists (Py.strip v); split_and!; try done; try apply strip_by_idemp.
Qed.
End MoreCheckTheorems.

(* ===================================================================== *)
(** * More on the debug session *)
(* ===================================================================== *)

Section MoreDriverTheorems.
Context `{Backend}.
Variable executable_path : string.
Variable plugin_path : pystr.
Variable depth : nat.
Variable repr_set : gset pystr -> string.

(** X14. [run_to_breakpoint] launches the program when there is no valid
    process and continues the process otherwise; that is its only call, and
    it reads nothing from the terminal.  It leaves a process in
    [debugger.process] in either case, so that it never fails for want of
    one: it returns when that process is stopped and raises
    [Exception("Process didn't stop at breakpoint")] when it is not. *)
Theorem run_to_breakpoint_stops (s s' : Session) (r : result unit) :
  run_to_breakpoint s = (r, s') ->
  calls s' = calls s ++ [if process_truthy s then EvContinue else EvLaunch]
  /\ stdin s' = stdin s
  /\ exists p,
       process s' = Some p
       /\ (process_truthy s = true -> process s = Some p)
       /\ r = if bool_decide (GetState (world s') p = eStateStopped)
              then Ok tt
              else Raise (Exception "Process didn't stop at breakpoint").
Proof.
  unfold run_to_breakpoint, bind, on_frame, process_truthy, launch, call.
  destruct (process s) as [p|] eqn:Hp.
  - destruct (ProcessIsValid (world s) p) eqn:Hvalid; simpl.
    + case_bool_decide as Hst; simpl; intros [= <- <-]; simpl;
        (split; [done|]); (split; [done|]); exists p;
        (split; [done|]); (split; [done|]).
      * by rewrite bool_decide_eq_false_2.
      * by rewrite bool_decide_eq_true_2.
    + destruct (LaunchSimple (world s)) as [p' w'] eqn:Hl. simpl.
      case_bool_decide as Hst; simpl; intros [= <- <-]; simpl;
        (split; [done|]); (split; [done|]); exists p';
        (split; [done|]); (split; [done|]).
      * by rewrite bool_decide_eq_false_2.
      * by rewrite bool_decide_eq_true_2.
  - destruct (LaunchSimple (world s)) as [p' w'] eqn:Hl. simpl.
    case_bool_decide as Hst; simpl; intros [= <- <-]; simpl;
      (split; [done|]); (split; [done|]); exists p';
      (split; [done|]); (split; [done|]).
    + by rewrite bool_decide_eq_false_2.
    + by rewrite bool_decide_eq_true_2.
Qed.

Lemma console_loop_spec (inputs : list console_input) (w : World)
    (log : list event) :
  exists texts,
    Forall (fun text => is_quit text = false) texts
    /\ let '(answer, rest, w', log') := console_loop inputs w log in
       (inputs = Line <$> texts /\ rest = [] /\ answer = Ok true
        /\ w' = after_commands texts w
        /\ log' = log ++ (EvInterpreterCommand <$> (Py.strip <$> texts)))
       \/ exists stop,
            inputs = (Line <$> texts) ++ stop :: rest
            /\ ends_console stop = true
            /\ answer = console_answer stop
            /\ w' = after_commands (texts ++ last_command stop) w
            /\ log'
               = log
                 ++ (EvInterpreterCommand
                     <$> (Py.strip <$> texts ++ last_command stop)).
Proof.
  revert w log. induction inputs as [|input inputs IH]; intros w log.
  - exists []. split; [constructor|]. simpl. rewrite app_nil_r.
    left. by split_and!.
  - destruct input as [text| | | |text sent|].
    + cbn [console_loop]. case_bool_decide as Hq.
      * exists []. split; [constructor|]. right. exists (Line text).
        simpl. rewrite app_nil_r. split_and!; try done.
        by apply bool_decide_eq_true_2.
      * destruct (IH (InterpreterHandleCommand (Py.strip text) w)
                    (log ++ [EvInterpreterCommand (Py.strip text)]))
          as (texts & Hall & Hloop).
        exists (text :: texts).
        split; [constructor; [by apply bool_decide_eq_false_2|done]|].
        destruct (console_loop inputs _ _) as [[[c rest] w'] log'].
        cbv beta iota in Hloop.
        destruct Hloop as [(Hin & Hrest & Hc & Hw & Hlog)
                          |(stop & Hin & Hstop & Hc & Hw & Hlog)];
          subst inputs c w' log'.
        -- subst rest. left. split_and!; try done.
           by rewrite <- app_assoc.
        -- right. exists stop. split_and!; try done.
           by rewrite <- app_assoc.
    + exists []. split; [constructor|]. right. exists Eof.
      simpl. rewrite app_nil_r. by split_and!.
    + exists []. split; [constructor|]. right. exists Interrupt.
      simpl. rewrite app_nil_r. by split_and!.
    + exists []. split; [constructor|]. right. exists InterruptAtPrompt.
      simpl. rewrite app_nil_r. by split_and!.
    + exists []. split; [constructor|].
      cbn [console_loop].
      destruct (bool_decide (Py.lower (Py.strip text) = "quit"%string))
        eqn:Hq; [|destruct sent]; simpl; right.
      * exists (LineThenInterrupt text sent). unfold last_command, is_quit.
        rewrite Hq. simpl. rewrite ?app_nil_r.
        split_and!; try done; destruct sent; simpl; by rewrite ?app_nil_r.
      * exists (LineThenInterrupt text true). unfold last_command, is_quit.
        rewrite Hq. by split_and!.
      * exists (LineThenInterrupt text false). simpl. rewrite ?app_nil_r.
        by split_and!.
    + exists []. split; [constructor|]. right. exists EofThenInterrupt.
      simpl. rewrite app_nil_r. by split_and!.
Qed.

(** X15. After its three preparing calls the console passes the lines
    typed to the interpreter in order, each with the whitespace around it
    taken off, up to the first line that is [quit] (in any case), the end of
    the input or an interrupt; what follows is left unread.  It answers
    [False], which aborts the run, exactly when the interrupt arrived while
    it was waiting for a line.  An interrupt that arrives elsewhere in the
    loop leaves [run_console] as a [KeyboardInterrupt], after the command
    just read was passed to the interpreter or before; nothing else makes
    [run_console] raise. *)
Theorem run_console_commands (s s' : Session) (r : result bool) :
  run_console s = (r, s') ->
  exists texts,
    Forall (fun text => is_quit text = false) texts
    /\ process s' = process s
    /\ ((stdin s = Line <$> texts /\ stdin s' = [] /\ r = Ok true
         /\ calls s'
            = calls s ++ console_setup
              ++ (EvInterpreterCommand <$> (Py.strip <$> texts)))
        \/ exists stop,
             stdin s = (Line <$> texts) ++ stop :: stdin s'
             /\ ends_console stop = true
             /\ r = console_answer stop
             /\ calls s'
                = calls s ++ console_setup
                  ++ (EvInterpreterCommand
                      <$> (Py.strip <$> texts ++ last_command stop))).
Proof.
  unfold run_console, bind, call. simpl.
  match goal with
  | |- context [console_loop ?i ?w ?l] =>
      destruct (console_loop_spec i w l) as (texts & Hall & Hloop);
      destruct (console_loop i w l) as [[[c rest] w'] log']
  end.
  cbv beta iota in Hloop.
  intros [= <- <-]. simpl. exists texts. split; [done|]. split; [done|].
  destruct Hloop as [(Hin & Hrest & Hc & Hw & Hlog)
                    |(stop & Hin & Hstop & Hc & Hw & Hlog)];
    subst c w' log'.
  - subst rest. left. split_and!; try done. unfold console_setup.
    by rewrite <- !app_assoc.
  - right. exists stop. split_and!; try done. unfold console_setup.
    by rewrite <- !app_assoc.
Qed.
End MoreDriverTheorems.

Section BatchFacts.
Context `{Backend}.

Lemma batch_ret {A} (a : A) : batch (ret a).
Proof.
  intros s r s' [= <- <-]. split; [done|]. exists []. by rewrite app_nil_r.
Qed.

Lemma batch_raise {A} (e : exn) : batch (raise (A := A) e).
Proof.
  intros s r s' [= <- <-]. split; [done|]. exists []. by rewrite app_nil_r.
Qed.

Lemma batch_bind {A B} (m : M A) (k : A -> M B) :
  batch m -> (forall a, batch (k a)) -> batch (bind m k).
Proof.
  intros Hm Hk s r s' Hb.
  apply bind_inv in Hb as [(a & s1 & H1 & H2)|(e & H1 & _)].
  - apply Hm in H1 as (Hin1 & new1 & H1 & HP1).
    apply Hk in H2 as (Hin2 & new2 & H2 & HP2).
    split; [congruence|].
    rewrite H1, <- app_assoc in H2.
    exists (new1 ++ new2). split; [done|]. by apply Forall_app.
  - by apply Hm in H1.
Qed.

Lemma batch_call (e : event) (f : World -> World) :
  is_batch_event e = true -> batch (call e f).
Proof.
  intros HP s r s' [= <- <-]. split; [done|]. exists [e]. simpl.
  split; [done|]. by apply Forall_singleton.
Qed.

Lemma batch_on_frame {A} (f : World -> SBProcess -> result A) :
  batch (on_frame f).
Proof.
  intros s r s'. unfold on_frame.
  destruct (process s); intros [= <- <-]; (split; [done|]); exists [];
    by rewrite app_nil_r.
Qed.

Lemma batch_lift {A} (r : result A) : batch (lift r).
Proof.
  intros s r' s' [= <- <-]. split; [done|]. exists []. by rewrite app_nil_r.
Qed.

Lemma batch_launch : batch launch.
Proof.
  intros s r s'. unfold launch.
  destruct (LaunchSimple (world s)) as [p w'].
  intros [= <- <-]. split; [done|]. exists [EvLaunch]. simpl.
  split; [done|]. by apply Forall_singleton.
Qed.

Lemma batch_run_to_breakpoint : batch run_to_breakpoint.
Proof.
  unfold run_to_breakpoint. apply batch_bind.
  - intros s r s'. destruct (process s) as [p|].
    + destruct (process_truthy s).
      * by apply batch_call.
      * by apply batch_launch.
    + by apply batch_launch.
  - intros _. apply batch_bind; [apply batch_on_frame|intros st].
    destruct (bool_decide _); [apply batch_raise|apply batch_ret].
Qed.

Lemma batch_set_breakpoint (file : string) (line : Z) :
  batch (set_breakpoint file line).
Proof.
  unfold set_breakpoint. apply batch_bind.
  - intros s r s'.
    destruct (BreakpointCreateByLocation file line (world s)) as [b w'].
    intros [= <- <-]. split; [done|]. eexists [_]. simpl.
    split; [done|]. by apply Forall_singleton.
  - intros b. destruct (negb _); [apply batch_raise|apply batch_ret].
Qed.

Variable depth : nat.
Variable repr_set : gset pystr -> string.

Lemma batch_execute_tests_body (test_case : TestCase)
    (results : TestResults) :
  batch (execute_tests_body depth repr_set false test_case results).
Proof.
  unfold execute_tests_body.
  apply batch_bind; [apply batch_set_breakpoint|intros bp].
  apply batch_bind; [apply batch_run_to_breakpoint|intros _].
  apply batch_bind; [apply batch_on_frame|intros fn].
  apply batch_bind; [apply batch_on_frame|intros names].
  apply batch_bind; [apply batch_on_frame|intros cr].
  apply batch_bind; [apply batch_lift|intros _].
  cbn [andb].
  apply batch_bind; [by apply batch_call|intros _]. apply batch_ret.
Qed.

Lemma batch_execute_tests_loop (test_cases : list TestCase)
    (results : TestResults) :
  batch (execute_tests_loop depth repr_set false test_cases results).
Proof.
  revert results. induction test_cases as [|tc rest IH]; intros results.
  - apply batch_ret.
  - cbn [execute_tests_loop].
    apply batch_bind; [apply batch_execute_tests_body|].
    intros [[] results1]; [apply IH|apply batch_ret].
Qed.

(** The case of one iteration: the outcome of [execute_test_case] at the
    stop, which was printed without an exception and added to the summary;
    the loop is left only from the console of a case with a failure. *)
Lemma execute_tests_body_case (interactive : bool) (test_case : TestCase)
    (results results' : TestResults) (x : loop_exit) (s s' : Session) :
  execute_tests_body depth repr_set interactive test_case results s
  = (Ok (x, results'), s') ->
  exists case_result w p names,
    execute_test_case w p depth test_case names = Ok case_result
    /\ outcome_of (print_case_result repr_set case_result) = Ok tt
    /\ results' = add_case_result results case_result
    /\ (x = LoopBreak -> interactive = true /\ has_failure case_result = true).
Proof.
  unfold execute_tests_body. intros Hrun.
  apply bind_Ok_inv in Hrun as (bp & s1 & _ & Hrun).
  apply bind_Ok_inv in Hrun as ([] & s2 & _ & Hrun).
  apply bind_Ok_inv in Hrun as (fn & s3 & _ & Hrun).
  apply bind_Ok_inv in Hrun as (names & s4 & _ & Hrun).
  apply bind_Ok_inv in Hrun as (cr & s5 & Hcr & Hrun).
  unfold on_frame in Hcr. destruct (process s4) as [p|]; [|done].
  injection Hcr as Hcr <-.
  apply bind_Ok_inv in Hrun as ([] & s5' & Hprint & Hrun).
  unfold lift in Hprint. injection Hprint as Hprint Hs. subst s5'.
  exists cr, (world s4), p, names. split; [done|]. split; [done|].
  fold (has_failure cr) in Hrun.
  destruct (interactive && has_failure cr) eqn:Hi.
  - apply andb_true_iff in Hi as [-> Hfail].
    apply bind_Ok_inv in Hrun as (cont & s6 & _ & Hrun).
    destruct cont; simpl in Hrun.
    + apply bind_Ok_inv in Hrun as ([] & s7 & _ & Hrun).
      apply bind_Ok_inv in Hrun as ([] & s8 & _ & Hrun).
      injection Hrun as <- <- <-. by split.
    + injection Hrun as <- <- <-. by split.
  - apply bind_Ok_inv in Hrun as ([] & s8 & _ & Hrun).
    injection Hrun as <- <- <-. by split.
Qed.

Lemma count_if_app {A} (p : A -> bool) (l1 l2 : list A) :
  count_if p (l1 ++ l2) = count_if p l1 + count_if p l2.
Proof.
  induction l1 as [|x l1 IH]; simpl; [done|].
  unfold count_if in *. simpl. destruct (p x); lia.
Qed.

Lemma count_if_nonneg {A} (p : A -> bool) (l : list A) : 0 <= count_if p l.
Proof.
  induction l as [|x l IH]; simpl; [done|].
  unfold count_if in *. simpl. destruct (p x); lia.
Qed.

Lemma count_if_existsb {A} (p : A -> bool) (l : list A) :
  existsb p l = true <-> 0 < count_if p l.
Proof.
  induction l as [|x l IH]; simpl; [split; [done|lia]|].
  pose proof (count_if_nonneg p l).
  unfold count_if in *. simpl. destruct (p x); simpl; [|done].
  split; [lia|done].
Qed.

Lemma count_if_ext {A} (p q : A -> bool) (l : list A) :
  Forall (fun x => p x = q x) l -> count_if p l = count_if q l.
Proof.
  induction 1 as [|x l Hx _ IH]; [done|].
  unfold count_if in *. simpl. by rewrite Hx, IH.
Qed.

(** What the loop adds to the summary. *)
Lemma execute_tests_loop_cases (interactive : bool)
    (test_cases : list TestCase) (results results' : TestResults)
    (s s' : Session) :
  execute_tests_loop depth repr_set interactive test_cases results s
  = (Ok results', s') ->
  exists new,
    case_results results' = case_results results ++ new
    /\ total results' = total results + checks_recorded new
    /\ passed results'
       = passed results + count_if is_pass (concat (cr_results <$> new))
    /\ failed results'
       = failed results
         + count_if (fun r => negb (is_pass r)) (concat (cr_results <$> new))
    /\ Forall2
         (fun test_case case_result =>
            exists w p names,
              execute_test_case w p depth test_case names = Ok case_result
              /\ outcome_of (print_case_result repr_set case_result)
                 = Ok tt)
         (take (length new) test_cases) new
    /\ ((length new < length test_cases)%nat ->
        interactive = true
        /\ exists case_result,
             last new = Some case_result
             /\ has_failure case_result = true).
Proof.
  revert results s. induction test_cases as [|tc rest IH];
    intros results s Hrun; simpl in Hrun.
  - injection Hrun as <- <-. exists []. rewrite app_nil_r. simpl.
    split_and!; try done; try lia.
  - apply bind_Ok_inv in Hrun as ([x results1] & s1 & Hbody & Hrun).
    apply execute_tests_body_case in Hbody
      as (cr & w & p & names & Hcr & Hprint & -> & Hbreak).
    destruct x.
    + apply IH in Hrun
        as (new & Hcases & Htotal & Hpassed & Hfailed & Hall & Hshort).
      exists (cr :: new). split_and!.
      * rewrite Hcases. cbn [add_case_result case_results].
        by rewrite <- app_assoc.
      * rewrite Htotal. cbn [add_case_result total]. 
        unfold checks_recorded. simpl. lia.
      * rewrite Hpassed. cbn [add_case_result passed].
        rewrite fmap_cons. cbn [concat]. rewrite count_if_app. lia.
      * rewrite Hfailed. cbn [add_case_result failed].
        rewrite fmap_cons. cbn [concat]. rewrite count_if_app. lia.
      * cbn [length take]. constructor; [by exists w, p, names|done].
      * cbn [length]. intros Hlt.
        destruct Hshort as (Hi & last_cr & Hlast & Hfail); [lia|].
        split; [done|]. exists last_cr. split; [|done].
        destruct new; [done|]. done.
    + injection Hrun as <- <-. exists [cr]. simpl.
      rewrite app_nil_r. unfold checks_recorded. simpl.
      split_and!; try done; try lia.
      * constructor; [by exists w, p, names|constructor].
      * intros _. destruct (Hbreak eq_refl) as [Hi Hfail].
        split; [done|]. by exists cr.
Qed.
End BatchFacts.

Lemma pass_or_fail_is_fail (r : TestResult) :
  pass_or_fail r -> negb (is_pass r) = is_fail r.
Proof.
  unfold is_pass, is_fail. intros [Hs|Hs]; rewrite Hs.
  - by rewrite bool_decide_eq_true_2.
  - by rewrite bool_decide_eq_false_2, bool_decide_eq_true_2.
Qed.

Section RunTheorems.
Context `{Backend}.
Variable depth : nat.
Variable repr_set : gset pystr -> string.

(** What every recorded case satisfies. *)
Lemma recorded_cases (test_cases : list TestCase) (new : list CaseResult) :
  Forall2
    (fun test_case case_result =>
       exists w p names,
         execute_test_case w p depth test_case names = Ok case_result
         /\ outcome_of (print_case_result repr_set case_result) = Ok tt)
    test_cases new ->
  cr_test_case <$> new = test_cases
  /\ Forall
       (fun case_result =>
          test <$> cr_results case_result
          = tests (cr_test_case case_result)
          /\ Forall pass_or_fail (cr_results case_result)
          /\ outcome_of (print_case_result repr_set case_result) = Ok tt)
       new.
Proof.
  induction 1
    as [|tc cr tcs new (w & p & names & Hcr & Hprint) _ [IH1 IH2]];
    [by split|].
  apply execute_test_case_inv in Hcr as (Htc & _ & Htests & Hpf & _).
  split; [by rewrite fmap_cons, Htc, IH1|].
  constructor; [|done]. by rewrite Htc.
Qed.

(** X16. Without the interactive flag [execute_tests] never enters the
    console: whether it returns or raises, it has read nothing from the
    terminal, and its only calls are those that set and delete a
    breakpoint and that launch or continue the process. *)
Theorem execute_tests_without_console (test_cases : list TestCase)
    (s s' : Session) (r : result TestResults) :
  execute_tests depth repr_set test_cases false s = (r, s') ->
  stdin s' = stdin s
  /\ exists new,
       calls s' = calls s ++ new
       /\ Forall (fun e => is_batch_event e = true) new.
Proof. apply batch_execute_tests_loop. Qed.

(** X17. The summary [execute_tests] returns holds the results of the
    test cases in the order given, one per case, each with one result per
    check of its case, in order, with the status pass or fail.  All the
    cases are there unless the run was interactive and the user aborted it:
    then the cases up to the aborted one are, and the last of them has a
    check that did not pass. *)
Theorem execute_tests_cases (test_cases : list TestCase)
    (interactive : bool) (results : TestResults) (s s' : Session) :
  execute_tests depth repr_set test_cases interactive s = (Ok results, s') ->
  let recorded := case_results results in
  cr_test_case <$> recorded = take (length recorded) test_cases
  /\ Forall
       (fun case_result =>
          test <$> cr_results case_result
          = tests (cr_test_case case_result)
          /\ Forall pass_or_fail (cr_results case_result))
       recorded
  /\ ((length recorded < length test_cases)%nat ->
      interactive = true
      /\ exists case_result,
           last recorded = Some case_result
           /\ has_failure case_result = true).
Proof.
  intros Hrun. cbv zeta. unfold execute_tests in Hrun.
  apply execute_tests_loop_cases in Hrun
    as (new & Hcases & _ & _ & _ & Hall & Hshort).
  simpl in Hcases. rewrite Hcases.
  apply recorded_cases in Hall as [Hmap Hall].
  split_and!; [done| |done].
  eapply Forall_impl; [exact Hall|]. intros cr (? & ? & _). by split.
Qed.

(** X18. In the summary [execute_tests] returns, [total] is the number of
    checks declared in the recorded cases, [passed] the number of results
    with the status pass and [failed] the number of results with the status
    fail. *)
Theorem execute_tests_counts (test_cases : list TestCase)
    (interactive : bool) (results : TestResults) (s s' : Session) :
  execute_tests depth repr_set test_cases interactive s = (Ok results, s') ->
  total results
  = checks_declared (cr_test_case <$> case_results results)
  /\ passed results = count_if is_pass (all_results results)
  /\ failed results = count_if is_fail (all_results results).
Proof.
  unfold execute_tests, all_results. intros Hrun.
  apply execute_tests_loop_cases in Hrun
    as (new & Hcases & Htotal & Hpassed & Hfailed & Hall & _).
  simpl in Hcases, Htotal, Hpassed, Hfailed.
  rewrite Hcases, Htotal, Hpassed, Hfailed.
  apply recorded_cases in Hall as [_ Hall].
  split_and!; [|done|].
  - clear -Hall. induction Hall as [|cr new (Htests & _) _ IH]; [done|].
    rewrite fmap_cons. unfold checks_recorded, checks_declared in *.
    cbn [foldr]. rewrite <- IH, <- Htests, length_fmap. lia.
  - rewrite Z.add_0_l. apply count_if_ext.
    apply Forall_concat, Forall_fmap.
    eapply Forall_impl; [exact Hall|]. intros cr (_ & Hpf & _).
    unfold compose. eapply Forall_impl; [exact Hpf|].
    intros r. apply pass_or_fail_is_fail.
Qed.

Lemma execute_tests_body_failed (interactive : bool) (test_case : TestCase)
    (results results' : TestResults) (x : loop_exit) (s s' : Session) :
  execute_tests_body depth repr_set interactive test_case results s
  = (Ok (x, results'), s') ->
  failed results <= failed results'.
Proof.
  intros Hrun.
  apply execute_tests_body_case in Hrun
    as (cr & _ & _ & _ & _ & _ & -> & _).
  simpl. pose proof (count_if_nonneg (fun r => negb (is_pass r))
                       (cr_results cr)). lia.
Qed.

Lemma execute_tests_loop_failed (interactive : bool)
    (test_cases : list TestCase) (results results' : TestResults)
    (s s' : Session) :
  execute_tests_loop depth repr_set interactive test_cases results s
  = (Ok results', s') ->
  failed results <= failed results'.
Proof.
  intros Hrun.
  apply execute_tests_loop_cases in Hrun as (new & _ & _ & _ & -> & _).
  pose proof (count_if_nonneg (fun r => negb (is_pass r))
                (concat (cr_results <$> new))). lia.
Qed.

(** An iteration that adds no failure does not look at the flag. *)
Lemma execute_tests_body_flag (i1 i2 : bool) (test_case : TestCase)
    (results results' : TestResults) (x : loop_exit) (s s' : Session) :
  execute_tests_body depth repr_set i1 test_case results s
  = (Ok (x, results'), s') ->
  failed results' <= failed results ->
  x = LoopNext
  /\ execute_tests_body depth repr_set i2 test_case results s
     = (Ok (x, results'), s').
Proof.
  intros Hrun Hfailed.
  pose proof Hrun as Hcase.
  apply execute_tests_body_case in Hcase
    as (cr0 & _ & _ & _ & _ & _ & -> & Hbreak).
  assert (Hnone : has_failure cr0 = false).
  { destruct (has_failure cr0) eqn:Hf; [|done].
    apply count_if_existsb in Hf. simpl in Hfailed. lia. }
  split.
  { destruct x; [done|]. destruct (Hbreak eq_refl). congruence. }
  revert Hrun. unfold execute_tests_body, bind.
  destruct (set_breakpoint _ _ s) as [[bp|?] s1]; [|done].
  destruct (run_to_breakpoint s1) as [[[]|?] s2]; [|done].
  destruct (get_current_function_name s2) as [[fn|?] s3]; [|done].
  destruct (get_all_variable_names s3) as [[names|?] s4]; [|done].
  destruct (on_frame _ s4) as [[cr|?] s5]; [|done].
  unfold lift. destruct (outcome_of _) as [[]|?]; [|done].
  fold (has_failure cr).
  destruct (has_failure cr) eqn:Hf.
  - intros Hrun. exfalso.
    assert (Hcr : failed (add_case_result results cr)
                  = failed (add_case_result results cr0)).
    { destruct i1; cbn [andb] in Hrun.
      - destruct (run_console s5) as [[[]|?] s6]; [| |done];
          cbn [negb] in Hrun.
        + destruct (restore_process s6) as [[[]|?] s7]; [|done].
          by apply (f_equal
                      (fun p => match fst p with
                                | Ok (_, r) => failed r
                                | Raise _ => 0
                                end)) in Hrun.
        + by apply (f_equal
                      (fun p => match fst p with
                                | Ok (_, r) => failed r
                                | Raise _ => 0
                                end)) in Hrun.
      - by apply (f_equal
                    (fun p => match fst p with
                              | Ok (_, r) => failed r
                              | Raise _ => 0
                              end)) in Hrun. }
    apply count_if_existsb in Hf. simpl in Hcr, Hfailed. lia.
  - by rewrite !andb_false_r.
Qed.

Lemma execute_tests_loop_flag (i1 i2 : bool) (test_cases : list TestCase)
    (results results' : TestResults) (s s' : Session) :
  execute_tests_loop depth repr_set i1 test_cases results s
  = (Ok results', s') ->
  failed results' <= failed results ->
  execute_tests_loop depth repr_set i2 test_cases results s
  = (Ok results', s').
Proof.
  revert results s. induction test_cases as [|tc rest IH];
    intros results s Hrun Hfailed; [done|].
  cbn [execute_tests_loop] in *.
  apply bind_Ok_inv in Hrun as ([x results1] & s1 & Hbody & Hrun).
  pose proof (execute_tests_body_failed _ _ _ _ _ _ _ Hbody) as Hmono.
  assert (Hrest : failed results1 <= failed results').
  { destruct x.
    - by apply execute_tests_loop_failed in Hrun.
    - injection Hrun as <- <-. lia. }
  apply (execute_tests_body_flag i1 i2) in Hbody as [-> Hbody]; [|lia].
  unfold bind. rewrite Hbody. apply IH; [done|lia].
Qed.

(** X19. The interactive flag matters only when a check fails: a run of
    [execute_tests] that returns a summary with no failure returns the same
    summary, after the same calls and with the same input left, under the
    other value of the flag. *)
Theorem interactive_flag_irrelevant_without_failure
    (test_cases : list TestCase) (i1 i2 : bool) (results : TestResults)
    (s s' : Session) :
  execute_tests depth repr_set test_cases i1 s = (Ok results, s') ->
  failed results = 0 ->
  execute_tests depth repr_set test_cases i2 s = (Ok results, s').
Proof.
  unfold execute_tests. intros Hrun Hfailed.
  apply (execute_tests_loop_flag i1 i2) in Hrun; [done|].
  simpl. lia.
Qed.
End RunTheorems.

(* ===================================================================== *)
(** * The report *)
(* ===================================================================== *)

Lemma framed_wret {A} (a : A) : framed (wret a).
Proof.
  intros out. unfold wret, outcome_of, lines_of. simpl.
  by rewrite app_nil_r.
Qed.

Lemma framed_log (text : string) : framed (log text).
Proof. by intros out. Qed.

Lemma framed_wlift {A} (r : result A) : framed (wlift r).
Proof.
  intros out. unfold wlift, outcome_of, lines_of. simpl.
  by rewrite app_nil_r.
Qed.

Lemma framed_wbind {A B} (m : W A) (k : A -> W B) :
  framed m -> (forall a, framed (k a)) -> framed (wbind m k).
Proof.
  intros Hm Hk out. unfold outcome_of, lines_of, wbind.
  rewrite (Hm out), (Hm []).
  destruct (outcome_of m) as [a|e]; [|done].
  rewrite (Hk a (out ++ lines_of m)), (Hk a ([] ++ lines_of m)). simpl.
  by rewrite app_assoc.
Qed.

Lemma framed_wwhen (c : bool) (m : W unit) : framed m -> framed (wwhen c m).
Proof. destruct c; [done|]. intros _. apply framed_wret. Qed.

Lemma framed_wfor {A} (l : list A) (body : A -> W unit) :
  (forall x, framed (body x)) -> framed (wfor l body).
Proof.
  intros Hbody. induction l as [|x l IH]; simpl.
  - apply framed_wret.
  - by apply framed_wbind.
Qed.

(** A step that returns, followed by the rest. *)
Lemma wbind_returns {A B} (m : W A) (k : A -> W B) (a : A) :
  framed (k a) -> outcome_of m = Ok a ->
  outcome_of (wbind m k) = outcome_of (k a)
  /\ lines_of (wbind m k) = lines_of m ++ lines_of (k a).
Proof.
  intros Hk Hm. unfold outcome_of, lines_of, wbind in *.
  destruct (m []) as [r out] eqn:Hrun. simpl in Hm. subst r.
  by rewrite (Hk out).
Qed.

Lemma wbind_raises {A B} (m : W A) (k : A -> W B) (e : exn) :
  outcome_of m = Raise e -> outcome_of (wbind m k) = Raise e.
Proof.
  unfold outcome_of, wbind. destruct (m []) as [r out]. simpl.
  by intros ->.
Qed.

Lemma wfor_returns {A} (l : list A) (body : A -> W unit) :
  (forall x, framed (body x)) ->
  Forall (fun x => outcome_of (body x) = Ok tt) l ->
  outcome_of (wfor l body) = Ok tt.
Proof.
  intros Hframed. induction 1 as [|x l Hx _ IH]; [done|].
  cbn [wfor].
  destruct (wbind_returns (body x) (fun _ => wfor l body) tt) as [-> _];
    [by apply framed_wfor|done|done].
Qed.

(** Two loops whose bodies write comparable lines. *)
Lemma wfor_sublist {A} (l : list A) (quiet verbose : A -> W unit) :
  (forall x, framed (quiet x)) -> (forall x, framed (verbose x)) ->
  (forall x,
      outcome_of (verbose x) = Ok tt ->
      outcome_of (quiet x) = Ok tt
      /\ sublist (lines_of (quiet x)) (lines_of (verbose x))) ->
  outcome_of (wfor l verbose) = Ok tt ->
  outcome_of (wfor l quiet) = Ok tt
  /\ sublist (lines_of (wfor l quiet)) (lines_of (wfor l verbose)).
Proof.
  intros Hq Hv Hstep. induction l as [|x l IH]; [done|].
  cbn [wfor]. intros Hrun.
  destruct (outcome_of (verbose x)) as [[]|e] eqn:Hx.
  2:{ by rewrite (wbind_raises _ _ e) in Hrun. }
  destruct (wbind_returns (verbose x) (fun _ => wfor l verbose) tt)
    as [Hout Hlines]; [by apply framed_wfor|done|].
  rewrite Hout in Hrun. rewrite Hlines.
  destruct (Hstep x) as [Hqx Hsub]; [done|].
  destruct (IH Hrun) as [Hql Hsubl].
  destruct (wbind_returns (quiet x) (fun _ => wfor l quiet) tt)
    as [-> ->]; [by apply framed_wfor|done|].
  split; [done|]. by apply sublist_app.
Qed.

Lemma wbind_log_lines (text : string) (k : unit -> W unit) :
  framed (k tt) -> lines_of (wbind (log text) k) = text :: lines_of (k tt).
Proof.
  intros Hk.
  by destruct (wbind_returns (log text) k tt Hk eq_refl) as [_ ->].
Qed.

(** Composite writers are framed when their parts are. *)
Ltac solve_framed :=
  repeat first
    [ apply framed_log | apply framed_wret | apply framed_wlift
    | apply framed_wwhen
    | apply framed_wbind; [|intros ?]
    | match goal with |- framed (if ?c then _ else _) => destruct c end ].

Section ReportFacts.
Variable repr_set : gset pystr -> string.

Lemma framed_print_test_result (r : TestResult) (verbose : bool) :
  framed (print_test_result repr_set r verbose).
Proof. unfold print_test_result, log_names. solve_framed. Qed.

(** Only a check that passed is passed over, and only when the report is
    not verbose. *)
Lemma print_test_result_quiet_iff (r : TestResult) (verbose : bool) :
  lines_of (print_test_result repr_set r verbose) = []
  <-> is_pass r = true /\ verbose = false.
Proof.
  unfold print_test_result, log_names.
  destruct (is_pass r); [destruct verbose|]; cbn [wwhen].
  - rewrite wbind_log_lines by solve_framed. split; [done|by intros [_ ?]].
  - done.
  - rewrite wbind_log_lines by solve_framed. split; [done|by intros [? _]].
Qed.

Lemma framed_case (case_result : CaseResult) (verbose : bool) :
  framed
    (wbind (log (case_header case_result))
       (fun _ =>
          wfor (cr_results case_result)
            (fun result => print_test_result repr_set result verbose))).
Proof.
  apply framed_wbind; [apply framed_log|intros _].
  apply framed_wfor. intros r. apply framed_print_test_result.
Qed.

(** How a step that is framed goes on. *)
Lemma outcome_wbind {A B} (m : W A) (k : A -> W B) :
  (forall a, framed (k a)) ->
  outcome_of (wbind m k)
  = match outcome_of m with
    | Ok a => outcome_of (k a)
    | Raise e => Raise e
    end.
Proof.
  intros Hk. destruct (outcome_of m) as [a|e] eqn:Hm.
  - by destruct (wbind_returns m k a (Hk a) Hm) as [-> _].
  - by apply wbind_raises.
Qed.

Lemma all_str_None (l : list pystr) : all_str l = None <-> None ∈ l.
Proof.
  induction l as [|[text|] l IH]; simpl.
  - split; [done|]. by intros ?%elem_of_nil.
  - rewrite elem_of_cons, <- IH. destruct (all_str l); simpl.
    + split; [done|]. by intros [?|?].
    + split; [by right|done].
  - split; [intros _; by left|done].
Qed.

(** Writing the sorted names of a set raises exactly when one of them is
    [None]. *)
Lemma outcome_log_names (label : string) (names : gset pystr) :
  outcome_of (log_names label (py_sorted (elements names)))
  = if bool_decide (None ∈ names) then Raise TypeError else Ok tt.
Proof.
  unfold log_names, outcome_of, wbind, wlift, py_sorted. simpl.
  destruct (all_str (elements names)) as [texts|] eqn:Hall.
  - rewrite (bool_decide_eq_false_2 (None ∈ names)).
    + simpl. unfold py_join. by rewrite all_str_Some.
    + intros Hin. apply elem_of_elements, all_str_None in Hin. congruence.
  - rewrite (bool_decide_eq_true_2 (None ∈ names))
      by (by apply elem_of_elements, all_str_None).
    destruct (bool_decide _); [|done].
    simpl. unfold py_join. by rewrite Hall.
Qed.

(** When printing a result of a check raises. *)
Lemma print_test_result_outcome (names : gset pystr) (r : TestResult)
    (verbose : bool) :
  names_recorded names r ->
  outcome_of (print_test_result repr_set r verbose)
  = if bool_decide (variable (test r) = "all variables"%string)
       && negb (is_pass r) && bool_decide (None ∈ names)
    then Raise TypeError
    else Ok tt.
Proof.
  unfold names_recorded, print_test_result. intros Hnames.
  destruct (is_pass r) eqn:Hpass; cbn [negb].
  - rewrite andb_false_r. cbn [andb].
    destruct verbose; [|done]. cbn [wwhen].
    rewrite outcome_wbind by (intros; unfold log_names; solve_framed).
    change (outcome_of (log _)) with (Ok tt : result unit). cbv beta iota.
    case_bool_decide as Hv; [|done].
    destruct (Hnames Hv) as (-> & Hp & _).
    destruct (Hp eq_refl) as (Hnone & _). cbn [sorted_actual].
    rewrite outcome_log_names. by rewrite bool_decide_eq_false_2.
  - rewrite andb_true_r.
    rewrite outcome_wbind by (intros; unfold log_names; solve_framed).
    change (outcome_of (log _)) with (Ok tt : result unit). cbv beta iota.
    case_bool_decide as Hv; cbn [andb].
    + destruct (Hnames Hv) as (-> & _ & Hf).
      destruct (Hf eq_refl) as (m & x & -> & -> & Hm & Hx).
      rewrite outcome_wbind by (intros; unfold log_names; solve_framed).
      assert (Hmissing :
                outcome_of
                  (wwhen (set_truthy (Some m))
                     (log_names "    Missing variables: "
                        (sorted_names (Some m))))
                = Ok tt).
      { destruct (set_truthy (Some m)); [|done]. cbn [wwhen sorted_names].
        rewrite outcome_log_names. by rewrite bool_decide_eq_false_2. }
      rewrite Hmissing.
      rewrite outcome_wbind by (intros; unfold log_names; solve_framed).
      case_bool_decide as Hnone.
      * assert (Hextra : set_truthy (Some x) = true).
        { simpl. apply negb_true_iff, bool_decide_eq_false_2.
          intros ->. apply Hx in Hnone. by apply not_elem_of_empty in Hnone. }
        rewrite Hextra. cbn [wwhen sorted_names].
        rewrite outcome_log_names. rewrite bool_decide_eq_true_2; [done|].
        by apply Hx.
      * assert (Hextra :
                  outcome_of
                    (wwhen (set_truthy (Some x))
                       (log_names "    Extra variables: "
                          (sorted_names (Some x))))
                  = Ok tt).
        { destruct (set_truthy (Some x)); [|done].
          cbn [wwhen sorted_names].
          rewrite outcome_log_names. rewrite bool_decide_eq_false_2; [done|].
          by rewrite Hx. }
        rewrite Hextra.
        rewrite outcome_wbind by (intros; unfold log_names; solve_framed).
        change (outcome_of (log _)) with (Ok tt : result unit).
        cbv beta iota. cbn [sorted_actual].
        rewrite outcome_log_names. by rewrite bool_decide_eq_false_2.
    + by case_bool_decide.
Qed.

Lemma print_test_result_quiet (r : TestResult) :
  outcome_of (print_test_result repr_set r true) = Ok tt ->
  outcome_of (print_test_result repr_set r false) = Ok tt
  /\ sublist (lines_of (print_test_result repr_set r false))
       (lines_of (print_test_result repr_set r true)).
Proof.
  unfold print_test_result. destruct (is_pass r).
  - intros _. split; [done|]. apply sublist_nil_l.
  - done.
Qed.

(** A case that was printed after its execution is printed in the report,
    whether or not the report is verbose. *)
Lemma print_case_result_report (case_result : CaseResult) (verbose : bool) :
  outcome_of (print_case_result repr_set case_result) = Ok tt ->
  outcome_of
    (wbind (log (case_header case_result))
       (fun _ =>
          wfor (cr_results case_result)
            (fun result => print_test_result repr_set result verbose)))
  = Ok tt.
Proof.
  unfold print_case_result.
  rewrite !outcome_wbind
    by (intros _; apply framed_wfor; intros r;
        apply framed_print_test_result).
  change (outcome_of (log _)) with (Ok tt : result unit). cbv beta iota.
  destruct verbose; [done|]. intros Hverbose.
  eapply wfor_sublist in Hverbose as [Hquiet _]; [exact Hquiet| | |].
  - intros r. apply framed_print_test_result.
  - intros r. apply framed_print_test_result.
  - intros r. apply print_test_result_quiet.
Qed.

(** The report as the lines of its cases followed by the closing lines. *)
Lemma print_test_results_lines (results : TestResults) (verbose : bool) :
  let cases :=
    wfor (case_results results)
      (fun case_result =>
         wbind (log (case_header case_result))
           (fun _ =>
              wfor (cr_results case_result)
                (fun result => print_test_result repr_set result verbose)))
  in
  forall out,
    print_test_results repr_set results verbose out
    = match outcome_of cases with
      | Ok _ =>
          (Ok tt, out ++ lines_of cases ++ closing_lines results)
      | Raise e => (Raise e, out ++ lines_of cases)
      end.
Proof.
  intros cases out. unfold print_test_results. fold cases.
  assert (Hframed : framed cases).
  { apply framed_wfor. intros cr. apply framed_case. }
  unfold wbind at 1. rewrite (Hframed out).
  destruct (outcome_of cases) as [[]|e]; [|done].
  unfold closing_lines, wbind, log. simpl.
  rewrite <- !app_assoc. simpl.
  destruct (bool_decide (total results = passed results));
    f_equal; by rewrite <- !app_assoc.
Qed.
End ReportFacts.

Section ReportTheorems.
Context `{Backend}.
Variable depth : nat.
Variable repr_set : gset pystr -> string.

(** X20. Printing a result of [execute_test_case] raises in one case only:
    the check is a check on all variables, it has failed, and a variable in
    scope has no name.  Then [', '.join(sorted(...))] meets [None] among
    the extra names and raises [TypeError], whether or not the report is
    verbose; as [execute_tests] prints each result, this ends the run.  In
    every other case [print_test_result] returns; it has written nothing
    for a check that passed when it is not verbose, and at least the
    headline of the check otherwise. *)
Theorem print_test_result_of_check (w : World) (p : SBProcess)
    (test_case : TestCase) (names : gset pystr) (case_result : CaseResult)
    (verbose : bool) :
  execute_test_case w p depth test_case names = Ok case_result ->
  Forall
    (fun r =>
       forall out,
       exists lines,
         print_test_result repr_set r verbose out
         = (if bool_decide (variable (test r) = "all variables"%string)
               && negb (is_pass r) && bool_decide (None ∈ names)
            then Raise TypeError
            else Ok tt,
            out ++ lines)
         /\ (lines = [] <-> is_pass r = true /\ verbose = false))
    (cr_results case_result).
Proof.
  intros Hrun.
  apply execute_test_case_inv in Hrun as (_ & _ & _ & _ & Hrec).
  eapply Forall_impl; [exact Hrec|]. intros r Hr out.
  exists (lines_of (print_test_result repr_set r verbose)).
  rewrite (framed_print_test_result repr_set r verbose out).
  rewrite (print_test_result_outcome repr_set names r verbose Hr).
  split; [done|]. apply print_test_result_quiet_iff.
Qed.

(** X21. [print_test_results] never raises on a summary that
    [execute_tests] returned: after the lines of the cases it writes the
    heading, the three counts, and one closing line, which says that all
    tests passed exactly when no check failed. *)
Theorem report_of_run (test_cases : list TestCase) (interactive : bool)
    (results : TestResults) (s s' : Session) (verbose : bool)
    (out : list string) :
  execute_tests depth repr_set test_cases interactive s = (Ok results, s') ->
  (exists lines,
      print_test_results repr_set results verbose out
      = (Ok tt, out ++ lines ++ closing_lines results))
  /\ (last (closing_lines results) = Some "All tests passed!"%string
      <-> failed results = 0).
Proof.
  unfold execute_tests. intros Hrun.
  pose proof Hrun as Hspec.
  apply execute_tests_loop_spec in Hspec as [Hcons _].
  destruct Hcons as [Hsum _]; [by split|].
  apply execute_tests_loop_cases in Hrun
    as (new & Hcases & _ & _ & _ & Hall & _).
  simpl in Hcases. apply recorded_cases in Hall as [_ Hall].
  split.
  2:{ unfold closing_lines. simpl in Hsum. simpl.
      case_bool_decide; split; try done; lia. }
  rewrite (print_test_results_lines repr_set results verbose out).
  rewrite wfor_returns; [by eexists| |].
  - intros cr. apply framed_case.
  - rewrite Hcases. eapply Forall_impl; [exact Hall|].
    intros cr (_ & _ & Hprint). cbn beta.
    by apply print_case_result_report.
Qed.
End ReportTheorems.

(** X22. The verbose flag only adds lines: when the verbose report of a
    summary can be written, so can the quiet one, and its lines are lines
    of the verbose report, in the same order; both end with the same
    closing lines. *)
Theorem quiet_report_within_verbose (repr_set : gset pystr -> string)
    (results : TestResults) (out out' : list string) :
  print_test_results repr_set results true out = (Ok tt, out') ->
  exists quiet verbose,
    out' = out ++ verbose ++ closing_lines results
    /\ print_test_results repr_set results false out
       = (Ok tt, out ++ quiet ++ closing_lines results)
    /\ sublist quiet verbose.
Proof.
  rewrite !(print_test_results_lines repr_set results _ out).
  destruct (outcome_of
              (wfor (case_results results)
                 (fun cr =>
                    wbind (log (case_header cr))
                      (fun _ =>
                         wfor (cr_results cr)
                           (fun r => print_test_result repr_set r true)))))
    as [[]|e] eqn:Hverbose; [|done].
  intros [= <-].
  eapply wfor_sublist in Hverbose as [Hquiet Hsub].
  - rewrite Hquiet. by eexists _, _.
  - intros cr. apply framed_case.
  - intros cr. apply framed_case.
  - intros cr. cbn beta. intros Hcase.
    destruct (wbind_returns (log (case_header cr))
                (fun _ =>
                   wfor (cr_results cr)
                     (fun r => print_test_result repr_set r true)) tt)
      as [Hout Hlines];
      [apply framed_wfor; intros r; apply framed_print_test_result|done|].
    rewrite Hout in Hcase. rewrite Hlines.
    eapply wfor_sublist in Hcase as [Hq Hs].
    + destruct (wbind_returns (log (case_header cr))
                  (fun _ =>
                     wfor (cr_results cr)
                       (fun r => print_test_result repr_set r false)) tt)
        as [-> ->];
        [apply framed_wfor; intros r; apply framed_print_test_result
        |done|].
      split; [exact Hq|]. apply sublist_app; [done|exact Hs].
    + intros r. apply framed_print_test_result.
    + intros r. apply framed_print_test_result.
    + intros r. apply print_test_result_quiet.
Qed.

(* ===================================================================== *)
(** * The further theorems on sample sessions *)
(* ===================================================================== *)

Section MoreWitnesses.
Import Fake Samples MoreSamples.

(** X1: the slice of 10, 20, 30 is rendered with room for one nested call,
    hence also with room for seven. *)
Lemma format_value_depth_irrelevant_witness :
  format_value stopped tt 7 (long_slice (Some "s"%string) "0x1000" "3")
  = Ok (Some "[]int[10, 20, 30]"%string).
Proof.
  rewrite (format_value_depth_irrelevant (H := backend) stopped tt 1 7).
  - reflexivity.
  - vm_compute. discriminate.
  - lia.
Defined.

(** X2 at the point (1, 2). *)
Lemma format_struct_renders_members_witness :
  format_value stopped tt 2 (point (Some "p"%string) "1" "2")
  = Ok (Some "main.Point(x = 1, y = 2)"%string).
Proof.
  refine (proj2 (format_struct_renders_members (H := backend) stopped tt 1
                   (point (Some "p"%string) "1" "2")
                   [Some "1"; Some "2"]%string eq_refl _) eq_refl).
  intros [|[|i]] value Hi; vm_compute in Hi; try discriminate Hi;
    injection Hi as <-; reflexivity.
Defined.

(** X3 at an array of two [long]s. *)
Lemma format_array_renders_children_witness :
  format_value stopped tt 2 long_array = Ok (Some "[2]int[1, 2]"%string).
Proof.
  refine (format_array_renders_children (H := backend) stopped tt 1
            long_array ["1"; "2"]%string eq_refl eq_refl _).
  intros [|[|i]] e Hi; vm_compute in Hi; try discriminate Hi;
    injection Hi as <-; reflexivity.
Defined.

(** X4 at an array of two points. *)
Lemma format_custom_array_renders_children_witness :
  format_value stopped tt 2 point_array
  = Ok (Some "[2]main.Point[(x = 1, y = 2), (x = 3, y = 4)]"%string).
Proof.
  refine (format_custom_array_renders_children (H := backend) stopped tt 1
            point_array ["(x = 1, y = 2)"; "(x = 3, y = 4)"]%string
            eq_refl eq_refl _).
  intros [|[|i]] e Hi; vm_compute in Hi; try discriminate Hi;
    injection Hi as <-; reflexivity.
Defined.

(** X5 at a string with the summary hi between quotes. *)
Lemma format_string_strips_quotes_witness :
  exists text,
    format_string stopped tt greeting = Ok (Some text)
    /\ starts_with is_quote text = false
    /\ ends_with is_quote text = false.
Proof.
  destruct (format_string_strips_quotes (H := backend) stopped tt greeting
              (dquote +:+ "hi" +:+ dquote) eq_refl)
    as (text & Htext & _ & Hstart & Hend).
  by exists text.
Defined.

(** X7 at a list whose second entry is a directory. *)
Lemma parse_expected_values_by_file_witness :
  parse_expected_values more_files ["pass.go"; "pkg"; "fail.go"]%string
  = Raise (IsADirectoryError "pkg").
Proof.
  refine (proj2 (proj2 (parse_expected_values_by_file more_files
                          ["pass.go"; "pkg"; "fail.go"]%string))
            ["pass.go"%string] "pkg"%string ["fail.go"%string]
            (IsADirectoryError "pkg") eq_refl _ _).
  - constructor; [|constructor]. eexists. vm_compute. reflexivity.
  - vm_compute. reflexivity.
Defined.

(** The other ways in which a source cannot be read: it does not exist, or
    it cannot be decoded. *)
Example parse_expected_values_unreadable :
  parse_expected_values more_files ["nope.go"%string]
  = Raise (FileNotFoundError "nope.go")
  /\ parse_expected_values more_files ["two.go"; "latin1.go"]%string
     = Raise UnicodeDecodeError.
Proof. vm_compute. done. Qed.

(** X8 at the three checks of [passing_source]. *)
Lemma parsed_checks_in_block_witness :
  Forall
    (fun tc =>
       Forall (check_in_block tc) (tests tc)
       /\ StronglySorted check_before (tests tc))
    [passing_case].
Proof.
  apply (parsed_checks_in_block files ["pass.go"%string]).
  vm_compute. reflexivity.
Defined.

(** X9 at [two_blocks_source]: the first case ends on line 2, the second
    starts on line 4. *)
Lemma cases_of_file_ordered_witness :
  parse_expected_values more_files ["two.go"%string] = Ok two_blocks_cases
  /\ StronglySorted case_before two_blocks_cases.
Proof.
  assert (Hparse : parse_expected_values more_files ["two.go"%string]
                   = Ok two_blocks_cases) by (vm_compute; reflexivity).
  split; [exact Hparse|].
  exact (cases_of_file_ordered more_files "two.go" two_blocks_cases Hparse).
Defined.

(** X10 at [passing_source], whose third line is a marker line. *)
Lemma cases_of_file_empty_witness :
  parse_expected_values files ["pass.go"%string] = Ok []
  <-> forall j, is_marker passing_source j = false.
Proof.
  apply (cases_of_file_empty files "pass.go" passing_source).
  vm_compute. reflexivity.
Defined.

(** X12 at the case of [failing_source]. *)
Lemma execute_test_case_results_witness :
  exists case_result,
    execute_test_case (H := backend) stopped tt 5 failing_case ∅
    = Ok case_result
    /\ cr_test_case case_result = failing_case
    /\ test <$> cr_results case_result = tests failing_case.
Proof.
  destruct (execute_test_case (H := backend) stopped tt 5 failing_case ∅)
    as [case_result|e] eqn:Hrun; [|by vm_compute in Hrun].
  destruct (proj1 (execute_test_case_results (H := backend) stopped tt 5
                     failing_case ∅) _ Hrun) as (Htc & _ & Htests & _).
  by exists case_result.
Defined.


(** X13 at the check of [a], which is 5, against 5 between blanks. *)
Lemma single_variable_check_ignores_padding_witness :
  verdict
    (execute_single_variable_test stopped tt 5
       (with_expected (mkTest "pass.go" 4 "a" "5") (" " +:+ "5" +:+ "  ")))
  = Ok ("pass"%string, Some (ActualStr "5")).
Proof.
  exact (proj1 (single_variable_check_ignores_padding (H := backend)
                  stopped tt 5 (mkTest "pass.go" 4 "a" "5") " " "  "
                  eq_refl eq_refl)).
Defined.

(** X14 at the first stop of a run: the program is launched. *)
Lemma run_to_breakpoint_stops_witness :
  exists r s',
    run_to_breakpoint (session []) = (r, s')
    /\ calls s' = [EvLaunch]
    /\ stdin s' = [].
Proof.
  destruct (run_to_breakpoint (session [])) as [r s'] eqn:Hrun.
  destruct (run_to_breakpoint_stops (H := backend) _ _ _ Hrun)
    as (Hcalls & Hstdin & _).
  by exists r, s'.
Defined.

(** X15 at a console in which the user types a command and interrupts the
    next one while its output is written. *)
Lemma run_console_commands_witness :
  exists r s' texts,
    run_console
      (session [Line " bt "; LineThenInterrupt "next" true; Line "quit"])
    = (r, s')
    /\ Forall (fun text => is_quit text = false) texts
    /\ process s' = None.
Proof.
  destruct (run_console
              (session
                 [Line " bt "; LineThenInterrupt "next" true; Line "quit"]))
    as [r s'] eqn:Hrun.
  destruct (run_console_commands (H := backend) _ _ _ Hrun)
    as (texts & Hall & Hprocess & _).
  by exists r, s', texts.
Defined.

(** What that console does: both commands reach the interpreter, the last
    line is left unread and [run_console] is left by [KeyboardInterrupt];
    with the interrupt while it waits for the second line it answers
    [False]. *)
Example interrupted_console :
  let run :=
    run_console
      (session [Line " bt "; LineThenInterrupt "next" true; Line "quit"]) in
  fst run = Raise KeyboardInterrupt
  /\ stdin (snd run) = [Line "quit"]
  /\ calls (snd run)
     = console_setup
       ++ [EvInterpreterCommand "bt"; EvInterpreterCommand "next"]
  /\ fst (run_console (session [Line " bt "; Interrupt; Line "quit"]))
     = Ok false.
Proof. vm_compute. done. Qed.

(** X16 at a failing case with a line waiting on the terminal. *)
Lemma execute_tests_without_console_witness :
  exists r s',
    execute_tests 5 no_repr [failing_case] false (session [Line "bt"])
    = (r, s')
    /\ stdin s' = [Line "bt"].
Proof.
  destruct (execute_tests 5 no_repr [failing_case] false (session [Line "bt"]))
    as [r s'] eqn:Hrun.
  destruct (execute_tests_without_console (H := backend) 5 no_repr _ _ _ _ Hrun)
    as (Hstdin & _).
  by exists r, s'.
Defined.

(** X17 at a run that the user aborts in the console of its first case. *)
Lemma execute_tests_cases_witness :
  exists results s',
    execute_tests 5 no_repr [failing_case; failing_case] true
      (session_of (world_of [sample_stop; sample_stop]) [Interrupt])
    = (Ok results, s')
    /\ cr_test_case <$> case_results results
       = take (length (case_results results)) [failing_case; failing_case].
Proof.
  destruct (execute_tests 5 no_repr [failing_case; failing_case] true
              (session_of (world_of [sample_stop; sample_stop])
                 [Interrupt]))
    as [[results|e] s'] eqn:Hrun; [|by vm_compute in Hrun].
  destruct (execute_tests_cases (H := backend) 5 no_repr _ _ _ _ _ Hrun)
    as (Hcases & _).
  by exists results, s'.
Defined.

(** X18 at the same run. *)
Lemma execute_tests_counts_witness :
  exists results s',
    execute_tests 5 no_repr [failing_case; failing_case] true
      (session_of (world_of [sample_stop; sample_stop]) [Interrupt])
    = (Ok results, s')
    /\ passed results = count_if is_pass (all_results results)
    /\ failed results = count_if is_fail (all_results results).
Proof.
  destruct (execute_tests 5 no_repr [failing_case; failing_case] true
              (session_of (world_of [sample_stop; sample_stop])
                 [Interrupt]))
    as [[results|e] s'] eqn:Hrun; [|by vm_compute in Hrun].
  destruct (execute_tests_counts (H := backend) 5 no_repr _ _ _ _ _ Hrun)
    as (_ & Hpassed & Hfailed).
  by exists results, s'.
Defined.

(** X19 at a case whose three checks pass: the interrupt waiting on the
    terminal is not read under either value of the flag. *)
Lemma interactive_flag_irrelevant_without_failure_witness :
  exists results s',
    execute_tests 5 no_repr [passing_case] true (session [Interrupt])
    = (Ok results, s')
    /\ execute_tests 5 no_repr [passing_case] false (session [Interrupt])
       = (Ok results, s').
Proof.
  destruct (execute_tests 5 no_repr [passing_case] true (session [Interrupt]))
    as [[results|e] s'] eqn:Hrun; [|by vm_compute in Hrun].
  exists results, s'. split; [done|].
  apply (interactive_flag_irrelevant_without_failure (H := backend) 5 no_repr _
           true false _ _ _ Hrun).
  vm_compute in Hrun. by injection Hrun as <- _.
Defined.

(** X20 at a stop with an unnamed variable beside [a], and a check that
    expects [a] to be alone in scope: the check fails, the extra name is
    [None], and printing the result raises [TypeError]. *)
Lemma print_test_result_of_check_witness :
  exists case_result r,
    execute_test_case (H := backend) stopped_unnamed tt 5 only_a_case
      {[Some "a"%string; None]}
    = Ok case_result
    /\ cr_results case_result = [r]
    /\ extra r = Some {[None]}
    /\ fst (print_test_result no_repr r true []) = Raise TypeError.
Proof.
  destruct (execute_test_case (H := backend) stopped_unnamed tt 5
              only_a_case {[Some "a"%string; None]})
    as [case_result|e] eqn:Hrun; [|by vm_compute in Hrun].
  pose proof (print_test_result_of_check (H := backend) 5 no_repr _ _ _ _ _
                true Hrun) as Hall.
  vm_compute in Hrun. injection Hrun as <-.
  apply Forall_cons in Hall as [Hr _].
  destruct (Hr []) as (lines & Hprint & _).
  eexists _, _. split; [reflexivity|]. split; [reflexivity|].
  split; [vm_compute; reflexivity|].
  rewrite Hprint. vm_compute. reflexivity.
Defined.

(** The run of that case: [execute_tests] is left by the [TypeError] of
    the printing, which [run_tests] catches; the exit status is 0. *)
Example unnamed_variable_ends_the_run :
  fst (execute_tests 5 no_repr [only_a_case] false
         (session_of (world_of [unnamed_stop]) []))
  = Raise TypeError
  /\ fst (run_tests_try "exe" None 5 no_repr [only_a_case] false
            (session_of (world_of [unnamed_stop]) []))
     = Raise TypeError.
Proof. vm_compute. done. Qed.

(** X21 at a run with a failing check. *)
Lemma report_of_run_witness :
  exists results s' lines,
    execute_tests 5 no_repr [failing_case] false (session []) = (Ok results, s')
    /\ print_test_results no_repr results true []
       = (Ok tt, [] ++ lines ++ closing_lines results).
Proof.
  destruct (execute_tests 5 no_repr [failing_case] false (session []))
    as [[results|e] s'] eqn:Hrun; [|by vm_compute in Hrun].
  destruct (proj1 (report_of_run (H := backend) 5 no_repr _ _ _ _ _ true []
                     Hrun)) as [lines Hlines].
  by exists results, s', lines.
Defined.

(** X22 at a summary with one passing check and one failing check. *)
Lemma quiet_report_within_verbose_witness :
  exists quiet verbose,
    print_test_results no_repr mixed_summary false []
    = (Ok tt, [] ++ quiet ++ closing_lines mixed_summary)
    /\ sublist quiet verbose.
Proof.
  destruct (print_test_results no_repr mixed_summary true [])
    as [[[]|e] out'] eqn:Hrun; [|by vm_compute in Hrun].
  destruct (quiet_report_within_verbose no_repr mixed_summary [] out' Hrun)
    as (quiet & verbose & _ & Hquiet & Hsub).
  by exists quiet, verbose.
Defined.
End MoreWitnesses.
